(** * create-node-express-es6-app: the project initializer

    A shallow embedding of the initializer script of the repository (the
    script with [init] and [createApp]; the short clone-and-install script
    that precedes it in [bin/cli.js] has no logic of its own): name
    validation ([checkAppName]), the directory-safety scan
    ([isSafeToCreateProjectIn]), the npm working-directory check
    ([checkThatNpmCanReadCwd]), the install step ([install]), the
    install/rollback flow ([run]) and the driver ([createApp]).

    The script is sequential JavaScript that mutates the file system and the
    process working directory, prints to the console, spawns child processes
    and leaves through [process.exit] or an uncaught exception.  It is
    embedded as a state monad over a [world] (file system, working directory,
    trace of what the process did) whose computations end in a returned
    value, a process exit or a thrown exception. *)

From Stdlib Require Import List String Ascii ZArith Bool Arith Lia.
Import ListNotations.
Open Scope list_scope.
Open Scope string_scope.

Set Implicit Arguments.
Set Warnings "-register-all".

(** ** Strings as the script uses them *)

Module Str.

Definition nl : ascii := ascii_of_nat 10.
Definition dquote : ascii := ascii_of_nat 34.
Definition NL : string := String nl "".
Definition DQ : string := String dquote "".

(** [file.startsWith(pattern)] *)
Definition startsWith (file pattern : string) : bool := String.prefix pattern file.

(** A regular expression [/lit$/] applied with [.test]: the matcher tries
    every start position and succeeds when the rest of the input is
    exactly [lit]. *)
Fixpoint test_literal_at_end (lit s : string) : bool :=
  String.eqb s lit ||
  match s with
  | EmptyString => false
  | String _ s' => test_literal_at_end lit s'
  end.

(** [s.split(sep)] for a one-character separator. *)
Fixpoint split (sep : ascii) (s : string) : list string :=
  match s with
  | EmptyString => [EmptyString]
  | String c s' =>
      if Ascii.eqb c sep then EmptyString :: split sep s'
      else match split sep s' with
           | [] => [String c EmptyString]
           | h :: t => String c h :: t
           end
  end.

(** [s.substring(n)] *)
Fixpoint drop (n : nat) (s : string) : string :=
  match n, s with
  | O, _ => s
  | S n', String _ s' => drop n' s'
  | S _, EmptyString => EmptyString
  end.

(** [arr.join(sep)] *)
Definition join (sep : string) (l : list string) : string := String.concat sep l.

(** [arr.includes(x)] on an array of strings (strict equality). *)
Definition includes (l : list string) (x : string) : bool := existsb (String.eqb x) l.

Definition hex_digit (n : nat) : ascii :=
  ascii_of_nat (if (n <? 10)%nat then 48 + n else 87 + n).

(** Quoting of one character by [JSON.stringify]. *)
Definition json_escape (c : ascii) : string :=
  let n := nat_of_ascii c in
  if (n =? 34)%nat then String "\" DQ
  else if (n =? 92)%nat then "\\"
  else if (n =? 8)%nat then "\b"
  else if (n =? 9)%nat then "\t"
  else if (n =? 10)%nat then "\n"
  else if (n =? 12)%nat then "\f"
  else if (n =? 13)%nat then "\r"
  else if (n <? 32)%nat then "\u00" ++ String (hex_digit (n / 16)) (String (hex_digit (n mod 16)) "")
  else String c "".

Fixpoint json_escape_all (s : string) : string :=
  match s with
  | EmptyString => EmptyString
  | String c s' => json_escape c ++ json_escape_all s'
  end.

Definition json_string (s : string) : string := DQ ++ json_escape_all s ++ DQ.

End Str.

(** ** POSIX paths

    An absolute, normalised path is the list of its components from the
    file-system root.  [path.resolve] and [path.basename] take the user's
    argument as a string; the names that [readdirSync] returns are single
    components, so [path.join(root, file)] appends one component. *)

Definition path := list string.

Module Path.

Definition is_absolute (name : string) : bool := Str.startsWith name "/".

Definition push_segment (acc : path) (seg : string) : path :=
  if String.eqb seg "" || String.eqb seg "." then acc
  else if String.eqb seg ".." then removelast acc
  else (acc ++ [seg])%list.

(** [path.resolve(name)] with the process in directory [cwd]. *)
Definition resolve (cwd : path) (name : string) : path :=
  fold_left push_segment (Str.split "/" name) (if is_absolute name then [] else cwd).

(** [path.basename(root)] of a resolved path. *)
Definition basename (root : path) : string := last root "".

(** [path.join(root, file)] for a directory entry [file]. *)
Definition join (root : path) (file : string) : path := (root ++ [file])%list.

(** [path.resolve(root, '..')] *)
Definition parent (root : path) : path := removelast root.

(** The string that the script prints and compares for a resolved path. *)
Definition to_string (p : path) : string := "/" ++ Str.join "/" p.

End Path.

(** ** The file system: plain files and directories *)

Inductive node : Type :=
| File (content : string)
| Dir (entries : list (string * node)).

Inductive errno : Type := ENOENT | ENOTDIR | EISDIR | EEXIST | EBUSY.

Inductive fs_result (A : Type) : Type :=
| Ok (a : A)
| Err (e : errno).
Arguments Ok {A} a.
Arguments Err {A} e.

Module Fs.

Definition entries := list (string * node).

Fixpoint assoc (x : string) (es : entries) : option node :=
  match es with
  | [] => None
  | (y, n) :: es' => if String.eqb x y then Some n else assoc x es'
  end.

Fixpoint replace (x : string) (n : node) (es : entries) : entries :=
  match es with
  | [] => []
  | (y, m) :: es' => if String.eqb x y then (y, n) :: es' else (y, m) :: replace x n es'
  end.

Definition names (es : entries) : list string := map fst es.

Definition remove_name (x : string) (es : entries) : entries :=
  filter (fun e => negb (String.eqb (fst e) x)) es.

Fixpoint lookup (p : path) (n : node) : fs_result node :=
  match p with
  | [] => Ok n
  | x :: p' =>
      match n with
      | File _ => Err ENOTDIR
      | Dir es =>
          match assoc x es with
          | Some c => lookup p' c
          | None => Err ENOENT
          end
      end
  end.

(** Apply [f] to the entries of the directory at [p]. *)
Fixpoint alter_dir (f : entries -> entries) (p : path) (n : node) : fs_result node :=
  match n with
  | File _ => Err ENOTDIR
  | Dir es =>
      match p with
      | [] => Ok (Dir (f es))
      | x :: p' =>
          match assoc x es with
          | Some c =>
              match alter_dir f p' c with
              | Ok c' => Ok (Dir (replace x c' es))
              | Err e => Err e
              end
          | None => Err ENOENT
          end
      end
  end.

(** [mkdir -p]: what [fs.ensureDirSync] does. *)
Fixpoint mkdirp (p : path) (n : node) : fs_result node :=
  match n with
  | File _ => Err (match p with [] => EEXIST | _ => ENOTDIR end)
  | Dir es =>
      match p with
      | [] => Ok n
      | x :: p' =>
          match assoc x es with
          | Some c =>
              match mkdirp p' c with
              | Ok c' => Ok (Dir (replace x c' es))
              | Err e => Err e
              end
          | None =>
              match mkdirp p' (Dir []) with
              | Ok c' => Ok (Dir (es ++ [(x, c')])%list)
              | Err e => Err e
              end
          end
      end
  end.

(** Split a path into its directory and its last component. *)
Definition split_last (p : path) : option (path * string) :=
  match p with
  | [] => None
  | _ => Some (removelast p, last p "")
  end.

(** Create or truncate the entry [x] of a directory. *)
Definition put_file (x content : string) (es : entries) : entries :=
  match assoc x es with
  | Some _ => replace x (File content) es
  | None => (es ++ [(x, File content)])%list
  end.

(** [fs.writeFileSync(p, content)] *)
Definition write_file (p : path) (content : string) (n : node) : fs_result node :=
  match split_last p with
  | None => Err EISDIR
  | Some (d, x) =>
      match lookup d n with
      | Ok (Dir es) =>
          match assoc x es with
          | Some (Dir _) => Err EISDIR
          | _ => alter_dir (put_file x content) d n
          end
      | Ok (File _) => Err ENOTDIR
      | Err e => Err e
      end
  end.

(** [fs.removeSync(p)]: recursive removal; a missing path is not an error. *)
Definition remove (p : path) (n : node) : fs_result node :=
  match split_last p with
  | None => Err EBUSY
  | Some (d, x) =>
      match lookup d n with
      | Ok (Dir _) => alter_dir (remove_name x) d n
      | Ok (File _) => Err ENOTDIR
      | Err ENOENT => Ok n
      | Err e => Err e
      end
  end.

(** The tree with the entries of the directory at [p] altered; the same
    tree when [p] is not a directory of it. *)
Definition update_dir (f : entries -> entries) (p : path) (n : node) : node :=
  match alter_dir f p n with
  | Ok n' => n'
  | Err _ => n
  end.

(** Removing the names of [l], one after the other. *)
Definition remove_all (l : list string) (es : entries) : entries :=
  fold_left (fun acc x => remove_name x acc) l es.

(** The names that [readdirSync] gives for [p]; nothing when it throws. *)
Definition listing (p : path) (n : node) : list string :=
  match lookup p n with
  | Ok (Dir es) => names es
  | _ => []
  end.

End Fs.

(** ** The world of the process and the monad of the script *)

(** What JavaScript can throw here. *)
Inductive js_error : Type :=
| FsError (code : errno) (syscall : string) (p : path)
| ReferenceError (identifier : string)
| TypeError (message : string).

(** What a promise of the script is rejected with: the object
    [{ command: ... }] that [install] builds, or an error value. *)
Inductive reason : Type :=
| CommandFailed (command : string)
| Thrown (e : js_error).

Inductive stdio : Type := StdioInherit | StdioPipe.

(** What the process does that is visible from outside, in order: console
    output, spawned child processes, and the mutations of the file system
    and of the working directory. *)
Inductive event : Type :=
| ConsoleLog (line : string)
| ConsoleError (line : string)
| ConsoleLogReason (r : reason)
| Spawn (command : string) (args : list string) (io : stdio)
| FsMkdirp (p : path)
| FsWriteFile (p : path) (content : string)
| FsRemove (p : path)
| Chdir (p : path).

Record world : Type := World {
  w_fs : node;
  w_cwd : path;
  w_trace : list event
}.

Inductive outcome (A : Type) : Type :=
| Ret (a : A)
| Exit (code : Z)
| Throw (e : js_error).
Arguments Ret {A} a.
Arguments Exit {A} code.
Arguments Throw {A} e.

Definition M (A : Type) : Type := world -> outcome A * world.

Definition ret {A} (a : A) : M A := fun w => (Ret a, w).

Definition bind {A B} (m : M A) (k : A -> M B) : M B :=
  fun w =>
    match m w with
    | (Ret a, w') => k a w'
    | (Exit c, w') => (Exit c, w')
    | (Throw e, w') => (Throw e, w')
    end.

Notation "x <- m ;; k" := (bind m (fun x => k))
  (at level 61, m at next level, right associativity).
Notation "m ;; k" := (bind m (fun _ => k))
  (at level 61, right associativity).

(** [process.exit(code)] *)
Definition process_exit {A} (code : Z) : M A := fun w => (Exit code, w).

Definition throw {A} (e : js_error) : M A := fun w => (Throw e, w).

(** [try { m } catch (e) { h e }] *)
Definition try_catch {A} (m : M A) (h : js_error -> M A) : M A :=
  fun w =>
    match m w with
    | (Throw e, w') => h e w'
    | r => r
    end.

(** [arr.forEach(f)] and [for (const x of arr) f(x)] *)
Fixpoint forEach {A} (l : list A) (f : A -> M unit) : M unit :=
  match l with
  | [] => ret tt
  | x :: l' => f x ;; forEach l' f
  end.

Definition emit (e : event) : M unit :=
  fun w => (Ret tt, World (w_fs w) (w_cwd w) (w_trace w ++ [e])%list).

Definition console_log (line : string) : M unit := emit (ConsoleLog line).
Definition console_error (line : string) : M unit := emit (ConsoleError line).

Definition process_cwd : M path := fun w => (Ret (w_cwd w), w).

(** A mutation of the file system: it throws, or it succeeds and is
    recorded. *)
Definition lift_fs (syscall : string) (p : path) (op : node -> fs_result node)
    (done : event) : M unit :=
  fun w =>
    match op (w_fs w) with
    | Ok n => (Ret tt, World n (w_cwd w) (w_trace w ++ [done])%list)
    | Err e => (Throw (FsError e syscall p), w)
    end.

(** [process.chdir(p)] *)
Definition process_chdir (p : path) : M unit :=
  fun w =>
    match Fs.lookup p (w_fs w) with
    | Ok (Dir _) => (Ret tt, World (w_fs w) p (w_trace w ++ [Chdir p])%list)
    | Ok (File _) => (Throw (FsError ENOTDIR "chdir" p), w)
    | Err e => (Throw (FsError e "chdir" p), w)
    end.

(** [fs.readdirSync(p)] *)
Definition fs_readdirSync (p : path) : M (list string) :=
  fun w =>
    match Fs.lookup p (w_fs w) with
    | Ok (Dir es) => (Ret (Fs.names es), w)
    | Ok (File _) => (Throw (FsError ENOTDIR "scandir" p), w)
    | Err e => (Throw (FsError e "scandir" p), w)
    end.

(** [fs.lstatSync(p)] *)
Definition fs_lstatSync (p : path) : M node :=
  fun w =>
    match Fs.lookup p (w_fs w) with
    | Ok n => (Ret n, w)
    | Err e => (Throw (FsError e "lstat" p), w)
    end.

(** [stats.isDirectory()] *)
Definition isDirectory (stats : node) : bool :=
  match stats with
  | Dir _ => true
  | File _ => false
  end.

Definition fs_ensureDirSync (p : path) : M unit :=
  lift_fs "mkdir" p (Fs.mkdirp p) (FsMkdirp p).
Definition fs_writeFileSync (p : path) (content : string) : M unit :=
  lift_fs "open" p (Fs.write_file p content) (FsWriteFile p content).
Definition fs_removeSync (p : path) : M unit :=
  lift_fs "rm" p (Fs.remove p) (FsRemove p).

(** ** What the script takes from outside

    The packages [chalk] and [validate-npm-package-name], the [npm] child
    processes and [process.platform] are not part of the repository; the
    script is embedded over any behaviour of theirs. *)

Inductive style : Type := Red | Green | Blue | Cyan | Yellow | Bold.

(** The object that [validate-npm-package-name] returns. *)
Record ValidationResult : Type := {
  validForNewPackages : bool;
  errors : option (list string);
  warnings : option (list string)
}.

Record environment : Type := {
  chalk : style -> string -> string;
  validateProjectName : string -> ValidationResult;
  (** A child process run to its end in a directory on a file system: the
      code that its [close] event carries ([None] is JavaScript's [null], a
      child ended by a signal) and the file system it leaves. *)
  child_process : string -> list string -> path -> node -> option Z * node;
  (** [spawn.sync('npm', ['config', 'list']).output.join('')]; [None] when
      the expression throws. *)
  npm_config_list : path -> option string;
  platform : string
}.

(** The state of a promise once it has settled. *)
Inductive settled : Type :=
| Fulfilled
| Rejected (r : reason).

(** What [Promise.all] is applied to: an iterable of promises (here already
    settled), or a value that is not iterable, such as a function. *)
Inductive promise_all_argument : Type :=
| Iterable (items : list settled)
| Callable (body : M settled).

Fixpoint first_rejection (items : list settled) : settled :=
  match items with
  | [] => Fulfilled
  | Fulfilled :: items' => first_rejection items'
  | Rejected r :: _ => Rejected r
  end.

(** [Promise.all(arg)]: a value without an iterator makes the call return a
    promise rejected with a [TypeError]; a function passed to it is never
    called. *)
Definition Promise_all (arg : promise_all_argument) : M settled :=
  match arg with
  | Iterable items => ret (first_rejection items)
  | Callable _ => ret (Rejected (Thrown (TypeError "object is not iterable")))
  end.

(** ** The script *)

Section Initializer.

Variable E : environment.

Let NL := Str.NL.
Let DQ := Str.DQ.

(** [spawn(command, args, { stdio })] followed by the [close] event of the
    child: the exit code that the callback receives. *)
Definition spawn (command : string) (args : list string) (io : stdio) : M (option Z) :=
  emit (Spawn command args io) ;;
  fun w =>
    let (code, fs') := child_process E command args (w_cwd w) (w_fs w) in
    (Ret code, World fs' (w_cwd w) (w_trace w)).

(** [code !== 0] *)
Definition code_is_not_zero (code : option Z) : bool :=
  match code with
  | Some 0%Z => false
  | _ => true
  end.

Definition install (dependencies : list string) : M settled :=
  let command := "npm" in
  let args :=
    (["install"; "--no-audit"; "--save"; "--save-exact"; "--loglevel"; "error"]
       ++ dependencies)%list in
  code <- spawn command args StdioInherit ;;
  if code_is_not_zero code
  then ret (Rejected (CommandFailed (command ++ " " ++ Str.join " " args)))
  else ret Fulfilled.

(** [reason.command] in a condition: the property of the object built by
    [install], [undefined] on an error value. *)
Definition reason_command (r : reason) : option string :=
  match r with
  | CommandFailed c => if String.eqb c "" then None else Some c
  | Thrown _ => None
  end.

Definition knownGeneratedFiles : list string := ["package.json"; "node_modules"].

(** The handler that [run] passes to [.catch]. *)
Definition run_catch (root : path) (appName : string) (r : reason) : M unit :=
  console_log "" ;;
  console_log "Aborting installation." ;;
  match reason_command r with
  | Some c => console_log ("  " ++ chalk E Cyan c ++ " has failed.")
  | None =>
      console_log (chalk E Red "Unexpected error. Please report it as a bug:") ;;
      emit (ConsoleLogReason r)
  end ;;
  console_log "" ;;
  currentFiles <- fs_readdirSync root ;;
  forEach currentFiles (fun file =>
    forEach knownGeneratedFiles (fun fileToMatch =>
      if String.eqb file fileToMatch
      then
        console_log ("Deleting generated file... " ++ chalk E Cyan file) ;;
        fs_removeSync (Path.join root file)
      else ret tt)) ;;
  remainingFiles <- fs_readdirSync root ;;
  (if (List.length remainingFiles =? 0)%nat
   then
     console_log ("Deleting " ++ chalk E Cyan (appName ++ "/") ++ " from "
                    ++ chalk E Cyan (Path.to_string (Path.parent root))) ;;
     process_chdir (Path.parent root) ;;
     fs_removeSync root
   else ret tt) ;;
  console_log "Done." ;;
  process_exit 1.

(** The arrow function that [run] hands to [Promise.all]. *)
Definition run_body : M settled :=
  let allDependencies := ["express"; "node-fetch"] in
  console_log "Installing packages. This might take a couple of minutes." ;;
  console_log ("Installing " ++ chalk E Cyan "express" ++ ", " ++ chalk E Cyan "node-fetch") ;;
  console_log "" ;;
  install allDependencies.

(** [function run(root, appName)]: [Promise.all(() => ...).catch(...)]. *)
Definition run (root : path) (appName : string) : M unit :=
  p <- Promise_all (Callable run_body) ;;
  match p with
  | Fulfilled => ret tt
  | Rejected r => run_catch root appName r
  end.

Definition or_empty (l : option (list string)) : list string :=
  match l with
  | Some l' => l'
  | None => []
  end.

(** [['express', 'node-fetch'].sort()] *)
Definition dependencies : list string := ["express"; "node-fetch"].

Definition checkAppName (appName : string) : M unit :=
  let validationResult := validateProjectName E appName in
  (if negb (validForNewPackages validationResult)
   then
     console_error
       (chalk E Red ("Cannot create a project named "
                       ++ chalk E Green (DQ ++ appName ++ DQ)
                       ++ " because of npm naming restrictions:" ++ NL)) ;;
     forEach (or_empty (errors validationResult) ++ or_empty (warnings validationResult))%list
       (fun error => console_error (chalk E Red ("  * " ++ error))) ;;
     console_error (chalk E Red (NL ++ "Please choose a different project name.")) ;;
     process_exit 1
   else ret tt) ;;
  if Str.includes dependencies appName
  then
    console_error
      (chalk E Red ("Cannot create a project named "
                      ++ chalk E Green (DQ ++ appName ++ DQ)
                      ++ " because a dependency with the same name exists." ++ NL
                      ++ "Due to the way npm works, the following names are not allowed:"
                      ++ NL ++ NL)
         ++ chalk E Cyan (Str.join NL (map (fun depName => "  " ++ depName) dependencies))
         ++ chalk E Red (NL ++ NL ++ "Please choose a different project name.")) ;;
    process_exit 1
  else ret tt.

Definition validFiles : list string :=
  [ ".DS_Store"; ".git"; ".gitattributes"; ".gitignore"; ".gitlab-ci.yml";
    ".hg"; ".hgcheck"; ".hgignore"; ".idea"; ".npmignore"; ".travis.yml";
    "docs"; "LICENSE"; "README.md"; "mkdocs.yml"; "Thumbs.db" ].

Definition errorLogFilePatterns : list string :=
  [ "npm-debug.log"; "yarn-error.log"; "yarn-debug.log" ].

Definition isErrorLog (file : string) : bool :=
  existsb (fun pattern => Str.startsWith file pattern) errorLogFilePatterns.

(** The three filters applied to the listing of the directory. *)
Definition conflicts_of (files : list string) : list string :=
  filter (fun file => negb (isErrorLog file))
    (filter (fun file => negb (Str.test_literal_at_end ".iml" file))
       (filter (fun file => negb (Str.includes validFiles file)) files)).

(** One line of the report of conflicts. *)
Definition report_conflict (root : path) (file : string) : M unit :=
  try_catch
    (stats <- fs_lstatSync (Path.join root file) ;;
     if isDirectory stats
     then console_log ("  " ++ chalk E Blue (file ++ "/"))
     else console_log ("  " ++ file))
    (fun _ => console_log ("  " ++ file)).

Definition isSafeToCreateProjectIn (root : path) (name : string) : M bool :=
  files <- fs_readdirSync root ;;
  let conflicts := conflicts_of files in
  if (0 <? List.length conflicts)%nat
  then
    console_log ("The directory " ++ chalk E Green name
                   ++ " contains files that could conflict:") ;;
    console_log "" ;;
    forEach conflicts (report_conflict root) ;;
    console_log "" ;;
    console_log "Either try using a new directory name, or remove the files listed above." ;;
    ret false
  else
    files' <- fs_readdirSync root ;;
    forEach files' (fun file =>
      if isErrorLog file then fs_removeSync (Path.join root file) else ret tt) ;;
    ret true.

Definition cwd_prefix : string := "; cwd = ".

(** The output of the child is a string whenever the [try] block does not
    throw, so the test [typeof childOutput !== 'string'] never fires. *)
Definition checkThatNpmCanReadCwd : M bool :=
  cwd <- process_cwd ;;
  emit (Spawn "npm" ["config"; "list"] StdioPipe) ;;
  match npm_config_list E cwd with
  | None => ret true
  | Some childOutput =>
      let lines := Str.split Str.nl childOutput in
      match find (fun line => Str.startsWith line cwd_prefix) lines with
      | None => ret true
      | Some line =>
          let npmCWD := Str.drop (String.length cwd_prefix) line in
          if String.eqb npmCWD (Path.to_string cwd) then ret true
          else
            console_error
              (chalk E Red
                 ("Could not start an npm process in the right directory." ++ NL ++ NL
                    ++ "The current directory is: " ++ chalk E Bold (Path.to_string cwd) ++ NL
                    ++ "However, a newly started npm process runs in: "
                    ++ chalk E Bold npmCWD ++ NL ++ NL
                    ++ "This is probably caused by a misconfigured system terminal shell.")) ;;
            (if String.eqb (platform E) "win32"
             then
               console_error
                 (chalk E Red ("On Windows, this can usually be fixed by running:" ++ NL ++ NL)
                    ++ "  " ++ chalk E Cyan "reg" ++ " delete " ++ DQ
                    ++ "HKCU\Software\Microsoft\Command Processor" ++ DQ
                    ++ " /v AutoRun /f" ++ NL
                    ++ "  " ++ chalk E Cyan "reg" ++ " delete " ++ DQ
                    ++ "HKLM\Software\Microsoft\Command Processor" ++ DQ
                    ++ " /v AutoRun /f" ++ NL ++ NL
                    ++ chalk E Red ("Try to run the above two lines in the terminal." ++ NL)
                    ++ chalk E Red
                         "To learn more about this problem, read: https://blogs.msdn.microsoft.com/oldnewthing/20071121-00/?p=24433/")
             else ret tt) ;;
            ret false
      end
  end.

(** [JSON.stringify({ name, version: '0.1.0', private: true }, null, 2) + os.EOL] *)
Definition manifest (appName : string) : string :=
  "{" ++ NL
    ++ "  " ++ DQ ++ "name" ++ DQ ++ ": " ++ Str.json_string appName ++ "," ++ NL
    ++ "  " ++ DQ ++ "version" ++ DQ ++ ": " ++ DQ ++ "0.1.0" ++ DQ ++ "," ++ NL
    ++ "  " ++ DQ ++ "private" ++ DQ ++ ": true" ++ NL
    ++ "}" ++ NL.

(** Reading an identifier that no scope declares. *)
Definition undeclared_identifier (x : string) : M unit := throw (ReferenceError x).

(** [function createApp(name)].  Its last statement is the call
    [run(root, appName, version, originalDirectory)]; the script declares
    no [version], so evaluating the arguments throws before [run] is
    entered. *)
Definition createApp (name : string) : M unit :=
  cwd <- process_cwd ;;
  let root := Path.resolve cwd name in
  let appName := Path.basename root in
  checkAppName appName ;;
  fs_ensureDirSync (Path.resolve cwd name) ;;
  safe <- isSafeToCreateProjectIn root name ;;
  (if negb safe then process_exit 1 else ret tt) ;;
  console_log "" ;;
  console_log ("Creating a new app in " ++ chalk E Green (Path.to_string root) ++ ".") ;;
  console_log "" ;;
  fs_writeFileSync (Path.join root "package.json") (manifest appName) ;;
  originalDirectory <- process_cwd ;;
  process_chdir root ;;
  ok <- checkThatNpmCanReadCwd ;;
  (if negb ok then process_exit 1 else ret tt) ;;
  undeclared_identifier "version" ;;
  run root appName.

End Initializer.

(** ** The clone-and-install script

    The first script of [bin/cli.js]: it clones the template repository into
    the directory named by its first argument and installs the dependencies
    there, each through [execSync]. *)

Record shell : Type := {
  (** [execSync(command, { stdio: 'inherit' })] run in a directory on a file
      system: [None] when the call returns, the error it throws (as the
      console shows it) otherwise, and the file system that the command
      leaves. *)
  execSync : string -> path -> node -> option string * node;
  (** [util.format(message, e)]: what [console.error(message, e)] prints. *)
  console_format : string -> string -> string
}.

Section CloneScript.

Variable S : shell.

(** [execSync] and the [try] around it.  The command line is recorded as a
    spawned process without separate arguments. *)
Definition runCommand (command : string) : M bool :=
  emit (Spawn command [] StdioInherit) ;;
  thrown <- (fun w =>
               let (thrown, fs') := execSync S command (w_cwd w) (w_fs w) in
               (Ret thrown, World fs' (w_cwd w) (w_trace w))) ;;
  match thrown with
  | Some e =>
      console_error (console_format S ("failed to execute " ++ command) e) ;;
      ret false
  | None => ret true
  end.

(** [process.argv[2]] inside a template literal: a missing argument reads as
    [undefined]. *)
Definition interpolate (repoName : option string) : string :=
  match repoName with
  | Some s => s
  | None => "undefined"
  end.

Definition gitCheckoutCommand (repoName : option string) : string :=
  "git clone --depth 1 https://github.com/kinitroConsultoria/create-node-express-es6-app "
    ++ interpolate repoName.

Definition installDepsCommand (repoName : option string) : string :=
  "cd " ++ interpolate repoName ++ " && npm install".

(** The statements of the script, for [repoName = process.argv[2]]. *)
Definition cli (repoName : option string) : M unit :=
  console_log ("Clonning the repository with name " ++ interpolate repoName) ;;
  checkedOut <- runCommand (gitCheckoutCommand repoName) ;;
  (if negb checkedOut then process_exit 1 else ret tt) ;;
  console_log ("Installing dependencies for " ++ interpolate repoName) ;;
  installedDeps <- runCommand (installDepsCommand repoName) ;;
  (if negb installedDeps then process_exit 1 else ret tt) ;;
  console_log ("cd " ++ interpolate repoName ++ " && npm start").

End CloneScript.

(** ** Concrete environments and worlds for the examples *)

Module Sample.

(** Colours switched off, every name accepted by the naming policy, an
    [npm install] that fails with code 1 and changes nothing,
    [npm config list] unavailable. *)
Definition env : environment := {|
  chalk := fun _ s => s;
  validateProjectName := fun _ => Build_ValidationResult true None None;
  child_process := fun _ _ _ fs => (Some 1%Z, fs);
  npm_config_list := fun _ => None;
  platform := "linux"
|}.

(** The same with an [npm install] that succeeds and creates
    [node_modules] in the working directory. *)
Definition env_npm_ok : environment := {|
  chalk := fun _ s => s;
  validateProjectName := fun _ => Build_ValidationResult true None None;
  child_process := fun _ _ cwd fs =>
    (Some 0%Z, Fs.update_dir (fun es => es ++ [("node_modules", Dir [])])%list cwd fs);
  npm_config_list := fun _ => None;
  platform := "linux"
|}.

(** A naming policy that rejects every name with one error and one warning. *)
Definition env_strict : environment := {|
  chalk := fun _ s => s;
  validateProjectName := fun _ =>
    Build_ValidationResult false (Some ["name cannot start with a period"])
      (Some ["name can no longer contain capital letters"]);
  child_process := fun _ _ _ fs => (Some 1%Z, fs);
  npm_config_list := fun _ => None;
  platform := "linux"
|}.

Definition home : path := ["home"; "u"].

(** A machine with [/home/u] and an empty [/tmp], the process in [/home/u]. *)
Definition w_home : world :=
  World (Dir [("home", Dir [("u", Dir [])]); ("tmp", Dir [])]) home [].

Definition in_tmp_app (es : Fs.entries) : world :=
  World (Dir [("tmp", Dir [("app", Dir es)])]) ["tmp"; "app"] [].

(** [/tmp/app] holding only [.git] and [README.md]. *)
Definition w_git_readme : world :=
  in_tmp_app [(".git", Dir []); ("README.md", File "# app")].

(** [/tmp/app] holding [notes.txt]. *)
Definition w_notes : world := in_tmp_app [("notes.txt", File "todo")].

(** [/tmp/app] holding a stale log next to a user's file. *)
Definition w_log_and_notes : world :=
  in_tmp_app [("npm-debug.log", File "old"); ("notes.txt", File "todo")].

(** [/tmp/app] holding a stale log next to allow-listed entries. *)
Definition w_log_and_git : world :=
  in_tmp_app [("npm-debug.log", File "old"); (".git", Dir [])].

(** [/tmp/app] after a manifest write and a partial install, next to a
    user's file. *)
Definition w_generated_and_notes : world :=
  in_tmp_app [("package.json", File "{}"); ("notes.txt", File "todo");
              ("node_modules", Dir [("express", Dir [])])].

(** [/tmp/app] holding only what the initializer generated. *)
Definition w_generated : world :=
  in_tmp_app [("package.json", File "{}"); ("node_modules", Dir [])].

(** An [npm] that reports [/elsewhere] as its working directory, after a
    comment line and before a second, misleading line. *)
Definition env_wrong_cwd : environment := {|
  chalk := fun _ s => s;
  validateProjectName := fun _ => Build_ValidationResult true None None;
  child_process := fun _ _ _ fs => (Some 1%Z, fs);
  npm_config_list := fun _ =>
    Some (Str.join Str.NL ["; cli configs"; "; cwd = /elsewhere"; "; cwd = /tmp/app"]);
  platform := "linux"
|}.

(** An empty [/tmp], the process in [/tmp]. *)
Definition w_tmp : world := World (Dir [("tmp", Dir [])]) ["tmp"] [].

End Sample.

(** ** Vocabulary of the statements *)

(** The line that the report of the scan prints for a conflicting entry:
    a directory is printed with a trailing slash, in blue. *)
Definition conflict_line (E : environment) (root : path) (fs : node) (file : string) : event :=
  ConsoleLog
    match Fs.lookup (Path.join root file) fs with
    | Ok (Dir _) => "  " ++ chalk E Blue (file ++ "/")
    | _ => "  " ++ file
    end.

(** What the scan prints when it finds conflicts. *)
Definition conflict_report (E : environment) (root : path) (name : string) (fs : node)
    (conflicts : list string) : list event :=
  ([ConsoleLog ("The directory " ++ chalk E Green name ++ " contains files that could conflict:");
    ConsoleLog ""]
     ++ map (conflict_line E root fs) conflicts
     ++ [ConsoleLog "";
         ConsoleLog "Either try using a new directory name, or remove the files listed above."])%list.

(** A loop body that, run on an entry name of the directory [root], removes
    the entry when [sel] selects it, records [tr], and does nothing else. *)
Definition removes_selected (root : path) (sel : string -> bool) (tr : string -> list event)
    (body : string -> M unit) : Prop :=
  forall file w es,
    Fs.lookup root (w_fs w) = Ok (Dir es) ->
    body file w =
    (Ret tt,
     World (if sel file then Fs.update_dir (Fs.remove_name file) root (w_fs w) else w_fs w)
       (w_cwd w) (w_trace w ++ tr file)%list).

(** What the scan records when it meets the entry [file] on its clean path. *)
Definition log_removal (root : path) (file : string) : list event :=
  if isErrorLog file then [FsRemove (Path.join root file)] else [].

(** What the handler of [run] prints about the reason of the rejection. *)
Definition reason_lines (E : environment) (r : reason) : list event :=
  match reason_command r with
  | Some c => [ConsoleLog ("  " ++ chalk E Cyan c ++ " has failed.")]
  | None =>
      [ConsoleLog (chalk E Red "Unexpected error. Please report it as a bug:");
       ConsoleLogReason r]
  end.

(** What the handler of [run] records when it meets the entry [file]. *)
Definition rollback_removal (E : environment) (root : path) (file : string) : list event :=
  if Str.includes knownGeneratedFiles file
  then [ConsoleLog ("Deleting generated file... " ++ chalk E Cyan file);
        FsRemove (Path.join root file)]
  else [].

(** The entries that the handler of [run] leaves in the directory. *)
Definition kept_entries (es : Fs.entries) : Fs.entries :=
  filter (fun e => negb (Str.includes knownGeneratedFiles (fst e))) es.

(** What the handler of [run] records when it finds the directory empty. *)
Definition rollback_of_directory (E : environment) (root : path) (appName : string)
    : list event :=
  [ConsoleLog ("Deleting " ++ chalk E Cyan (appName ++ "/") ++ " from "
                 ++ chalk E Cyan (Path.to_string (Path.parent root)));
   Chdir (Path.parent root);
   FsRemove root].

(** What [checkAppName] prints for a name that the naming policy rejects. *)
Definition naming_report (E : environment) (appName : string) : list event :=
  let v := validateProjectName E appName in
  ([ConsoleError
      (chalk E Red ("Cannot create a project named "
                      ++ chalk E Green (Str.DQ ++ appName ++ Str.DQ)
                      ++ " because of npm naming restrictions:" ++ Str.NL))]
     ++ map (fun error => ConsoleError (chalk E Red ("  * " ++ error)))
          (or_empty (errors v) ++ or_empty (warnings v))
     ++ [ConsoleError (chalk E Red (Str.NL ++ "Please choose a different project name."))])%list.

(** The line that reports one violation of the naming policy. *)
Definition violation_line (E : environment) (message : string) : event :=
  ConsoleError (chalk E Red ("  * " ++ message)).

(** The report of the violations [messages] for the name [appName]: a
    header, one line for each message, in their order, and the request to
    choose another name. *)
Definition violations_report (E : environment) (appName : string)
    (messages : list string) : list event :=
  (ConsoleError
     (chalk E Red ("Cannot create a project named "
                     ++ chalk E Green (Str.DQ ++ appName ++ Str.DQ)
                     ++ " because of npm naming restrictions:" ++ Str.NL))
     :: map (violation_line E) messages
     ++ [ConsoleError (chalk E Red (Str.NL ++ "Please choose a different project name."))])%list.

(** What [checkAppName] prints for the name of a dependency. *)
Definition reserved_message (E : environment) (appName : string) : string :=
  chalk E Red ("Cannot create a project named "
                 ++ chalk E Green (Str.DQ ++ appName ++ Str.DQ)
                 ++ " because a dependency with the same name exists." ++ Str.NL
                 ++ "Due to the way npm works, the following names are not allowed:"
                 ++ Str.NL ++ Str.NL)
    ++ chalk E Cyan ("  express" ++ Str.NL ++ "  node-fetch")
    ++ chalk E Red (Str.NL ++ Str.NL ++ "Please choose a different project name.").

Definition name_rejected (E : environment) (appName : string) : bool :=
  negb (validForNewPackages (validateProjectName E appName))
  || Str.includes dependencies appName.

Definition name_report (E : environment) (appName : string) : list event :=
  if negb (validForNewPackages (validateProjectName E appName)) then naming_report E appName
  else if Str.includes dependencies appName then [ConsoleError (reserved_message E appName)]
  else [].

Definition is_console_error (e : event) : bool :=
  match e with
  | ConsoleError _ => true
  | _ => false
  end.

(** [a] occurs in the trace before [b]. *)
Definition precedes (a b : event) (tr : list event) : Prop :=
  exists l1 l2 l3, tr = (l1 ++ a :: l2 ++ b :: l3)%list.

(** What [createApp] prints between the scan and the manifest write. *)
Definition creating_lines (E : environment) (root : path) : list event :=
  [ConsoleLog "";
   ConsoleLog ("Creating a new app in " ++ chalk E Green (Path.to_string root) ++ ".");
   ConsoleLog ""].

(** A computation that spawns no process: the spawned processes of the
    trace are the same before and after, however the computation ends. *)
Definition spawns (tr : list event) : list event :=
  filter (fun e => match e with Spawn _ _ _ => true | _ => false end) tr.

Definition spawns_nothing {A : Type} (m : M A) : Prop :=
  forall w, spawns (w_trace (snd (m w))) = spawns (w_trace w).

(** A computation that never hands a value back: it ends the process or
    throws. *)
Definition never_returns {A : Type} (m : M A) : Prop :=
  forall w a, fst (m w) <> Ret a.

Definition is_console (e : event) : bool :=
  match e with
  | ConsoleLog _ | ConsoleError _ | ConsoleLogReason _ => true
  | _ => false
  end.

(** An event that changes the content of the directory [root]: a file
    written below it, an entry removed below it, or an [npm install] that
    the process started. *)
Definition is_prefix_of (root p : path) : bool :=
  (List.length root <=? List.length p)%nat
  && if list_eq_dec string_dec (firstn (List.length root) p) root then true else false.

Definition writes_into (root : path) (e : event) : bool :=
  match e with
  | FsWriteFile p _ => is_prefix_of root p
  | FsRemove p => is_prefix_of root p
  | Spawn _ ("install" :: _) _ => true
  | _ => false
  end.

(** Two paths that part ways: at the first component where they differ,
    neither has ended.  Neither is then below, above or equal to the other. *)
Fixpoint diverges (p q : path) : bool :=
  match p, q with
  | a :: p', b :: q' => if String.eqb a b then diverges p' q' else true
  | _, _ => false
  end.

(** A computation that, however it ends, leaves every path that diverges
    from [root] as it found it. *)
Definition confined {A : Type} (root : path) (m : M A) : Prop :=
  forall w q,
    diverges root q = true ->
    Fs.lookup q (w_fs (snd (m w))) = Fs.lookup q (w_fs w).

(** A computation that, however it ends, leaves the file system as it found
    it. *)
Definition keeps_fs {A : Type} (m : M A) : Prop :=
  forall w, w_fs (snd (m w)) = w_fs w.

(** The directory that [npm config list] reports for a process in [cwd]:
    what follows the prefix on the first line of its output that starts with
    [; cwd = ], when the output is there and has such a line. *)
Definition reported_cwd (E : environment) (cwd : path) : option string :=
  match npm_config_list E cwd with
  | None => None
  | Some childOutput =>
      match find (fun line => Str.startsWith line cwd_prefix) (Str.split Str.nl childOutput) with
      | None => None
      | Some line => Some (Str.drop (String.length cwd_prefix) line)
      end
  end.

(** Whether the character [c] occurs in [s]. *)
Fixpoint has_char (c : ascii) (s : string) : bool :=
  match s with
  | EmptyString => false
  | String a s' => Ascii.eqb a c || has_char c s'
  end.

(** A name that is one path component: not empty, not [.] or [..], and
    without a slash. *)
Definition plain_component (s : string) : bool :=
  negb (String.eqb s "") && negb (String.eqb s ".") && negb (String.eqb s "..")
  && negb (has_char "/" s).

(** * Properties *)

Unset Implicit Arguments.

(** ** Strings *)

#[local] Arguments String.eqb : simpl never.

Lemma startsWith_app (p rest : string) : Str.startsWith (p ++ rest) p = true.
Proof.
  unfold Str.startsWith.
  induction p as [|c p IH]; simpl.
  - destruct rest; reflexivity.
  - destruct (ascii_dec c c) as [_|ne]; [exact IH | now elim ne].
Qed.

Lemma startsWith_inv (file p : string) :
  Str.startsWith file p = true -> exists rest, file = p ++ rest.
Proof.
  unfold Str.startsWith.
  revert file.
  induction p as [|c p IH]; intros file H.
  - now exists file.
  - destruct file as [|d file]; simpl in H; [discriminate|].
    destruct (ascii_dec c d) as [->|_]; [|discriminate].
    destruct (IH _ H) as [rest ->].
    now exists rest.
Qed.

Lemma test_literal_at_end_app (lit stem : string) :
  Str.test_literal_at_end lit (stem ++ lit) = true.
Proof.
  induction stem as [|c stem IH]; simpl.
  - destruct lit; simpl; [reflexivity | rewrite String.eqb_refl; reflexivity].
  - rewrite IH. apply orb_true_r.
Qed.

Lemma test_literal_at_end_inv (lit s : string) :
  Str.test_literal_at_end lit s = true -> exists stem, s = stem ++ lit.
Proof.
  induction s as [|c s IH]; simpl; intros H.
  - rewrite orb_false_r in H. apply String.eqb_eq in H. now exists "".
  - apply orb_true_iff in H. destruct H as [H|H].
    + apply String.eqb_eq in H. now exists "".
    + destruct (IH H) as [stem ->]. now exists (String c stem).
Qed.

Lemma includes_In (l : list string) (x : string) :
  Str.includes l x = true <-> In x l.
Proof.
  unfold Str.includes. rewrite existsb_exists. split.
  - intros [y [Hy Heq]]. apply String.eqb_eq in Heq. now subst.
  - intros H. exists x. split; [assumption | apply String.eqb_refl].
Qed.

Lemma isErrorLog_true (file : string) :
  isErrorLog file = true <->
  exists pattern rest, In pattern errorLogFilePatterns /\ file = pattern ++ rest.
Proof.
  unfold isErrorLog. rewrite existsb_exists. split.
  - intros [p [Hp H]]. destruct (startsWith_inv _ _ H) as [rest ->]. eauto.
  - intros [p [rest [Hp ->]]]. exists p. split; [assumption | apply startsWith_app].
Qed.

Lemma conflicts_of_In (files : list string) (file : string) :
  In file (conflicts_of files) <->
  In file files /\ Str.includes validFiles file = false
  /\ Str.test_literal_at_end ".iml" file = false /\ isErrorLog file = false.
Proof.
  unfold conflicts_of. rewrite !filter_In, !negb_true_iff. tauto.
Qed.

Lemma conflicts_of_filter (keep : string -> bool) (files : list string) :
  conflicts_of files = [] -> conflicts_of (filter keep files) = [].
Proof.
  intros H.
  destruct (conflicts_of (filter keep files)) as [|file rest] eqn:Hc; [reflexivity|].
  assert (Hin : In file (conflicts_of (filter keep files))) by (rewrite Hc; now left).
  apply conflicts_of_In in Hin. destruct Hin as [Hin Hrest].
  apply filter_In in Hin. destruct Hin as [Hin _].
  assert (Hin' : In file (conflicts_of files)) by (apply conflicts_of_In; tauto).
  rewrite H in Hin'. destruct Hin'.
Qed.

Lemma validFiles_not_error_log (file : string) :
  In file validFiles -> isErrorLog file = false.
Proof.
  unfold validFiles. simpl. intros H.
  repeat (destruct H as [<-|H]; [reflexivity|]). destruct H.
Qed.

(** ** The file system *)

Module FsFacts.
Import Fs.
#[local] Open Scope list_scope.

Lemma assoc_replace (x : string) (c c' : node) (es : entries) :
  assoc x es = Some c -> assoc x (replace x c' es) = Some c'.
Proof.
  induction es as [|[y m] es IH]; simpl; [discriminate|].
  destruct (String.eqb x y) eqn:Hxy; simpl; rewrite Hxy; auto.
Qed.

Lemma replace_replace (x : string) (c1 c2 : node) (es : entries) :
  replace x c2 (replace x c1 es) = replace x c2 es.
Proof.
  induction es as [|[y m] es IH]; simpl; [reflexivity|].
  destruct (String.eqb x y) eqn:Hxy; simpl; rewrite Hxy; [reflexivity|].
  now rewrite IH.
Qed.

Lemma replace_same (x : string) (c : node) (es : entries) :
  assoc x es = Some c -> replace x c es = es.
Proof.
  induction es as [|[y m] es IH]; simpl; [reflexivity|].
  destruct (String.eqb x y) eqn:Hxy.
  - intros [= ->]. reflexivity.
  - intros H. now rewrite IH.
Qed.

Lemma remove_name_replace (x : string) (c : node) (es : entries) :
  remove_name x (replace x c es) = remove_name x es.
Proof.
  unfold remove_name.
  induction es as [|[y m] es IH]; simpl; [reflexivity|].
  destruct (String.eqb x y) eqn:Hxy; simpl.
  - rewrite String.eqb_sym, Hxy. reflexivity.
  - now rewrite IH.
Qed.

Lemma assoc_remove_name (x : string) (es : entries) :
  assoc x (remove_name x es) = None.
Proof.
  unfold remove_name.
  induction es as [|[y m] es IH]; simpl; [reflexivity|].
  destruct (String.eqb y x) eqn:Hyx; simpl; [assumption|].
  rewrite String.eqb_sym, Hyx. assumption.
Qed.

Lemma assoc_app_new (x : string) (c : node) (es : entries) :
  assoc x es = None -> assoc x (es ++ [(x, c)]) = Some c.
Proof.
  induction es as [|[y m] es IH]; simpl.
  - now rewrite String.eqb_refl.
  - destruct (String.eqb x y); [discriminate | assumption].
Qed.

Lemma assoc_In_names (x : string) (c : node) (es : entries) :
  assoc x es = Some c -> In x (names es).
Proof.
  induction es as [|[y m] es IH]; simpl; [discriminate|].
  destruct (String.eqb_spec x y) as [->|_]; [now left | right; auto].
Qed.

Lemma names_filter (keep : string -> bool) (es : entries) :
  names (filter (fun e => keep (fst e)) es) = filter keep (names es).
Proof.
  unfold names.
  induction es as [|[y m] es IH]; simpl; [reflexivity|].
  destruct (keep y); simpl; now rewrite IH.
Qed.

Lemma lookup_app (p q : path) (n : node) :
  lookup (p ++ q) n =
  match lookup p n with
  | Ok m => lookup q m
  | Err e => Err e
  end.
Proof.
  revert n. induction p as [|x p IH]; intros n; simpl; [reflexivity|].
  destruct n as [|es]; [reflexivity|].
  destruct (assoc x es); [apply IH | reflexivity].
Qed.

Lemma lookup_parent (d : path) (x : string) (n c : node) :
  lookup (d ++ [x]) n = Ok c -> exists es, lookup d n = Ok (Dir es).
Proof.
  rewrite lookup_app. destruct (lookup d n) as [[s|es]|e]; try discriminate. eauto.
Qed.

Lemma split_last_snoc (p : path) (x : string) :
  split_last (p ++ [x]) = Some (p, x).
Proof.
  unfold split_last.
  destruct (p ++ [x]) eqn:H; [now destruct p|].
  rewrite <- H, removelast_last, last_last. reflexivity.
Qed.

Lemma alter_dir_lookup (f : entries -> entries) (p : path) (n : node) (es : entries) :
  lookup p n = Ok (Dir es) ->
  alter_dir f p n = Ok (update_dir f p n)
  /\ lookup p (update_dir f p n) = Ok (Dir (f es)).
Proof.
  unfold update_dir.
  revert n. induction p as [|x p IH]; intros n H.
  - simpl in H. injection H as ->. simpl. auto.
  - destruct n as [|es0]; simpl in H; [discriminate|].
    simpl. destruct (assoc x es0) as [c|] eqn:Hx; [|discriminate].
    destruct (IH c H) as [Ha Hl].
    destruct (alter_dir f p c) as [c'|]; [|discriminate].
    split; [reflexivity|].
    simpl. rewrite (assoc_replace _ _ _ _ Hx). exact Hl.
Qed.

Lemma alter_dir_compose (f g : entries -> entries) (p : path) (n n1 : node) :
  alter_dir f p n = Ok n1 ->
  alter_dir g p n1 = alter_dir (fun es => g (f es)) p n.
Proof.
  revert n n1. induction p as [|x p IH]; intros n n1 H.
  - destruct n as [|es]; simpl in H; [discriminate|]. injection H as <-. reflexivity.
  - destruct n as [|es]; simpl in H; [discriminate|].
    destruct (assoc x es) as [c|] eqn:Hx; [|discriminate].
    destruct (alter_dir f p c) as [c'|] eqn:Hc; [|discriminate].
    injection H as <-. simpl.
    rewrite (assoc_replace _ _ _ _ Hx), Hx, (IH _ _ Hc).
    destruct (alter_dir (fun es0 => g (f es0)) p c); [|reflexivity].
    now rewrite replace_replace.
Qed.

Lemma alter_dir_ext (f g : entries -> entries) (p : path) (n : node) :
  (forall es, f es = g es) -> alter_dir f p n = alter_dir g p n.
Proof.
  intros Hfg. revert n. induction p as [|x p IH]; intros n.
  - destruct n; simpl; [reflexivity | now rewrite Hfg].
  - destruct n as [|es]; simpl; [reflexivity|].
    destruct (assoc x es); [now rewrite IH | reflexivity].
Qed.

Lemma alter_dir_at (f g : entries -> entries) (p : path) (n : node) (es : entries) :
  lookup p n = Ok (Dir es) -> f es = g es -> alter_dir f p n = alter_dir g p n.
Proof.
  intros Hl Hfg. revert n Hl. induction p as [|x p IH]; intros n Hl.
  - simpl in Hl. injection Hl as ->. simpl. now rewrite Hfg.
  - destruct n as [|es0]; simpl in Hl; [discriminate|]. simpl.
    destruct (assoc x es0); [now rewrite IH | reflexivity].
Qed.

Lemma alter_dir_id (p : path) (n : node) (es : entries) :
  lookup p n = Ok (Dir es) -> alter_dir (fun es => es) p n = Ok n.
Proof.
  revert n. induction p as [|x p IH]; intros n Hl.
  - simpl in Hl. injection Hl as ->. reflexivity.
  - destruct n as [|es0]; simpl in Hl; [discriminate|]. simpl.
    destruct (assoc x es0) as [c|] eqn:Hx; [|discriminate].
    rewrite (IH _ Hl), (replace_same _ _ _ Hx). reflexivity.
Qed.

Lemma update_dir_compose (f g : entries -> entries) (p : path) (n : node) (es : entries) :
  lookup p n = Ok (Dir es) ->
  update_dir g p (update_dir f p n) = update_dir (fun es => g (f es)) p n.
Proof.
  intros Hl. destruct (alter_dir_lookup f _ _ _ Hl) as [Ha _].
  destruct (alter_dir_lookup (fun es => g (f es)) _ _ _ Hl) as [Hb _].
  unfold update_dir at 1. rewrite (alter_dir_compose _ g _ _ _ Ha), Hb. reflexivity.
Qed.

Lemma update_dir_ext (f g : entries -> entries) (p : path) (n : node) :
  (forall es, f es = g es) -> update_dir f p n = update_dir g p n.
Proof.
  intros H. unfold update_dir. now rewrite (alter_dir_ext f g p n H).
Qed.

Lemma update_dir_at (f g : entries -> entries) (p : path) (n : node) (es : entries) :
  lookup p n = Ok (Dir es) -> f es = g es -> update_dir f p n = update_dir g p n.
Proof.
  intros Hl H. unfold update_dir. now rewrite (alter_dir_at f g _ _ _ Hl H).
Qed.

Lemma update_dir_id (p : path) (n : node) (es : entries) :
  lookup p n = Ok (Dir es) -> update_dir (fun es => es) p n = n.
Proof.
  intros Hl. unfold update_dir. now rewrite (alter_dir_id _ _ _ Hl).
Qed.

Lemma remove_entry (p : path) (x : string) (n : node) (es : entries) :
  lookup p n = Ok (Dir es) ->
  remove (p ++ [x]) n = Ok (update_dir (remove_name x) p n).
Proof.
  intros Hl. unfold remove. rewrite split_last_snoc, Hl.
  apply (alter_dir_lookup _ _ _ _ Hl).
Qed.

(** Emptying or filtering a directory and then removing it from its parent
    is removing it from its parent. *)
Lemma alter_child_then_remove (f : entries -> entries) (d : path) (x : string)
    (n n1 : node) :
  alter_dir f (d ++ [x]) n = Ok n1 ->
  alter_dir (remove_name x) d n1 = alter_dir (remove_name x) d n.
Proof.
  revert n n1. induction d as [|y d IH]; intros n n1 H.
  - destruct n as [|es]; simpl in H; [discriminate|].
    destruct (assoc x es) as [[|esc]|]; try discriminate.
    injection H as <-. simpl. now rewrite remove_name_replace.
  - destruct n as [|es]; simpl in H; [discriminate|].
    destruct (assoc y es) as [c|] eqn:Hy; [|discriminate].
    destruct (alter_dir f (d ++ [x]) c) as [c'|] eqn:Hc; [|discriminate].
    injection H as <-. simpl.
    rewrite (assoc_replace _ _ _ _ Hy), Hy, (IH _ _ Hc).
    destruct (alter_dir (remove_name x) d c); [|reflexivity].
    now rewrite replace_replace.
Qed.

Lemma lookup_removed (d : path) (x : string) (n : node) (es : entries) :
  lookup d n = Ok (Dir es) ->
  lookup (d ++ [x]) (update_dir (remove_name x) d n) = Err ENOENT.
Proof.
  intros Hl. destruct (alter_dir_lookup (remove_name x) _ _ _ Hl) as [_ Hl'].
  rewrite lookup_app, Hl'. simpl. now rewrite assoc_remove_name.
Qed.

Lemma mkdirp_lookup (p : path) (n n' : node) :
  mkdirp p n = Ok n' -> exists es, lookup p n' = Ok (Dir es).
Proof.
  revert n n'. induction p as [|x p IH]; intros n n' H.
  - destruct n as [|es]; simpl in H; [discriminate|]. injection H as <-. now exists es.
  - destruct n as [|es]; simpl in H; [discriminate|].
    destruct (assoc x es) as [c|] eqn:Hx.
    + destruct (mkdirp p c) as [c'|] eqn:Hc; [|discriminate].
      injection H as <-. simpl. rewrite (assoc_replace _ _ _ _ Hx). eauto.
    + destruct (mkdirp p (Dir [])) as [c'|] eqn:Hc; [|discriminate].
      injection H as <-. simpl. rewrite (assoc_app_new _ _ _ Hx). eauto.
Qed.

Lemma remove_all_filter (l : list string) (es : entries) :
  remove_all l es = filter (fun e => negb (Str.includes l (fst e))) es.
Proof.
  unfold remove_all. revert es. induction l as [|x l IH]; intros es; simpl.
  - induction es as [|e es IHes]; simpl; [reflexivity | now rewrite <- IHes].
  - rewrite IH. unfold remove_name.
    induction es as [|e es IHes]; simpl; [reflexivity|].
    destruct (String.eqb (fst e) x); simpl; [assumption|].
    destruct (Str.includes l (fst e)); simpl; [assumption | now rewrite IHes].
Qed.

(** Removing from a directory every listed name that satisfies [sel]
    leaves the entries that do not satisfy it. *)
Lemma remove_all_selected (sel : string -> bool) (es : entries) :
  remove_all (filter sel (names es)) es = filter (fun e => negb (sel (fst e))) es.
Proof.
  rewrite remove_all_filter. apply filter_ext_in. intros e He. f_equal.
  destruct (sel (fst e)) eqn:Hs.
  - apply includes_In, filter_In. split; [|assumption].
    unfold names. now apply in_map.
  - destruct (Str.includes (filter sel (names es)) (fst e)) eqn:Hi; [|reflexivity].
    apply includes_In, filter_In in Hi. destruct Hi as [_ Hi]. congruence.
Qed.

End FsFacts.

(** ** The monad *)

Lemma bind_Ret {A B : Type} (m : M A) (k : A -> M B) (w w1 : world) (a : A) :
  m w = (Ret a, w1) -> bind m k w = k a w1.
Proof. intros H. unfold bind. now rewrite H. Qed.

Lemma bind_Exit {A B : Type} (m : M A) (k : A -> M B) (w w1 : world) (c : Z) :
  m w = (Exit c, w1) -> bind m k w = (Exit c, w1).
Proof. intros H. unfold bind. now rewrite H. Qed.

Lemma bind_Throw {A B : Type} (m : M A) (k : A -> M B) (w w1 : world) (e : js_error) :
  m w = (Throw e, w1) -> bind m k w = (Throw e, w1).
Proof. intros H. unfold bind. now rewrite H. Qed.

Lemma world_eta (w : world) : World (w_fs w) (w_cwd w) (w_trace w) = w.
Proof. now destruct w. Qed.

Lemma readdir_dir (p : path) (w : world) (es : Fs.entries) :
  Fs.lookup p (w_fs w) = Ok (Dir es) -> fs_readdirSync p w = (Ret (Fs.names es), w).
Proof. intros H. unfold fs_readdirSync. now rewrite H. Qed.

Lemma removeSync_entry (root : path) (x : string) (w : world) (es : Fs.entries) :
  Fs.lookup root (w_fs w) = Ok (Dir es) ->
  fs_removeSync (Path.join root x) w =
  (Ret tt,
   World (Fs.update_dir (Fs.remove_name x) root (w_fs w)) (w_cwd w)
     (w_trace w ++ [FsRemove (Path.join root x)])%list).
Proof.
  intros H. unfold fs_removeSync, lift_fs, Path.join.
  now rewrite (FsFacts.remove_entry _ _ _ _ H).
Qed.

Lemma forEach_removes_selected (root : path) (sel : string -> bool)
    (tr : string -> list event) (body : string -> M unit) :
  removes_selected root sel tr body ->
  forall (l : list string) (w : world) (es : Fs.entries),
    Fs.lookup root (w_fs w) = Ok (Dir es) ->
    forEach l body w =
    (Ret tt,
     World (Fs.update_dir (Fs.remove_all (filter sel l)) root (w_fs w)) (w_cwd w)
       (w_trace w ++ flat_map tr l)%list).
Proof.
  intros Hbody l. induction l as [|x l IH]; intros w es Hl.
  - simpl. unfold ret.
    rewrite (FsFacts.update_dir_at (Fs.remove_all []) (fun es => es) _ _ _ Hl eq_refl).
    rewrite (FsFacts.update_dir_id _ _ _ Hl), app_nil_r, world_eta. reflexivity.
  - simpl forEach. rewrite (bind_Ret _ _ _ _ _ (Hbody x w es Hl)).
    destruct (sel x) eqn:Hx.
    + destruct (FsFacts.alter_dir_lookup (Fs.remove_name x) _ _ _ Hl) as [_ Hl'].
      rewrite (IH (World _ _ _) _ Hl'). simpl. rewrite Hx.
      rewrite (FsFacts.update_dir_compose _ _ _ _ _ Hl), <- app_assoc.
      reflexivity.
    + rewrite (IH (World _ _ _) _ Hl). simpl. rewrite Hx, <- app_assoc. reflexivity.
Qed.

(** ** The directory-safety scan *)

Section ScanFacts.

Variable E : environment.

Lemma report_conflict_line (root : path) (file : string) (w : world) :
  report_conflict E root file w =
  (Ret tt, World (w_fs w) (w_cwd w) (w_trace w ++ [conflict_line E root (w_fs w) file])%list).
Proof.
  unfold report_conflict, try_catch, bind, fs_lstatSync, conflict_line.
  destruct (Fs.lookup (Path.join root file) (w_fs w)) as [[c|es]|e]; reflexivity.
Qed.

Lemma forEach_report (root : path) (l : list string) (w : world) :
  forEach l (report_conflict E root) w =
  (Ret tt,
   World (w_fs w) (w_cwd w) (w_trace w ++ map (conflict_line E root (w_fs w)) l)%list).
Proof.
  revert w. induction l as [|x l IH]; intros w.
  - simpl. unfold ret. now rewrite app_nil_r, world_eta.
  - simpl forEach. rewrite (bind_Ret _ _ _ _ _ (report_conflict_line root x w)).
    rewrite IH. simpl. now rewrite <- app_assoc.
Qed.

(** The scan on a directory with conflicts: the report, [false], and an
    untouched file system. *)
Lemma scan_unsafe (root : path) (name : string) (w : world) (es : Fs.entries) :
  Fs.lookup root (w_fs w) = Ok (Dir es) ->
  conflicts_of (Fs.names es) <> [] ->
  isSafeToCreateProjectIn E root name w =
  (Ret false,
   World (w_fs w) (w_cwd w)
     (w_trace w ++ conflict_report E root name (w_fs w) (conflicts_of (Fs.names es)))%list).
Proof.
  intros Hl Hc. unfold isSafeToCreateProjectIn.
  rewrite (bind_Ret _ _ _ _ _ (readdir_dir _ _ _ Hl)).
  destruct (conflicts_of (Fs.names es)) as [|c cs] eqn:Hcs; [now elim Hc|].
  change (0 <? List.length (c :: cs))%nat with true. cbv iota.
  unfold bind at 1. unfold console_log at 1. unfold emit at 1.
  unfold bind at 1. unfold console_log at 1. unfold emit at 1.
  unfold bind at 1. rewrite forEach_report.
  unfold bind, console_log, emit, ret, conflict_report. simpl.
  rewrite <- !app_assoc. reflexivity.
Qed.

Lemma scan_loop_removes (root : path) :
  removes_selected root isErrorLog (log_removal root)
    (fun file => if isErrorLog file then fs_removeSync (Path.join root file) else ret tt).
Proof.
  intros file w es Hl. unfold log_removal. destruct (isErrorLog file).
  - apply (removeSync_entry _ _ _ _ Hl).
  - unfold ret. now rewrite app_nil_r, world_eta.
Qed.

(** The scan on a directory without conflicts: [true], and the stale logs
    removed. *)
Lemma scan_safe (root : path) (name : string) (w : world) (es : Fs.entries) :
  Fs.lookup root (w_fs w) = Ok (Dir es) ->
  conflicts_of (Fs.names es) = [] ->
  isSafeToCreateProjectIn E root name w =
  (Ret true,
   World (Fs.update_dir (filter (fun e => negb (isErrorLog (fst e)))) root (w_fs w))
     (w_cwd w)
     (w_trace w ++ flat_map (log_removal root) (Fs.names es))%list).
Proof.
  intros Hl Hc. unfold isSafeToCreateProjectIn.
  rewrite (bind_Ret _ _ _ _ _ (readdir_dir _ _ _ Hl)), Hc.
  change (0 <? List.length (@nil string))%nat with false. cbv iota.
  rewrite (bind_Ret _ _ _ _ _ (readdir_dir _ _ _ Hl)).
  rewrite (bind_Ret _ _ _ _ _
             (forEach_removes_selected _ _ _ _ (scan_loop_removes root) _ _ _ Hl)).
  unfold ret. f_equal. f_equal.
  apply (FsFacts.update_dir_at _ _ _ _ _ Hl).
  apply FsFacts.remove_all_selected.
Qed.

End ScanFacts.

Lemma conflict_report_console (E : environment) (root : path) (name : string) (fs : node)
    (conflicts : list string) :
  forallb is_console (conflict_report E root name fs conflicts) = true.
Proof.
  unfold conflict_report. rewrite !forallb_app. simpl.
  rewrite andb_true_r. induction conflicts as [|c cs IH]; simpl; auto.
Qed.

(** The three ways in which the scan ends. *)
Lemma scan_cases (E : environment) (root : path) (name : string) (w : world) :
  (exists e, isSafeToCreateProjectIn E root name w = (Throw e, w)
             /\ forall es, Fs.lookup root (w_fs w) <> Ok (Dir es))
  \/ (exists es, Fs.lookup root (w_fs w) = Ok (Dir es)
                 /\ conflicts_of (Fs.names es) <> []
                 /\ isSafeToCreateProjectIn E root name w =
                    (Ret false,
                     World (w_fs w) (w_cwd w)
                       (w_trace w
                          ++ conflict_report E root name (w_fs w) (conflicts_of (Fs.names es)))%list))
  \/ (exists es, Fs.lookup root (w_fs w) = Ok (Dir es)
                 /\ conflicts_of (Fs.names es) = []
                 /\ isSafeToCreateProjectIn E root name w =
                    (Ret true,
                     World (Fs.update_dir (filter (fun e => negb (isErrorLog (fst e)))) root (w_fs w))
                       (w_cwd w)
                       (w_trace w ++ flat_map (log_removal root) (Fs.names es))%list)).
Proof.
  destruct (Fs.lookup root (w_fs w)) as [[c|es]|e] eqn:Hl.
  - left. eexists. split; [|discriminate].
    unfold isSafeToCreateProjectIn, bind, fs_readdirSync. rewrite Hl. reflexivity.
  - right.
    assert (Hc : conflicts_of (Fs.names es) = [] \/ conflicts_of (Fs.names es) <> [])
      by (destruct (conflicts_of (Fs.names es)); [now left | now right]).
    destruct Hc as [Hc|Hc].
    + right. exists es. repeat split; auto. now apply scan_safe.
    + left. exists es. repeat split; auto. now apply scan_unsafe.
  - left. eexists. split; [|discriminate].
    unfold isSafeToCreateProjectIn, bind, fs_readdirSync. rewrite Hl. reflexivity.
Qed.

Lemma flat_map_log_removal_nil (root : path) (l : list string) :
  (forall file, In file l -> isErrorLog file = false) ->
  flat_map (log_removal root) l = [].
Proof.
  induction l as [|x l IH]; intros Hx; [reflexivity|]. simpl.
  unfold log_removal at 1. rewrite (Hx x (or_introl eq_refl)). simpl.
  apply IH. intros file Hf. apply Hx. now right.
Qed.

Lemma filter_without_logs (es : Fs.entries) :
  (forall file, In file (Fs.names es) -> isErrorLog file = false) ->
  filter (fun e => negb (isErrorLog (fst e))) es = es.
Proof.
  induction es as [|[x n] es IH]; intros Hx; [reflexivity|]. simpl.
  rewrite (Hx x) by now left. simpl. f_equal.
  apply IH. intros file Hf. apply Hx. now right.
Qed.

(** The scan of a directory that holds neither conflicts nor stale logs
    returns [true] and is silent. *)
Lemma scan_safe_without_logs (E : environment) (root : path) (name : string) (w : world)
    (es : Fs.entries) :
  Fs.lookup root (w_fs w) = Ok (Dir es) ->
  conflicts_of (Fs.names es) = [] ->
  (forall file, In file (Fs.names es) -> isErrorLog file = false) ->
  isSafeToCreateProjectIn E root name w = (Ret true, w).
Proof.
  intros Hl Hc Hlogs.
  rewrite (scan_safe E _ name _ _ Hl Hc), (flat_map_log_removal_nil _ _ Hlogs).
  rewrite (FsFacts.update_dir_at _ (fun es => es) _ _ _ Hl (filter_without_logs _ Hlogs)).
  now rewrite (FsFacts.update_dir_id _ _ _ Hl), app_nil_r, world_eta.
Qed.

(** The stale-log names are the names that start with one of the three
    prefixes. *)
Lemma isErrorLog_prefixes (file : string) :
  isErrorLog file = true <->
  exists rest,
    file = "npm-debug.log" ++ rest
    \/ file = "yarn-error.log" ++ rest
    \/ file = "yarn-debug.log" ++ rest.
Proof.
  rewrite isErrorLog_true. split.
  - intros (pattern & rest & Hp & ->). exists rest.
    destruct Hp as [ <- | [ <- | [ <- | [] ] ] ]; auto.
  - intros (rest & [ -> | [ -> | -> ] ]); eexists; exists rest; (split; [|reflexivity]);
      simpl; auto.
Qed.

(** C10. The exemptions of the scan are patterns: an entry is reported as a
    conflict exactly when its name is not literally one of the sixteen
    allow-listed names, does not end in [.iml], and does not start with
    [npm-debug.log], [yarn-error.log] or [yarn-debug.log].  Names ending in
    [.iml] are never conflicts; the stale logs are exactly the names that
    start with one of these three prefixes, as [npm-debug.log.1], and they
    are never conflicts; the match against the allow-list is exact and
    case-sensitive, so [readme.md] and [.GIT] are conflicts.  The scan
    returns [false] exactly when the listing of the directory has such a
    conflict. *)
Theorem conflicts_are_pattern_based (files : list string) (file : string) :
  (In file (conflicts_of files) <->
   In file files
   /\ ~ In file
          [ ".DS_Store"; ".git"; ".gitattributes"; ".gitignore"; ".gitlab-ci.yml";
            ".hg"; ".hgcheck"; ".hgignore"; ".idea"; ".npmignore"; ".travis.yml";
            "docs"; "LICENSE"; "README.md"; "mkdocs.yml"; "Thumbs.db" ]
   /\ (forall stem, file <> stem ++ ".iml")
   /\ (forall rest, file <> "npm-debug.log" ++ rest)
   /\ (forall rest, file <> "yarn-error.log" ++ rest)
   /\ (forall rest, file <> "yarn-debug.log" ++ rest))
  /\ (forall stem, ~ In (stem ++ ".iml") (conflicts_of files))
  /\ (isErrorLog file = true <->
      exists rest,
        file = "npm-debug.log" ++ rest
        \/ file = "yarn-error.log" ++ rest
        \/ file = "yarn-debug.log" ++ rest)
  /\ (forall pattern rest,
        pattern = "npm-debug.log" \/ pattern = "yarn-error.log" \/ pattern = "yarn-debug.log" ->
        isErrorLog (pattern ++ rest) = true /\ ~ In (pattern ++ rest) (conflicts_of files))
  /\ conflicts_of
       ["README.md"; "readme.md"; ".git"; ".GIT"; "app.iml"; "app.IML";
        "npm-debug.log"; "npm-debug.log.1"; "NPM-debug.log"; "my-npm-debug.log";
        "yarn-error.log"; "yarn-error.log.2"; "yarn-debug.log"; "yarn-debug.log.old";
        "yarn.lock"; "yarn-error"; "docs"; "docs2"]
     = ["readme.md"; ".GIT"; "app.IML"; "NPM-debug.log"; "my-npm-debug.log";
        "yarn.lock"; "yarn-error"; "docs2"]
  /\ (forall E root name w,
        fst (isSafeToCreateProjectIn E root name w) = Ret false <->
        conflicts_of (Fs.listing root (w_fs w)) <> []).
Proof.
  split; [|split; [|split; [|split; [|split]]]].
  - rewrite conflicts_of_In. split.
    + intros (Hin & Hv & Hi & Hl). split; [assumption|]. split; [|split].
      * intros H. apply (includes_In validFiles) in H. congruence.
      * intros stem ->. now rewrite test_literal_at_end_app in Hi.
      * assert (Hno : forall rest,
                   ~ (file = "npm-debug.log" ++ rest
                      \/ file = "yarn-error.log" ++ rest
                      \/ file = "yarn-debug.log" ++ rest)).
        { intros rest H.
          assert (isErrorLog file = true) by (apply isErrorLog_prefixes; eauto).
          congruence. }
        split; [|split]; intros rest H; apply (Hno rest); auto.
    + intros (Hin & Hv & Hi & Hn & Hy & Hd). split; [assumption|]. split; [|split].
      * destruct (Str.includes validFiles file) eqn:H; [|reflexivity].
        apply includes_In in H. contradiction.
      * destruct (Str.test_literal_at_end ".iml" file) eqn:H; [|reflexivity].
        apply test_literal_at_end_inv in H. destruct H as [stem ->]. now elim (Hi stem).
      * destruct (isErrorLog file) eqn:H; [|reflexivity].
        apply isErrorLog_prefixes in H. destruct H as (rest & [H|[H|H]]).
        -- now elim (Hn rest).
        -- now elim (Hy rest).
        -- now elim (Hd rest).
  - intros stem H. apply conflicts_of_In in H. destruct H as (_ & _ & H & _).
    now rewrite test_literal_at_end_app in H.
  - apply isErrorLog_prefixes.
  - intros pattern rest Hp.
    assert (Hlog : isErrorLog (pattern ++ rest) = true).
    { apply isErrorLog_prefixes. exists rest. destruct Hp as [ -> | [ -> | -> ] ]; auto. }
    split; [assumption|].
    intros H. apply conflicts_of_In in H. destruct H as (_ & _ & _ & H). congruence.
  - reflexivity.
  - intros E root name w. unfold Fs.listing.
    destruct (scan_cases E root name w)
      as [(e & He & Hn)|[(es & Hl & Hc & He)|(es & Hl & Hc & He)]]; rewrite He; simpl.
    + split; [discriminate|].
      destruct (Fs.lookup root (w_fs w)) as [[c|es]|e']; try (intros H; now elim H).
      now elim (Hn es).
    + rewrite Hl. tauto.
    + rewrite Hl, Hc. split; [discriminate | intros H; now elim H].
Qed.

(** C3. A directory whose entries are all on the allow-list passes the scan:
    no conflict, result [true], nothing changed.  A directory that holds a
    file [notes.txt] fails it: result [false], nothing changed, and the
    report lists [notes.txt] on a line of its own, printed as a file (no
    trailing slash). *)
Theorem scan_allow_listed_directory (E : environment) (root : path) (name : string)
    (w : world) (es : Fs.entries) :
  Fs.lookup root (w_fs w) = Ok (Dir es) ->
  ((forall file, In file (Fs.names es) -> In file validFiles) ->
   conflicts_of (Fs.names es) = []
   /\ isSafeToCreateProjectIn E root name w = (Ret true, w))
  /\ (forall content,
        Fs.assoc "notes.txt" es = Some (File content) ->
        isSafeToCreateProjectIn E root name w =
        (Ret false,
         World (w_fs w) (w_cwd w)
           (w_trace w ++ conflict_report E root name (w_fs w) (conflicts_of (Fs.names es)))%list)
        /\ In "notes.txt" (conflicts_of (Fs.names es))
        /\ conflict_line E root (w_fs w) "notes.txt" = ConsoleLog "  notes.txt").
Proof.
  intros Hl. split.
  - intros Hall.
    assert (Hc : conflicts_of (Fs.names es) = []).
    { destruct (conflicts_of (Fs.names es)) as [|c cs] eqn:Hc; [reflexivity|].
      assert (Hin : In c (conflicts_of (Fs.names es))) by (rewrite Hc; now left).
      apply conflicts_of_In in Hin. destruct Hin as (Hin & Hv & _).
      apply Hall, includes_In in Hin. congruence. }
    split; [assumption|].
    apply (scan_safe_without_logs E _ name _ _ Hl Hc).
    intros file Hf. now apply validFiles_not_error_log, Hall.
  - intros content Hfile.
    assert (Hin := FsFacts.assoc_In_names _ _ _ Hfile).
    assert (Hconf : In "notes.txt" (conflicts_of (Fs.names es))).
    { apply conflicts_of_In. repeat split; auto. }
    split; [|split; [assumption|]].
    + apply scan_unsafe; [assumption|]. intros H. now rewrite H in Hconf.
    + unfold conflict_line, Path.join. rewrite FsFacts.lookup_app, Hl. simpl.
      now rewrite Hfile.
Qed.

(** The two directories of the specification: [/tmp/app] with [.git] and
    [README.md], and [/tmp/app] with [notes.txt]. *)
Lemma scan_allow_listed_directory_witness :
  isSafeToCreateProjectIn Sample.env ["tmp"; "app"] "app" Sample.w_git_readme
  = (Ret true, Sample.w_git_readme)
  /\ exists w',
       isSafeToCreateProjectIn Sample.env ["tmp"; "app"] "app" Sample.w_notes = (Ret false, w')
       /\ w_fs w' = w_fs Sample.w_notes
       /\ In (ConsoleLog "  notes.txt") (w_trace w').
Proof.
  split.
  - refine (proj2 (proj1 (scan_allow_listed_directory Sample.env ["tmp"; "app"] "app"
                            Sample.w_git_readme _ eq_refl) _)).
    simpl. intros file [<-|[<-|[]]]; simpl; tauto.
  - eexists. split.
    + refine (proj1 (proj2 (scan_allow_listed_directory Sample.env ["tmp"; "app"] "app"
                              Sample.w_notes _ eq_refl) "todo" eq_refl)).
    + split; [reflexivity|]. simpl. tauto.
Defined.

(** C9. A scan that reports conflicts (returns [false]) changes nothing: the
    file system and the working directory are the ones it started from, and
    all it adds to the trace is console output; no entry is removed, stale
    logs included.  A scan that changes the file system at all is one that
    found no conflict and returned [true]. *)
Theorem scan_with_conflicts_mutates_nothing (E : environment) (root : path) (name : string)
    (w : world) (o : outcome bool) (w' : world) :
  isSafeToCreateProjectIn E root name w = (o, w') ->
  (o = Ret false ->
   w_fs w' = w_fs w /\ w_cwd w' = w_cwd w
   /\ conflicts_of (Fs.listing root (w_fs w)) <> []
   /\ exists tr, w_trace w' = (w_trace w ++ tr)%list /\ forallb is_console tr = true)
  /\ (w_fs w' <> w_fs w ->
      o = Ret true /\ conflicts_of (Fs.listing root (w_fs w)) = []).
Proof.
  intros H.
  destruct (scan_cases E root name w)
    as [(e & He & _)|[(es & Hl & Hc & He)|(es & Hl & Hc & He)]];
    rewrite He in H; injection H as <- <-.
  - split; [discriminate | intros Hd; now elim Hd].
  - split; [|intros Hd; now elim Hd].
    intros _. simpl. unfold Fs.listing. rewrite Hl. repeat split; [assumption|].
    eexists. split; [reflexivity | apply conflict_report_console].
  - split; [discriminate|].
    intros _. unfold Fs.listing. rewrite Hl. auto.
Qed.

(** A stale log next to [notes.txt]: the scan fails and removes nothing. *)
Lemma scan_with_conflicts_mutates_nothing_witness :
  exists w',
    isSafeToCreateProjectIn Sample.env ["tmp"; "app"] "app" Sample.w_log_and_notes
    = (Ret false, w')
    /\ w_fs w' = w_fs Sample.w_log_and_notes
    /\ w_cwd w' = w_cwd Sample.w_log_and_notes.
Proof.
  eexists. split; [cbv; reflexivity|].
  destruct (proj1 (scan_with_conflicts_mutates_nothing Sample.env ["tmp"; "app"] "app"
                     Sample.w_log_and_notes _ _ eq_refl) eq_refl) as (Hfs & Hcwd & _).
  split; [exact Hfs | exact Hcwd].
Defined.

(** C4, as the specification states it, fails: a stale log that shares the
    directory with a conflicting entry is still there after the scan. *)
Lemma stale_log_survives_a_failed_scan :
  exists w',
    isSafeToCreateProjectIn Sample.env ["tmp"; "app"] "app" Sample.w_log_and_notes
    = (Ret false, w')
    /\ In "npm-debug.log" (Fs.listing ["tmp"; "app"] (w_fs Sample.w_log_and_notes))
    /\ isErrorLog "npm-debug.log" = true
    /\ In "npm-debug.log" (Fs.listing ["tmp"; "app"] (w_fs w'))
    /\ Fs.lookup ["tmp"; "app"; "npm-debug.log"] (w_fs w') = Ok (File "old").
Proof.
  eexists. split; [cbv; reflexivity|]. cbv. repeat split; auto.
Qed.

(** C4, amended. A stale log never appears among the conflicts that the scan
    reports.  The scan removes it exactly when it reports no conflict: then
    the removal is recorded and the entry is gone from the directory; when
    there is a conflict the scan returns [false] and leaves the file system
    as it was. *)
Theorem scan_removes_stale_logs_when_clean (E : environment) (root : path) (name : string)
    (w : world) (es : Fs.entries) (file : string) :
  Fs.lookup root (w_fs w) = Ok (Dir es) ->
  In file (Fs.names es) ->
  isErrorLog file = true ->
  ~ In file (conflicts_of (Fs.names es))
  /\ (conflicts_of (Fs.names es) = [] ->
      exists w',
        isSafeToCreateProjectIn E root name w = (Ret true, w')
        /\ ~ In file (Fs.listing root (w_fs w'))
        /\ exists before after,
             w_trace w' = (w_trace w ++ before ++ FsRemove (Path.join root file) :: after)%list)
  /\ (conflicts_of (Fs.names es) <> [] ->
      exists w',
        isSafeToCreateProjectIn E root name w = (Ret false, w')
        /\ w_fs w' = w_fs w
        /\ w_trace w'
           = (w_trace w ++ conflict_report E root name (w_fs w) (conflicts_of (Fs.names es)))%list).
Proof.
  intros Hl Hin Hlog. split; [|split].
  - intros H. apply conflicts_of_In in H. destruct H as (_ & _ & _ & H). congruence.
  - intros Hc. eexists. split; [apply (scan_safe E _ name _ _ Hl Hc)|]. simpl. split.
    + unfold Fs.listing.
      destruct (FsFacts.alter_dir_lookup (filter (fun e => negb (isErrorLog (fst e)))) _ _ _ Hl)
        as [_ Hl'].
      rewrite Hl', FsFacts.names_filter with (keep := fun x => negb (isErrorLog x)).
      intros H. apply filter_In in H. destruct H as [_ H]. rewrite Hlog in H. discriminate.
    + apply in_split in Hin. destruct Hin as (l1 & l2 & ->).
      rewrite flat_map_app. simpl. unfold log_removal at 2. rewrite Hlog. simpl.
      eexists. eexists. reflexivity.
  - intros Hc. eexists. split; [apply (scan_unsafe E _ name _ _ Hl Hc)|]. split; reflexivity.
Qed.

(** A stale log next to [.git]: the scan succeeds and removes the log. *)
Lemma scan_removes_stale_logs_when_clean_witness :
  exists w',
    isSafeToCreateProjectIn Sample.env ["tmp"; "app"] "app" Sample.w_log_and_git = (Ret true, w')
    /\ ~ In "npm-debug.log" (Fs.listing ["tmp"; "app"] (w_fs w')).
Proof.
  destruct (scan_removes_stale_logs_when_clean Sample.env ["tmp"; "app"] "app"
              Sample.w_log_and_git _ "npm-debug.log" eq_refl (or_introl eq_refl) eq_refl)
    as (_ & Hclean & _).
  destruct (Hclean eq_refl) as (w' & Hscan & Hgone & _).
  exists w'. split; [exact Hscan | exact Hgone].
Defined.

(** C8. The scan is idempotent on a clean directory: when a scan has
    returned [true], it found no conflict, and a second scan of the world it
    left finds no conflict either, returns [true] and changes nothing. *)
Theorem scan_idempotent_on_clean_directory (E : environment) (root : path) (name : string)
    (w w1 : world) :
  isSafeToCreateProjectIn E root name w = (Ret true, w1) ->
  conflicts_of (Fs.listing root (w_fs w)) = []
  /\ conflicts_of (Fs.listing root (w_fs w1)) = []
  /\ isSafeToCreateProjectIn E root name w1 = (Ret true, w1).
Proof.
  intros H.
  destruct (scan_cases E root name w)
    as [(e & He & _)|[(es & Hl & Hc & He)|(es & Hl & Hc & He)]];
    rewrite He in H; try discriminate.
  injection H as <-.
  destruct (FsFacts.alter_dir_lookup (filter (fun e => negb (isErrorLog (fst e)))) _ _ _ Hl)
    as [_ Hl'].
  set (fs1 := Fs.update_dir (filter (fun e => negb (isErrorLog (fst e)))) root (w_fs w)) in *.
  set (es1 := filter (fun e => negb (isErrorLog (fst e))) es) in *.
  assert (Hn : Fs.names es1 = filter (fun x => negb (isErrorLog x)) (Fs.names es))
    by apply (FsFacts.names_filter (fun x => negb (isErrorLog x))).
  assert (Hc1 : conflicts_of (Fs.names es1) = [])
    by (rewrite Hn; now apply conflicts_of_filter).
  unfold Fs.listing. simpl w_fs. rewrite Hl, Hl'. repeat split; try assumption.
  apply (scan_safe_without_logs E root name (World fs1 _ _) es1 Hl' Hc1).
  intros file Hf. rewrite Hn in Hf. apply filter_In in Hf.
  destruct Hf as [_ Hf]. now apply negb_true_iff in Hf.
Qed.

(** Two scans in a row of [/tmp/app] with a stale log and [.git]. *)
Lemma scan_idempotent_on_clean_directory_witness :
  exists w1,
    isSafeToCreateProjectIn Sample.env ["tmp"; "app"] "app" Sample.w_log_and_git = (Ret true, w1)
    /\ isSafeToCreateProjectIn Sample.env ["tmp"; "app"] "app" w1 = (Ret true, w1).
Proof.
  eexists. split; [cbv; reflexivity|].
  exact (proj2 (proj2 (scan_idempotent_on_clean_directory Sample.env ["tmp"; "app"] "app"
                         Sample.w_log_and_git _ eq_refl))).
Defined.

(** ** The rollback *)

Ltac step_emit :=
  erewrite bind_Ret by (unfold console_log, console_error, emit; reflexivity).

Section RollbackFacts.

Variable E : environment.

Lemma log_then_remove (root : path) (x line : string) (w : world) (es : Fs.entries) :
  Fs.lookup root (w_fs w) = Ok (Dir es) ->
  (console_log line ;; fs_removeSync (Path.join root x)) w =
  (Ret tt,
   World (Fs.update_dir (Fs.remove_name x) root (w_fs w)) (w_cwd w)
     (w_trace w ++ [ConsoleLog line; FsRemove (Path.join root x)])%list).
Proof.
  intros Hl. step_emit.
  rewrite (removeSync_entry root x (World _ _ _) es Hl). simpl.
  now rewrite <- app_assoc.
Qed.

Lemma rollback_loop_removes (root : path) :
  removes_selected root (Str.includes knownGeneratedFiles) (rollback_removal E root)
    (fun file =>
       forEach knownGeneratedFiles (fun fileToMatch =>
         if String.eqb file fileToMatch
         then
           console_log ("Deleting generated file... " ++ chalk E Cyan file) ;;
           fs_removeSync (Path.join root file)
         else ret tt)).
Proof.
  intros file w es Hl.
  unfold rollback_removal, knownGeneratedFiles, Str.includes. simpl.
  destruct (String.eqb_spec file "package.json") as [->|H1].
  - rewrite (bind_Ret _ _ _ _ _ (log_then_remove root _ _ w es Hl)). reflexivity.
  - rewrite (bind_Ret _ _ w w tt eq_refl).
    destruct (String.eqb_spec file "node_modules") as [->|H2].
    + rewrite (bind_Ret _ _ _ _ _ (log_then_remove root _ _ w es Hl)). reflexivity.
    + unfold bind, ret. simpl. now rewrite app_nil_r, world_eta.
Qed.

(** The handler of [run] on an existing target directory [d/x]. *)
Lemma run_catch_result (d : path) (x appName : string) (r : reason) (w : world)
    (es : Fs.entries) :
  let root := (d ++ [x])%list in
  Fs.lookup root (w_fs w) = Ok (Dir es) ->
  run_catch E root appName r w =
  (Exit 1,
   World
     (match kept_entries es with
      | [] => Fs.update_dir (Fs.remove_name x) d (w_fs w)
      | _ => Fs.update_dir kept_entries root (w_fs w)
      end)
     (match kept_entries es with
      | [] => d
      | _ => w_cwd w
      end)
     (w_trace w
        ++ [ConsoleLog ""; ConsoleLog "Aborting installation."]
        ++ reason_lines E r
        ++ [ConsoleLog ""]
        ++ flat_map (rollback_removal E root) (Fs.names es)
        ++ match kept_entries es with
           | [] => rollback_of_directory E root appName
           | _ => []
           end
        ++ [ConsoleLog "Done."])%list).
Proof.
  intros root Hl. unfold run_catch.
  do 2 step_emit.
  assert (Hreason :
            forall w0,
              match reason_command r with
              | Some c => console_log ("  " ++ chalk E Cyan c ++ " has failed.")
              | None =>
                  console_log (chalk E Red "Unexpected error. Please report it as a bug:") ;;
                  emit (ConsoleLogReason r)
              end w0
              = (Ret tt, World (w_fs w0) (w_cwd w0) (w_trace w0 ++ reason_lines E r)%list)).
  { intros w0. unfold reason_lines. destruct (reason_command r).
    - reflexivity.
    - step_emit. unfold emit. simpl. now rewrite <- app_assoc. }
  rewrite (bind_Ret _ _ _ _ _ (Hreason _)). clear Hreason.
  step_emit.
  rewrite (bind_Ret _ _ _ _ _ (readdir_dir root (World _ _ _) es Hl)).
  rewrite (bind_Ret _ _ _ _ _
             (forEach_removes_selected _ _ _ _ (rollback_loop_removes root) _
                (World _ _ _) es Hl)).
  simpl w_fs. simpl w_cwd. simpl w_trace.
  rewrite (FsFacts.update_dir_at _ kept_entries _ _ _ Hl
             (FsFacts.remove_all_selected (Str.includes knownGeneratedFiles) es)).
  destruct (FsFacts.alter_dir_lookup kept_entries _ _ _ Hl) as [Ha Hl1].
  rewrite (bind_Ret _ _ _ _ _ (readdir_dir root (World _ _ _) _ Hl1)).
  destruct (kept_entries es) as [|k ks] eqn:Hk.
  - change (List.length (Fs.names []) =? 0)%nat with true. cbv iota.
    destruct (FsFacts.lookup_parent _ _ _ _ Hl1) as [es0 Hd].
    destruct (FsFacts.lookup_parent _ _ _ _ Hl) as [es1 Hd1].
    destruct (FsFacts.alter_dir_lookup (Fs.remove_name x) _ _ _ Hd1) as [Ha1 _].
    assert (Hparent : Path.parent root = d) by apply removelast_last.
    assert (Hdel :
              forall tr line,
                (console_log line ;; process_chdir (Path.parent root) ;; fs_removeSync root)
                  (World (Fs.update_dir kept_entries root (w_fs w)) (w_cwd w) tr)
                = (Ret tt,
                   World (Fs.update_dir (Fs.remove_name x) d (w_fs w)) d
                     (tr ++ [ConsoleLog line; Chdir d; FsRemove root])%list)).
    { intros tr line. step_emit. rewrite Hparent.
      erewrite bind_Ret.
      2:{ unfold process_chdir. simpl w_fs. rewrite Hd. reflexivity. }
      rewrite (removeSync_entry d x (World _ _ _) es0 Hd). simpl.
      unfold Fs.update_dir at 1.
      rewrite (FsFacts.alter_child_then_remove _ _ _ _ _ Ha), Ha1.
      repeat rewrite <- app_assoc. reflexivity. }
    rewrite (bind_Ret _ _ _ _ _ (Hdel _ _)).
    step_emit. unfold process_exit. simpl.
    unfold rollback_of_directory. rewrite Hparent.
    repeat rewrite <- app_assoc. reflexivity.
  - change (List.length (Fs.names (k :: ks)) =? 0)%nat with false. cbv iota.
    rewrite (bind_Ret _ _ _ _ tt eq_refl).
    step_emit. unfold process_exit. simpl.
    repeat rewrite <- app_assoc. reflexivity.
Qed.

End RollbackFacts.

Lemma reason_lines_console (E : environment) (r : reason) (e : event) :
  In e (reason_lines E r) -> is_console e = true.
Proof.
  unfold reason_lines. destruct (reason_command r); simpl; intros H;
    repeat (destruct H as [<-|H]; [reflexivity|]); destruct H.
Qed.

Lemma rollback_removal_removes (E : environment) (root p : path) (l : list string) :
  In (FsRemove p) (flat_map (rollback_removal E root) l) <->
  exists file, In file l /\ In file knownGeneratedFiles /\ p = Path.join root file.
Proof.
  rewrite in_flat_map. split.
  - intros (file & Hin & H). exists file. unfold rollback_removal in H.
    destruct (Str.includes knownGeneratedFiles file) eqn:Hk; [|destruct H].
    apply includes_In in Hk.
    destruct H as [H|[H|[]]]; [discriminate|]. injection H as <-. auto.
  - intros (file & Hin & Hk & ->). exists file. split; [assumption|].
    unfold rollback_removal. apply includes_In in Hk. rewrite Hk. simpl. auto.
Qed.

(** C1, as the specification states it, fails where it says that the
    original working directory is restored.  Started in [/home/u] for the
    target [/tmp/app], [createApp] writes the manifest and enters the target;
    the rollback then removes the manifest and the emptied target, and
    leaves the process in [/tmp], the parent of the target.  The same
    happens for the nested relative target [sites/app]: the process ends in
    [/home/u/sites]. *)
Lemma rollback_does_not_restore_original_directory :
  (exists w1 w2,
     createApp Sample.env "/tmp/app" Sample.w_home = (Throw (ReferenceError "version"), w1)
     /\ Fs.lookup ["tmp"; "app"; "package.json"] (w_fs w1) = Ok (File (manifest "app"))
     /\ w_cwd w1 = ["tmp"; "app"]
     /\ run Sample.env ["tmp"; "app"] "app" w1 = (Exit 1, w2)
     /\ Fs.lookup ["tmp"; "app"] (w_fs w2) = Err ENOENT
     /\ w_cwd w2 = ["tmp"]
     /\ w_cwd w2 <> w_cwd Sample.w_home)
  /\ (exists w1 w2,
        createApp Sample.env "sites/app" Sample.w_home = (Throw (ReferenceError "version"), w1)
        /\ w_cwd w1 = ["home"; "u"; "sites"; "app"]
        /\ run Sample.env ["home"; "u"; "sites"; "app"] "app" w1 = (Exit 1, w2)
        /\ Fs.lookup ["home"; "u"; "sites"; "app"] (w_fs w2) = Err ENOENT
        /\ w_cwd w2 = ["home"; "u"; "sites"]
        /\ w_cwd w2 <> w_cwd Sample.w_home).
Proof.
  split.
  - eexists. eexists. split; [cbv; reflexivity|].
    split; [reflexivity|]. split; [reflexivity|].
    split; [cbv; reflexivity|].
    split; [reflexivity|]. split; [reflexivity|]. discriminate.
  - eexists. eexists. split; [cbv; reflexivity|].
    split; [reflexivity|].
    split; [cbv; reflexivity|].
    split; [reflexivity|]. split; [reflexivity|]. discriminate.
Qed.

(** C1, amended. Whatever the reason of the rejection, the handler of [run]
    on an existing target directory removes exactly the entries named
    [package.json] and [node_modules] and no other; when entries remain the
    directory keeps them and the working directory is unchanged; when none
    remains the process moves to the parent directory of the target and the
    target directory is removed; the process then exits with status 1. *)
Theorem rollback_removes_generated_files (E : environment) (d : path) (x appName : string)
    (r : reason) (w : world) (es : Fs.entries) :
  Fs.lookup (d ++ [x])%list (w_fs w) = Ok (Dir es) ->
  exists w' tr,
    run_catch E (d ++ [x])%list appName r w = (Exit 1, w')
    /\ w_trace w' = (w_trace w ++ tr)%list
    /\ (forall p,
          In (FsRemove p) tr <->
          (exists file,
             In file (Fs.names es) /\ In file knownGeneratedFiles
             /\ p = Path.join (d ++ [x])%list file)
          \/ (kept_entries es = [] /\ p = (d ++ [x])%list))
    /\ (forall file n,
          In (file, n) (kept_entries es) <->
          In (file, n) es /\ file <> "package.json" /\ file <> "node_modules")
    /\ (kept_entries es <> [] ->
        w_fs w' = Fs.update_dir kept_entries (d ++ [x])%list (w_fs w)
        /\ Fs.lookup (d ++ [x])%list (w_fs w') = Ok (Dir (kept_entries es))
        /\ w_cwd w' = w_cwd w)
    /\ (kept_entries es = [] ->
        w_fs w' = Fs.update_dir (Fs.remove_name x) d (w_fs w)
        /\ Fs.lookup (d ++ [x])%list (w_fs w') = Err ENOENT
        /\ w_cwd w' = Path.parent (d ++ [x])%list
        /\ w_cwd w' = d).
Proof.
  intros Hl. eexists. eexists.
  split; [apply (run_catch_result E d x appName r w es Hl)|].
  split; [reflexivity|].
  split; [|split; [|split]].
  - intros p. rewrite !in_app_iff, rollback_removal_removes. split.
    + intros [H|[H|[H|[H|[H|H]]]]].
      * destruct H as [H|[H|[]]]; discriminate.
      * apply reason_lines_console in H. discriminate.
      * destruct H as [H|[]]; discriminate.
      * now left.
      * right. destruct (kept_entries es); [|destruct H].
        destruct H as [H|[H|[H|[]]]]; try discriminate. injection H as <-. auto.
      * destruct H as [H|[]]; discriminate.
    + intros [H|[Hk ->]].
      * auto.
      * do 4 right. left. rewrite Hk. simpl. auto.
  - intros file n. unfold kept_entries. rewrite filter_In. simpl.
    unfold Str.includes, knownGeneratedFiles. simpl.
    destruct (String.eqb_spec file "package.json");
      destruct (String.eqb_spec file "node_modules"); simpl;
      intuition congruence.
  - intros Hk. simpl.
    destruct (FsFacts.alter_dir_lookup kept_entries _ _ _ Hl) as [_ Hl1].
    destruct (kept_entries es); [now elim Hk|]. auto.
  - intros Hk. simpl. rewrite Hk.
    destruct (FsFacts.lookup_parent _ _ _ _ Hl) as [es0 Hd].
    rewrite (FsFacts.lookup_removed _ x _ _ Hd).
    unfold Path.parent. rewrite removelast_last. auto.
Qed.

(** The rollback after a failed [npm install], next to a user's file and on
    a directory that holds only generated entries. *)
Lemma rollback_removes_generated_files_witness :
  (exists w',
     run_catch Sample.env ["tmp"; "app"] "app"
       (CommandFailed "npm install --no-audit --save --save-exact --loglevel error express node-fetch")
       Sample.w_generated_and_notes = (Exit 1, w')
     /\ Fs.lookup ["tmp"; "app"] (w_fs w') = Ok (Dir [("notes.txt", File "todo")])
     /\ w_cwd w' = ["tmp"; "app"])
  /\ (exists w',
        run_catch Sample.env ["tmp"; "app"] "app"
          (CommandFailed "npm install --no-audit --save --save-exact --loglevel error express node-fetch")
          Sample.w_generated = (Exit 1, w')
        /\ Fs.lookup ["tmp"; "app"] (w_fs w') = Err ENOENT
        /\ w_cwd w' = ["tmp"]).
Proof.
  split.
  - destruct (rollback_removes_generated_files Sample.env ["tmp"] "app" "app"
                (CommandFailed "npm install --no-audit --save --save-exact --loglevel error express node-fetch")
                Sample.w_generated_and_notes _ eq_refl)
      as (w' & tr & Hrun & _ & _ & _ & Hkept & _).
    exists w'. split; [exact Hrun|].
    destruct (Hkept ltac:(discriminate)) as (_ & Hdir & Hcwd).
    split; [exact Hdir | exact Hcwd].
  - destruct (rollback_removes_generated_files Sample.env ["tmp"] "app" "app"
                (CommandFailed "npm install --no-audit --save --save-exact --loglevel error express node-fetch")
                Sample.w_generated _ eq_refl)
      as (w' & tr & Hrun & _ & _ & _ & _ & Hempty).
    exists w'. split; [exact Hrun|].
    destruct (Hempty eq_refl) as (_ & Hgone & _ & Hcwd).
    split; [exact Hgone | exact Hcwd].
Defined.

(** ** Computations that spawn nothing *)

Section SpawnsNothing.

Lemma spawns_app (tr1 tr2 : list event) : spawns (tr1 ++ tr2) = (spawns tr1 ++ spawns tr2)%list.
Proof. apply filter_app. Qed.

Lemma spawns_nothing_ret {A : Type} (a : A) : spawns_nothing (ret a).
Proof. intros w. reflexivity. Qed.

Lemma spawns_nothing_exit {A : Type} (c : Z) : spawns_nothing (@process_exit A c).
Proof. intros w. reflexivity. Qed.

Lemma spawns_nothing_bind {A B : Type} (m : M A) (k : A -> M B) :
  spawns_nothing m -> (forall a, spawns_nothing (k a)) -> spawns_nothing (bind m k).
Proof.
  intros Hm Hk w. unfold bind. specialize (Hm w).
  destruct (m w) as [[a|c|e] w1]; simpl in *; [|assumption|assumption].
  now rewrite (Hk a w1).
Qed.

Lemma spawns_nothing_emit (e : event) :
  (match e with Spawn _ _ _ => false | _ => true end) = true -> spawns_nothing (emit e).
Proof.
  intros He w. unfold emit. simpl. rewrite spawns_app. simpl.
  destruct e; try discriminate; simpl; apply app_nil_r.
Qed.

Lemma spawns_nothing_log (line : string) : spawns_nothing (console_log line).
Proof. now apply spawns_nothing_emit. Qed.

Lemma spawns_nothing_readdir (p : path) : spawns_nothing (fs_readdirSync p).
Proof.
  intros w. unfold fs_readdirSync.
  destruct (Fs.lookup p (w_fs w)) as [[c|es]|e]; reflexivity.
Qed.

Lemma spawns_nothing_chdir (p : path) : spawns_nothing (process_chdir p).
Proof.
  intros w. unfold process_chdir.
  destruct (Fs.lookup p (w_fs w)) as [[c|es]|e]; try reflexivity.
  simpl. rewrite spawns_app. apply app_nil_r.
Qed.

Lemma spawns_nothing_remove (p : path) : spawns_nothing (fs_removeSync p).
Proof.
  intros w. unfold fs_removeSync, lift_fs.
  destruct (Fs.remove p (w_fs w)); [|reflexivity].
  simpl. rewrite spawns_app. apply app_nil_r.
Qed.

Lemma spawns_nothing_forEach {A : Type} (l : list A) (f : A -> M unit) :
  (forall a, spawns_nothing (f a)) -> spawns_nothing (forEach l f).
Proof.
  intros Hf. induction l as [|a l IH]; simpl.
  - apply spawns_nothing_ret.
  - apply spawns_nothing_bind; auto.
Qed.

Lemma never_returns_exit {A : Type} (c : Z) : never_returns (@process_exit A c).
Proof. intros w a. discriminate. Qed.

Lemma never_returns_bind {A B : Type} (m : M A) (k : A -> M B) :
  (forall a, never_returns (k a)) -> never_returns (bind m k).
Proof.
  intros Hk w b. unfold bind.
  destruct (m w) as [[a|c|e] w1]; simpl; [apply Hk | discriminate | discriminate].
Qed.

Variable E : environment.

Lemma run_catch_spawns_nothing (root : path) (appName : string) (r : reason) :
  spawns_nothing (run_catch E root appName r).
Proof.
  unfold run_catch.
  repeat first
    [ apply spawns_nothing_bind; [|intro]
    | apply spawns_nothing_log
    | apply spawns_nothing_readdir
    | apply spawns_nothing_chdir
    | apply spawns_nothing_remove
    | apply spawns_nothing_exit
    | apply spawns_nothing_ret
    | apply spawns_nothing_forEach; intro
    | now apply spawns_nothing_emit
    | match goal with
      | |- spawns_nothing (match ?c with _ => _ end) => destruct c
      end ].
Qed.

Lemma run_catch_never_returns (root : path) (appName : string) (r : reason) :
  never_returns (run_catch E root appName r).
Proof.
  unfold run_catch.
  repeat (apply never_returns_bind; intro).
  apply never_returns_exit.
Qed.

End SpawnsNothing.

(** ** The install step and [run] *)

(** C6. [install] spawns [npm] with the arguments [install --no-audit --save
    --save-exact --loglevel error] followed by the dependencies in order,
    the child inheriting the standard streams; the promise is fulfilled when
    the child closes with code 0 and is otherwise rejected with the command
    line, the command name followed by all the arguments separated by
    spaces. *)
Theorem install_spawns_npm (E : environment) (deps : list string) (w : world) :
  let args :=
    (["install"; "--no-audit"; "--save"; "--save-exact"; "--loglevel"; "error"] ++ deps)%list in
  let child := child_process E "npm" args (w_cwd w) (w_fs w) in
  install E deps w =
  (Ret match fst child with
       | Some 0%Z => Fulfilled
       | _ => Rejected (CommandFailed ("npm " ++ Str.join " " args))
       end,
   World (snd child) (w_cwd w) (w_trace w ++ [Spawn "npm" args StdioInherit])%list)
  /\ install Sample.env ["express"; "node-fetch"] Sample.w_home =
     (Ret (Rejected (CommandFailed
             "npm install --no-audit --save --save-exact --loglevel error express node-fetch")),
      World (w_fs Sample.w_home) (w_cwd Sample.w_home)
        [Spawn "npm"
           ["install"; "--no-audit"; "--save"; "--save-exact"; "--loglevel"; "error";
            "express"; "node-fetch"] StdioInherit]).
Proof.
  split; [|reflexivity].
  unfold install, spawn, bind, emit. simpl.
  destruct (child_process E "npm" _ (w_cwd w) (w_fs w)) as [[[| |]|] fs']; reflexivity.
Qed.

(** C5 against the code. [run] hands [Promise.all] a function, so the
    promise is rejected with a [TypeError] and the function that holds the
    install step is never called: [run] is its own rejection handler applied
    to that error.  It spawns no process and never completes.  Where [npm]
    would succeed and the install step, run on its own, is fulfilled, [run]
    still rolls back: it removes the manifest and the target directory and
    exits with status 1. *)
Theorem run_never_calls_install (E : environment) (root : path) (appName : string)
    (w : world) :
  run E root appName w
  = run_catch E root appName (Thrown (TypeError "object is not iterable")) w
  /\ spawns (w_trace (snd (run E root appName w))) = spawns (w_trace w)
  /\ (forall a, fst (run E root appName w) <> Ret a)
  /\ (let w1 := Sample.in_tmp_app [("package.json", File (manifest "app"))] in
      fst (run_body Sample.env_npm_ok w1) = Ret Fulfilled
      /\ spawns (w_trace (snd (run_body Sample.env_npm_ok w1)))
         = [Spawn "npm"
              ["install"; "--no-audit"; "--save"; "--save-exact"; "--loglevel"; "error";
               "express"; "node-fetch"] StdioInherit]
      /\ fst (run Sample.env_npm_ok ["tmp"; "app"] "app" w1) = Exit 1
      /\ spawns (w_trace (snd (run Sample.env_npm_ok ["tmp"; "app"] "app" w1))) = []
      /\ Fs.lookup ["tmp"; "app"] (w_fs (snd (run Sample.env_npm_ok ["tmp"; "app"] "app" w1)))
         = Err ENOENT).
Proof.
  assert (Hrun : run E root appName w
                 = run_catch E root appName (Thrown (TypeError "object is not iterable")) w)
    by reflexivity.
  split; [exact Hrun|]. rewrite Hrun. split; [|split].
  - apply run_catch_spawns_nothing.
  - apply run_catch_never_returns.
  - cbv. repeat split; reflexivity.
Qed.

(** ** Name validation *)

Lemma forEach_console_error (f : string -> string) (l : list string) (w : world) :
  forEach l (fun x => console_error (f x)) w =
  (Ret tt,
   World (w_fs w) (w_cwd w) (w_trace w ++ map (fun x => ConsoleError (f x)) l)%list).
Proof.
  revert w. induction l as [|x l IH]; intros w.
  - simpl. unfold ret. now rewrite app_nil_r, world_eta.
  - simpl forEach. step_emit. rewrite IH. simpl. now rewrite <- app_assoc.
Qed.

Lemma checkAppName_result (E : environment) (appName : string) (w : world) :
  checkAppName E appName w =
  (if name_rejected E appName then Exit 1 else Ret tt,
   World (w_fs w) (w_cwd w) (w_trace w ++ name_report E appName)%list).
Proof.
  unfold checkAppName, name_rejected, name_report.
  destruct (validForNewPackages (validateProjectName E appName)) eqn:Hv;
    destruct (Str.includes dependencies appName) eqn:Hd; cbn [negb orb]; cbv iota.
  - rewrite (bind_Ret _ _ w w tt eq_refl).
    step_emit. unfold process_exit. reflexivity.
  - rewrite (bind_Ret _ _ w w tt eq_refl).
    unfold ret. now rewrite app_nil_r, world_eta.
  - apply bind_Exit.
    step_emit.
    rewrite (bind_Ret _ _ _ _ _ (forEach_console_error (fun error => chalk E Red ("  * " ++ error)) _ _)).
    step_emit. unfold process_exit, naming_report. simpl.
    repeat rewrite <- app_assoc. reflexivity.
  - apply bind_Exit.
    step_emit.
    rewrite (bind_Ret _ _ _ _ _ (forEach_console_error (fun error => chalk E Red ("  * " ++ error)) _ _)).
    step_emit. unfold process_exit, naming_report. simpl.
    repeat rewrite <- app_assoc. reflexivity.
Qed.

Lemma name_report_errors (E : environment) (appName : string) :
  forallb is_console_error (name_report E appName) = true.
Proof.
  unfold name_report, naming_report.
  destruct (negb (validForNewPackages (validateProjectName E appName))).
  - rewrite !forallb_app. simpl. rewrite andb_true_r.
    induction (or_empty (errors (validateProjectName E appName))
                 ++ or_empty (warnings (validateProjectName E appName)))%list; simpl; auto.
  - destruct (Str.includes dependencies appName); reflexivity.
Qed.

Lemma createApp_rejected_name (E : environment) (name : string) (w : world) :
  let appName := Path.basename (Path.resolve (w_cwd w) name) in
  name_rejected E appName = true ->
  createApp E name w =
  (Exit 1, World (w_fs w) (w_cwd w) (w_trace w ++ name_report E appName)%list).
Proof.
  intros appName Hrej. unfold createApp.
  rewrite (bind_Ret process_cwd _ w w (w_cwd w) eq_refl).
  apply bind_Exit. fold appName. rewrite checkAppName_result, Hrej. reflexivity.
Qed.

Lemma basename_of_plain_name (cwd : path) :
  Path.basename (Path.resolve cwd "express") = "express"
  /\ Path.basename (Path.resolve cwd "node-fetch") = "node-fetch".
Proof.
  unfold Path.basename, Path.resolve. simpl.
  unfold Path.push_segment. simpl.
  change (String.eqb "express" "") with false.
  change (String.eqb "express" ".") with false.
  change (String.eqb "express" "..") with false.
  change (String.eqb "node-fetch" "") with false.
  change (String.eqb "node-fetch" ".") with false.
  change (String.eqb "node-fetch" "..") with false.
  simpl. now rewrite !last_last.
Qed.

(** C7. A project whose name is the name of a dependency ([express],
    [node-fetch]) is refused: [createApp] exits with status 1, prints only
    error lines, and leaves the file system and the working directory as
    they were, so no directory is created; when the naming policy accepts
    the name, what is printed is the reserved-name message, which lists the
    forbidden names.  A name that the naming policy rejects is refused in
    the same way, after every message of the [errors] and of the [warnings]
    of the policy has been printed on a line of its own: what is printed is
    the header, the errors in their order, the warnings in their order, and
    the request to choose another name, where a missing [errors] or
    [warnings] contributes no line. *)
Theorem rejected_name_is_fatal (E : environment) (name : string) (w : world) :
  let appName := Path.basename (Path.resolve (w_cwd w) name) in
  let v := validateProjectName E appName in
  (appName = "express" \/ appName = "node-fetch" ->
   exists tr,
     createApp E name w = (Exit 1, World (w_fs w) (w_cwd w) (w_trace w ++ tr)%list)
     /\ forallb is_console_error tr = true
     /\ (validForNewPackages v = true -> tr = [ConsoleError (reserved_message E appName)]))
  /\ (validForNewPackages v = false ->
      exists tr,
        createApp E name w = (Exit 1, World (w_fs w) (w_cwd w) (w_trace w ++ tr)%list)
        /\ forallb is_console_error tr = true
        /\ (forall l message,
              errors v = Some l -> In message l -> In (violation_line E message) tr)
        /\ (forall l message,
              warnings v = Some l -> In message l -> In (violation_line E message) tr)
        /\ (forall errs warns,
              errors v = Some errs -> warnings v = Some warns ->
              tr = violations_report E appName (errs ++ warns))
        /\ (forall errs,
              errors v = Some errs -> warnings v = None ->
              tr = violations_report E appName errs)
        /\ (forall warns,
              errors v = None -> warnings v = Some warns ->
              tr = violations_report E appName warns)
        /\ (errors v = None -> warnings v = None -> tr = violations_report E appName []))
  /\ (exists before after,
        reserved_message E appName
        = before ++ chalk E Cyan ("  express" ++ Str.NL ++ "  node-fetch") ++ after)
  /\ Path.basename (Path.resolve (w_cwd w) "express") = "express"
  /\ In "express" dependencies.
Proof.
  intros appName v. split; [|split; [|split; [|split]]].
  - intros Hname.
    assert (Hdep : Str.includes dependencies appName = true).
    { apply includes_In. destruct Hname as [ -> | -> ]; simpl; auto. }
    assert (Hrej : name_rejected E appName = true)
      by (unfold name_rejected; rewrite Hdep; apply orb_true_r).
    exists (name_report E appName).
    split; [apply (createApp_rejected_name E name w Hrej)|].
    split; [apply name_report_errors|].
    intros Hv. unfold name_report. fold v. now rewrite Hv, Hdep.
  - intros Hv.
    assert (Hrej : name_rejected E appName = true)
      by (unfold name_rejected; fold v; now rewrite Hv).
    assert (Hrep : name_report E appName = naming_report E appName)
      by (unfold name_report; fold v; now rewrite Hv).
    exists (naming_report E appName).
    split; [rewrite (createApp_rejected_name E name w Hrej); fold appName; now rewrite Hrep|].
    split; [rewrite <- Hrep; apply name_report_errors|].
    unfold naming_report, violations_report, violation_line. fold v.
    split; [|split; [|split; [|split; [|split]]]].
    + intros l message He Hm. rewrite He. cbn [or_empty].
      apply in_or_app. right. apply in_or_app. left.
      apply (in_map (fun error => ConsoleError (chalk E Red ("  * " ++ error)))).
      apply in_or_app. now left.
    + intros l message Hw Hm. rewrite Hw. cbn [or_empty].
      apply in_or_app. right. apply in_or_app. left.
      apply (in_map (fun error => ConsoleError (chalk E Red ("  * " ++ error)))).
      apply in_or_app. now right.
    + intros errs warns -> ->. reflexivity.
    + intros errs -> ->. cbn [or_empty]. now rewrite app_nil_r.
    + intros warns -> ->. reflexivity.
    + intros -> ->. reflexivity.
  - unfold reserved_message. eexists. eexists. reflexivity.
  - apply basename_of_plain_name.
  - simpl. auto.
Qed.

(** The name [express], and a name that the naming policy rejects with one
    error and one warning: what is printed, character for character. *)
Lemma rejected_name_is_fatal_witness :
  createApp Sample.env "express" Sample.w_home
  = (Exit 1,
     World (w_fs Sample.w_home) (w_cwd Sample.w_home)
       [ConsoleError
          ("Cannot create a project named " ++ Str.DQ ++ "express" ++ Str.DQ
             ++ " because a dependency with the same name exists." ++ Str.NL
             ++ "Due to the way npm works, the following names are not allowed:"
             ++ Str.NL ++ Str.NL
             ++ "  express" ++ Str.NL ++ "  node-fetch"
             ++ Str.NL ++ Str.NL ++ "Please choose a different project name.")])
  /\ createApp Sample.env_strict "My.App" Sample.w_home
     = (Exit 1,
        World (w_fs Sample.w_home) (w_cwd Sample.w_home)
          [ConsoleError
             ("Cannot create a project named " ++ Str.DQ ++ "My.App" ++ Str.DQ
                ++ " because of npm naming restrictions:" ++ Str.NL);
           ConsoleError "  * name cannot start with a period";
           ConsoleError "  * name can no longer contain capital letters";
           ConsoleError (Str.NL ++ "Please choose a different project name.")]).
Proof.
  split.
  - destruct (proj1 (rejected_name_is_fatal Sample.env "express" Sample.w_home)
                (or_introl eq_refl)) as (tr & Hrun & _ & Hmsg).
    rewrite Hrun, (Hmsg eq_refl). reflexivity.
  - destruct (proj1 (proj2 (rejected_name_is_fatal Sample.env_strict "My.App"
                              Sample.w_home)) eq_refl)
      as (tr & Hrun & _ & _ & _ & Hboth & _).
    rewrite Hrun, (Hboth _ _ eq_refl eq_refl). reflexivity.
Defined.

(** ** The driver *)

Lemma checkThatNpmCanReadCwd_result (E : environment) (w : world) :
  exists b errs,
    checkThatNpmCanReadCwd E w =
    (Ret b,
     World (w_fs w) (w_cwd w)
       (w_trace w ++ Spawn "npm" ["config"; "list"] StdioPipe :: errs)%list)
    /\ forallb is_console_error errs = true.
Proof.
  unfold checkThatNpmCanReadCwd.
  rewrite (bind_Ret process_cwd _ w w (w_cwd w) eq_refl).
  erewrite bind_Ret by (unfold emit; reflexivity).
  destruct (npm_config_list E (w_cwd w)) as [out|].
  2:{ exists true, []. split; reflexivity. }
  destruct (find _ _) as [line|].
  2:{ exists true, []. split; reflexivity. }
  destruct (String.eqb _ _).
  { exists true, []. split; reflexivity. }
  step_emit.
  destruct (String.eqb (platform E) "win32").
  - step_emit. eexists false, _. unfold ret. simpl.
    repeat rewrite <- app_assoc. simpl. split; reflexivity.
  - rewrite (bind_Ret _ _ _ _ tt eq_refl). eexists false, _. unfold ret. simpl.
    repeat rewrite <- app_assoc. simpl. split; reflexivity.
Qed.

Lemma log_removal_events (root : path) (l : list string) (e : event) :
  In e (flat_map (log_removal root) l) ->
  exists file, In file l /\ isErrorLog file = true /\ e = FsRemove (Path.join root file).
Proof.
  rewrite in_flat_map. intros (file & Hin & H). exists file.
  unfold log_removal in H. destruct (isErrorLog file); [|destruct H].
  destruct H as [<-|[]]. auto.
Qed.

Lemma name_report_accepted (E : environment) (appName : string) :
  name_rejected E appName = false -> name_report E appName = [].
Proof.
  unfold name_rejected, name_report. intros H. apply orb_false_iff in H.
  destruct H as [-> ->]. reflexivity.
Qed.

(** The ways in which [createApp] ends for a name that passes
    [checkAppName]. *)
Lemma createApp_accepted_name (E : environment) (name : string) (w : world) :
  let root := Path.resolve (w_cwd w) name in
  let appName := Path.basename root in
  name_rejected E appName = false ->
  (exists e,
     Fs.mkdirp root (w_fs w) = Err e
     /\ createApp E name w = (Throw (FsError e "mkdir" root), w))
  \/ exists fs1 es,
       Fs.mkdirp root (w_fs w) = Ok fs1
       /\ Fs.lookup root fs1 = Ok (Dir es)
       /\ ((conflicts_of (Fs.names es) <> []
            /\ createApp E name w =
               (Exit 1,
                World fs1 (w_cwd w)
                  (w_trace w
                     ++ FsMkdirp root
                     :: conflict_report E root name fs1 (conflicts_of (Fs.names es)))%list))
           \/ (conflicts_of (Fs.names es) = []
               /\ let scanned :=
                    (FsMkdirp root :: flat_map (log_removal root) (Fs.names es)
                       ++ creating_lines E root)%list in
                  let written :=
                    FsWriteFile (Path.join root "package.json") (manifest appName) in
                  exists o w',
                    createApp E name w = (o, w')
                    /\ ((exists e, o = Throw e /\ w_trace w' = (w_trace w ++ scanned)%list)
                        \/ (exists e,
                              o = Throw e
                              /\ w_trace w' = (w_trace w ++ scanned ++ [written])%list)
                        \/ (exists errs,
                              (o = Exit 1 \/ o = Throw (ReferenceError "version"))
                              /\ forallb is_console_error errs = true
                              /\ w_trace w'
                                 = (w_trace w ++ scanned
                                      ++ [written; Chdir root;
                                          Spawn "npm" ["config"; "list"] StdioPipe]
                                      ++ errs)%list)))).
Proof.
  intros root appName Hacc. unfold createApp.
  rewrite (bind_Ret process_cwd _ w w (w_cwd w) eq_refl).
  fold root. fold appName.
  assert (Hname : checkAppName E appName w = (Ret tt, w)).
  { rewrite checkAppName_result, Hacc, (name_report_accepted _ _ Hacc).
    now rewrite app_nil_r, world_eta. }
  rewrite (bind_Ret _ _ _ _ _ Hname).
  destruct (Fs.mkdirp root (w_fs w)) as [fs1|e] eqn:Hmk.
  2:{ left. exists e. split; [reflexivity|]. apply bind_Throw.
      unfold fs_ensureDirSync, lift_fs. now rewrite Hmk. }
  assert (Hens : fs_ensureDirSync root w
                 = (Ret tt, World fs1 (w_cwd w) (w_trace w ++ [FsMkdirp root])%list))
    by (unfold fs_ensureDirSync, lift_fs; now rewrite Hmk).
  rewrite (bind_Ret _ _ _ _ _ Hens). clear Hens.
  right. destruct (FsFacts.mkdirp_lookup _ _ _ Hmk) as [es Hl].
  exists fs1, es. split; [reflexivity|]. split; [assumption|].
  assert (Hc : conflicts_of (Fs.names es) = [] \/ conflicts_of (Fs.names es) <> [])
    by (destruct (conflicts_of (Fs.names es)); [now left | now right]).
  destruct Hc as [Hc|Hc].
  - right. split; [assumption|].
    rewrite (bind_Ret _ _ _ _ _ (scan_safe E root name (World fs1 _ _) es Hl Hc)).
    cbn [negb]. cbv iota. rewrite (bind_Ret _ _ _ _ tt eq_refl).
    do 3 step_emit. cbn [w_fs w_cwd w_trace].
    set (fs2 := Fs.update_dir (filter (fun e => negb (isErrorLog (fst e)))) root fs1).
    match goal with
    | |- context [bind (fs_writeFileSync ?p ?c) ?k (World fs2 ?cwd ?tr)] =>
        destruct (Fs.write_file p c fs2) as [fs3|e] eqn:Hw;
        [ assert (Hwrite : fs_writeFileSync p c (World fs2 cwd tr)
                           = (Ret tt, World fs3 cwd (tr ++ [FsWriteFile p c])%list))
            by (unfold fs_writeFileSync, lift_fs; cbn [w_fs w_cwd w_trace]; now rewrite Hw);
          rewrite (bind_Ret _ _ _ _ _ Hwrite); clear Hwrite
        | assert (Hwrite : fs_writeFileSync p c (World fs2 cwd tr)
                           = (Throw (FsError e "open" p), World fs2 cwd tr))
            by (unfold fs_writeFileSync, lift_fs; cbn [w_fs w_cwd w_trace]; now rewrite Hw);
          rewrite (bind_Throw _ _ _ _ _ Hwrite); clear Hwrite ]
    end.
    2:{ eexists. eexists. split; [reflexivity|]. left. eexists.
        split; [reflexivity|]. simpl. unfold creating_lines.
        repeat rewrite <- app_assoc. reflexivity. }
    rewrite (bind_Ret process_cwd _ _ _ _ eq_refl). cbn [w_fs w_cwd w_trace].
    match goal with
    | |- context [bind (process_chdir root) ?k (World fs3 ?cwd ?tr)] =>
        assert (Hchdir :
                  (exists es3, process_chdir root (World fs3 cwd tr)
                               = (Ret tt, World fs3 root (tr ++ [Chdir root])%list)
                               /\ Fs.lookup root fs3 = Ok (Dir es3))
                  \/ exists e, process_chdir root (World fs3 cwd tr)
                               = (Throw e, World fs3 cwd tr))
          by (unfold process_chdir; cbn [w_fs w_cwd w_trace];
              destruct (Fs.lookup root fs3) as [[c|es3]|e]; eauto)
    end.
    destruct Hchdir as [(es3 & Hchdir & _)|(e & Hchdir)].
    2:{ rewrite (bind_Throw _ _ _ _ _ Hchdir).
        eexists. eexists. split; [reflexivity|]. right. left. eexists.
        split; [reflexivity|]. simpl. unfold creating_lines.
        repeat rewrite <- app_assoc. reflexivity. }
    rewrite (bind_Ret _ _ _ _ _ Hchdir). clear Hchdir.
    match goal with
    | |- context [bind (checkThatNpmCanReadCwd E) _ ?w5] =>
        destruct (checkThatNpmCanReadCwd_result E w5) as (b & errs & Hcheck & Herrs)
    end.
    rewrite (bind_Ret _ _ _ _ _ Hcheck). clear Hcheck.
    destruct b; cbn [negb]; cbv iota.
    + eexists. eexists. split; [reflexivity|]. right. right. exists errs.
      split; [now right|]. split; [assumption|]. simpl. unfold creating_lines.
      repeat rewrite <- app_assoc. reflexivity.
    + eexists. eexists. split; [reflexivity|]. right. right. exists errs.
      split; [now left|]. split; [assumption|]. simpl. unfold creating_lines.
      repeat rewrite <- app_assoc. reflexivity.
  - left. split; [assumption|].
    rewrite (bind_Ret _ _ _ _ _ (scan_unsafe E root name (World fs1 _ _) es Hl Hc)).
    cbn [negb]. cbv iota. unfold bind, process_exit. simpl.
    rewrite <- app_assoc. reflexivity.
Qed.

Lemma is_prefix_of_join (root : path) (x : string) :
  is_prefix_of root (Path.join root x) = true.
Proof.
  unfold is_prefix_of, Path.join. rewrite length_app, firstn_app, Nat.sub_diag, firstn_all.
  simpl. rewrite app_nil_r.
  destruct (list_eq_dec string_dec root root) as [_|H]; [|now elim H].
  rewrite andb_true_r. apply Nat.leb_le. lia.
Qed.

Lemma precedes_head (a b : event) (rest : list event) :
  In b rest -> precedes a b (a :: rest).
Proof.
  intros H. apply in_split in H. destruct H as (l2 & l3 & ->).
  exists [], l2, l3. reflexivity.
Qed.

Lemma console_error_not_write (root : path) (e : event) :
  is_console_error e = true -> writes_into root e = false /\ is_console e = true.
Proof. destruct e; try discriminate. auto. Qed.

Lemma console_not_write (root : path) (e : event) :
  is_console e = true -> writes_into root e = false.
Proof. destruct e; try discriminate; auto. Qed.

Lemma in_conflict_report (E : environment) (root : path) (name : string) (fs : node)
    (conflicts : list string) (e : event) :
  In e (conflict_report E root name fs conflicts) -> is_console e = true.
Proof.
  intros H. pose proof (conflict_report_console E root name fs conflicts) as Hall.
  rewrite forallb_forall in Hall. now apply Hall.
Qed.

(** What the trace of [createApp] holds up to the manifest write. *)
Lemma in_scanned (E : environment) (root : path) (names : list string) (e : event) :
  In e (FsMkdirp root :: flat_map (log_removal root) names ++ creating_lines E root)%list ->
  e = FsMkdirp root
  \/ (exists file, In file names /\ isErrorLog file = true /\ e = FsRemove (Path.join root file))
  \/ (exists line, e = ConsoleLog line).
Proof.
  intros [<-|H]; [now left|]. apply in_app_or in H. destruct H as [H|H].
  - right. left. now apply log_removal_events.
  - right. right. unfold creating_lines in H.
    repeat (destruct H as [<-|H]; [eauto|]). destruct H.
Qed.

(** A trace that holds nothing but the creation of the directory and
    console output. *)
Lemma harmless_trace (root : path) (tr : list event) :
  (forall e, In e tr -> e = FsMkdirp root \/ is_console e = true) ->
  (forall e, In e tr -> writes_into root e = true -> False)
  /\ (forall p, In (FsMkdirp p) tr -> p = root)
  /\ (forall p c, In (FsWriteFile p c) tr -> False)
  /\ (forall p, In (Chdir p) tr -> False)
  /\ (forall command args io, In (Spawn command args io) tr -> False).
Proof.
  intros Hall. repeat split.
  - intros e He Hw. destruct (Hall e He) as [->|Hc]; [discriminate|].
    apply (console_not_write root) in Hc. congruence.
  - intros p He. destruct (Hall _ He) as [[= ->]|Hc]; [reflexivity | discriminate].
  - intros p c He. destruct (Hall _ He); discriminate.
  - intros p He. destruct (Hall _ He); discriminate.
  - intros command args io He. destruct (Hall _ He); discriminate.
Qed.

(** What the trace of [createApp] holds after the directory was created, for
    a directory that passed the scan. *)
Lemma in_after_scan (E : environment) (root : path) (appName : string) (names : list string)
    (errs : list event) (e : event) :
  forallb is_console_error errs = true ->
  In e ((flat_map (log_removal root) names ++ creating_lines E root)
          ++ [FsWriteFile (Path.join root "package.json") (manifest appName);
              Chdir root; Spawn "npm" ["config"; "list"] StdioPipe]
          ++ errs)%list ->
  (exists file, In file names /\ isErrorLog file = true /\ e = FsRemove (Path.join root file))
  \/ (exists line, e = ConsoleLog line)
  \/ e = FsWriteFile (Path.join root "package.json") (manifest appName)
  \/ e = Chdir root
  \/ e = Spawn "npm" ["config"; "list"] StdioPipe
  \/ (exists line, e = ConsoleError line).
Proof.
  intros Herrs H. apply in_app_or in H. destruct H as [H|H].
  - assert (H' : In e (FsMkdirp root :: flat_map (log_removal root) names
                         ++ creating_lines E root)%list) by now right.
    apply in_scanned in H'. destruct H' as [->|[H'|H']]; auto.
    exfalso. apply in_app_or in H. destruct H as [H|H].
    + apply log_removal_events in H. destruct H as (file & _ & _ & H). discriminate.
    + unfold creating_lines in H. repeat (destruct H as [H|H]; [discriminate|]). destruct H.
  - destruct H as [<-|[<-|[<-|H]]]; [auto 10 | auto 10 | auto 10 |].
    do 5 right. rewrite forallb_forall in Herrs. specialize (Herrs e H).
    destruct e; try discriminate. eauto.
Qed.

(** C2. [createApp] goes through its phases in order and every failure ends
    the process.  It never returns: it exits, always with status 1, or
    throws.  A rejected name ends it before anything is touched.  A scan
    that reports conflicts ends it with the target directory created and
    nothing written into it.  Every event that writes into the target (the
    manifest write, a removal below the target, a spawned install) belongs
    to a run whose name was accepted and whose scan reported no conflict,
    and comes after the creation of the directory; the only file written is
    the manifest; the process enters the target only after the manifest
    write, and starts a child process only after that.  The rollback of a
    failed install ends the process as well. *)
Theorem createApp_writes_only_after_safe_scan (E : environment) (name : string) (w : world) :
  let root := Path.resolve (w_cwd w) name in
  let appName := Path.basename root in
  let o := fst (createApp E name w) in
  let w' := snd (createApp E name w) in
  exists tr,
    w_trace w' = (w_trace w ++ tr)%list
    /\ (forall a, o <> Ret a)
    /\ (forall c, o = Exit c -> c = 1%Z)
    /\ (name_rejected E appName = true ->
        o = Exit 1 /\ w_fs w' = w_fs w /\ w_cwd w' = w_cwd w
        /\ forallb is_console_error tr = true)
    /\ (forall fs1,
          name_rejected E appName = false ->
          Fs.mkdirp root (w_fs w) = Ok fs1 ->
          conflicts_of (Fs.listing root fs1) <> [] ->
          o = Exit 1 /\ w_fs w' = fs1 /\ w_cwd w' = w_cwd w
          /\ forall e, In e tr -> e = FsMkdirp root \/ is_console e = true)
    /\ writes_into root (FsWriteFile (Path.join root "package.json") (manifest appName)) = true
    /\ (forall e,
          In e tr -> writes_into root e = true ->
          name_rejected E appName = false
          /\ (exists fs1,
                Fs.mkdirp root (w_fs w) = Ok fs1 /\ conflicts_of (Fs.listing root fs1) = [])
          /\ precedes (FsMkdirp root) e tr)
    /\ (forall p, In (FsMkdirp p) tr -> p = root /\ name_rejected E appName = false)
    /\ (forall p c,
          In (FsWriteFile p c) tr ->
          p = Path.join root "package.json" /\ c = manifest appName)
    /\ (forall p,
          In (Chdir p) tr ->
          p = root
          /\ precedes (FsWriteFile (Path.join root "package.json") (manifest appName))
               (Chdir root) tr)
    /\ (forall command args io,
          In (Spawn command args io) tr ->
          args = ["config"; "list"]
          /\ precedes (Chdir root) (Spawn command args io) tr)
    /\ (forall root' appName' r w0 a, fst (run_catch E root' appName' r w0) <> Ret a).
Proof.
  intros root appName o w'.
  assert (Hwrites : writes_into root
                      (FsWriteFile (Path.join root "package.json") (manifest appName)) = true)
    by apply is_prefix_of_join.
  assert (Hrollback : forall root' appName' r w0 a,
             fst (run_catch E root' appName' r w0) <> Ret a)
    by (intros root' appName' r w0 a; apply run_catch_never_returns).
  destruct (name_rejected E appName) eqn:Hrej.
  { (* the name is rejected *)
    pose proof (createApp_rejected_name E name w Hrej) as Hrun.
    unfold o, w'. rewrite Hrun. simpl. exists (name_report E appName).
    pose proof (name_report_errors E appName) as Herr.
    assert (Hall : forall e,
               In e (name_report E appName) -> e = FsMkdirp root \/ is_console e = true).
    { intros e He. right. rewrite forallb_forall in Herr.
      now apply (console_error_not_write root), Herr. }
    assert (Hnomk : forall p, ~ In (FsMkdirp p) (name_report E appName)).
    { intros p He. rewrite forallb_forall in Herr. apply Herr in He. discriminate. }
    destruct (harmless_trace root _ Hall) as (H7 & H8 & H9 & H10 & H11).
    split; [reflexivity|].
    split; [discriminate|].
    split; [now intros c [= <-]|].
    split; [auto|].
    split; [discriminate|].
    split; [assumption|].
    split; [intros e He Hw; destruct (H7 e He Hw)|].
    split; [intros p He; destruct (Hnomk p He)|].
    split; [intros p c He; destruct (H9 p c He)|].
    split; [intros p He; destruct (H10 p He)|].
    split; [intros c a i He; destruct (H11 c a i He)|].
    assumption. }
  destruct (createApp_accepted_name E name w Hrej)
    as [(e & Hmk & Hrun)|(fs1 & es & Hmk & Hl & [(Hc & Hrun)|(Hc & o1 & w1 & Hrun & Hshape)])];
    fold root in Hmk, Hrun; fold appName in Hrun; try fold root in Hl.
  { (* the directory cannot be created *)
    unfold o, w'. rewrite Hrun. simpl. exists []. rewrite app_nil_r.
    split; [reflexivity|].
    split; [discriminate|].
    split; [discriminate|].
    split; [discriminate|].
    split; [intros fs1 _ Hmk'; congruence|].
    split; [assumption|].
    split; [intros e0 []|].
    split; [intros p []|].
    split; [intros p c []|].
    split; [intros p []|].
    split; [intros c a i []|].
    assumption. }
  { (* the scan reports conflicts *)
    unfold o, w'. rewrite Hrun. simpl. eexists. split; [reflexivity|].
    assert (Hall : forall e,
               In e (FsMkdirp root
                       :: conflict_report E root name fs1 (conflicts_of (Fs.names es))) ->
               e = FsMkdirp root \/ is_console e = true).
    { intros e [<-|H]; [now left|]. right. now apply in_conflict_report in H. }
    destruct (harmless_trace root _ Hall) as (H7 & H8 & H9 & H10 & H11).
    split; [discriminate|].
    split; [now intros c [= <-]|].
    split; [discriminate|].
    split; [intros fs1' _ Hmk' _; rewrite Hmk in Hmk'; injection Hmk' as <-; auto|].
    split; [assumption|].
    split; [intros e He Hw; destruct (H7 e He Hw)|].
    split; [intros p He; split; [apply (H8 p He) | reflexivity]|].
    split; [intros p c He; destruct (H9 p c He)|].
    split; [intros p He; destruct (H10 p He)|].
    split; [intros c a i He; destruct (H11 c a i He)|].
    assumption. }
  (* the scan reports no conflict *)
  cbv zeta in Hshape.
  set (scanned := (flat_map (log_removal root) (Fs.names es) ++ creating_lines E root)%list)
    in *.
  set (written := FsWriteFile (Path.join root "package.json") (manifest appName)) in *.
  set (config := Spawn "npm" ["config"; "list"] StdioPipe) in *.
  assert (Hlist : Fs.listing root fs1 = Fs.names es) by (unfold Fs.listing; now rewrite Hl).
  assert (Hshape' :
            exists rest errs,
              w_trace w1 = (w_trace w ++ FsMkdirp root :: rest)%list
              /\ forallb is_console_error errs = true
              /\ (o1 = Exit 1 \/ exists e, o1 = Throw e)
              /\ (rest = scanned \/ rest = (scanned ++ [written])%list
                  \/ rest = (scanned ++ [written; Chdir root; config] ++ errs)%list)).
  { destruct Hshape as [(e & -> & Ht)|[(e & -> & Ht)|(errs & Ho & Herrs & Ht)]].
    - exists scanned, []. rewrite Ht. repeat split; eauto.
    - exists (scanned ++ [written])%list, []. rewrite Ht. repeat split; eauto.
    - exists (scanned ++ [written; Chdir root; config] ++ errs)%list, errs.
      rewrite Ht. repeat split; auto. destruct Ho as [->| ->]; eauto. }
  clear Hshape. destruct Hshape' as (rest & errs & Ht & Herrs & Ho & Hrest).
  assert (Hin : forall e,
             In e rest ->
             In e (scanned ++ [written; Chdir root; config] ++ errs)%list).
  { intros e He. destruct Hrest as [->|[->| ->]]; [| |assumption].
    - apply in_or_app. now left.
    - apply in_app_or in He. apply in_or_app.
      destruct He as [He|[<-|[]]]; [now left | right; now left]. }
  assert (Hclass := fun e He => in_after_scan E root appName (Fs.names es) errs e Herrs (Hin e He)).
  fold written in Hclass. fold config in Hclass.
  unfold o, w'. rewrite Hrun. simpl. exists (FsMkdirp root :: rest).
  split; [assumption|].
  split; [intros a; destruct Ho as [->|[e ->]]; discriminate|].
  split; [intros c Hx; destruct Ho as [->|[e ->]]; [now injection Hx as <- | discriminate]|].
  split; [discriminate|].
  split; [intros fs1' _ Hmk' Hc'; rewrite Hmk in Hmk'; injection Hmk' as <-;
          rewrite Hlist in Hc'; contradiction|].
  split; [assumption|].
  split; [|split; [|split; [|split; [|split]]]]; try assumption.
  - intros e [<-|He] Hw; [discriminate|].
    split; [reflexivity|]. split.
    + exists fs1. rewrite Hlist. auto.
    + now apply precedes_head.
  - intros p [[= ->]|He]; [auto|].
    destruct (Hclass _ He) as [(f & _ & _ & H)|[(l & H)|[H|[H|[H|(l & H)]]]]]; discriminate.
  - intros p c [H|He]; [discriminate|].
    destruct (Hclass _ He) as [(f & _ & _ & H)|[(l & H)|[H|[H|[H|(l & H)]]]]];
      try discriminate.
    unfold written in H. injection H as -> ->. auto.
  - intros p [H|He]; [discriminate|].
    assert (Hp : p = root).
    { destruct (Hclass _ He) as [(f & _ & _ & H)|[(l & H)|[H|[H|[H|(l & H)]]]]];
        try discriminate. now injection H. }
    subst p. split; [reflexivity|].
    destruct Hrest as [->|[->| ->]].
    + exfalso. apply in_app_or in He. destruct He as [He|He].
      * apply log_removal_events in He. destruct He as (f & _ & _ & H). discriminate.
      * unfold creating_lines in He.
        repeat (destruct He as [He|He]; [discriminate|]). destruct He.
    + exfalso. apply in_app_or in He. destruct He as [He|[He|[]]]; [|discriminate].
      apply in_app_or in He. destruct He as [He|He].
      * apply log_removal_events in He. destruct He as (f & _ & _ & H). discriminate.
      * unfold creating_lines in He.
        repeat (destruct He as [He|He]; [discriminate|]). destruct He.
    + exists (FsMkdirp root :: scanned), [], (config :: errs). reflexivity.
  - intros command args io [H|He]; [discriminate|].
    assert (Hs : Spawn command args io = config).
    { destruct (Hclass _ He) as [(f & _ & _ & H)|[(l & H)|[H|[H|[H|(l & H)]]]]];
        try discriminate. assumption. }
    rewrite Hs in *. split; [now injection Hs|].
    destruct Hrest as [->|[->| ->]].
    + exfalso. apply in_app_or in He. destruct He as [He|He].
      * apply log_removal_events in He. destruct He as (f & _ & _ & H). discriminate.
      * unfold creating_lines in He.
        repeat (destruct He as [He|He]; [discriminate|]). destruct He.
    + exfalso. apply in_app_or in He. destruct He as [He|[He|[]]]; [|discriminate].
      apply in_app_or in He. destruct He as [He|He].
      * apply log_removal_events in He. destruct He as (f & _ & _ & H). discriminate.
      * unfold creating_lines in He.
        repeat (destruct He as [He|He]; [discriminate|]). destruct He.
    + exists (FsMkdirp root :: scanned ++ [written])%list, [], errs. simpl.
      repeat rewrite <- app_assoc. reflexivity.
Qed.

(** * Further properties of the script *)

(** ** Paths that a mutation cannot reach *)

Module FsFrame.
Import Fs.
#[local] Open Scope list_scope.

Lemma assoc_replace_other (x y : string) (c : node) (es : entries) :
  String.eqb x y = false -> assoc y (replace x c es) = assoc y es.
Proof.
  intros Hxy. induction es as [|[z m] es IH]; simpl; [reflexivity|].
  destruct (String.eqb_spec x z) as [->|Hxz]; simpl.
  - rewrite String.eqb_sym, Hxy. reflexivity.
  - destruct (String.eqb y z); [reflexivity | assumption].
Qed.

Lemma assoc_app_other (x y : string) (c : node) (es : entries) :
  String.eqb x y = false -> assoc y (es ++ [(x, c)]) = assoc y es.
Proof.
  intros Hxy. induction es as [|[z m] es IH]; simpl.
  - now rewrite String.eqb_sym, Hxy.
  - destruct (String.eqb y z); [reflexivity | assumption].
Qed.

Lemma assoc_filter_kept (keep : string -> bool) (y : string) (es : entries) :
  keep y = true -> assoc y (filter (fun e => keep (fst e)) es) = assoc y es.
Proof.
  intros Hy. induction es as [|[z m] es IH]; simpl; [reflexivity|].
  destruct (String.eqb_spec y z) as [<-|Hyz].
  - rewrite Hy. simpl. now rewrite String.eqb_refl.
  - destruct (keep z); simpl; [|assumption].
    destruct (String.eqb_spec y z); [contradiction | assumption].
Qed.

Lemma assoc_remove_name_other (x y : string) (es : entries) :
  String.eqb x y = false -> assoc y (remove_name x es) = assoc y es.
Proof.
  intros Hxy. unfold remove_name.
  apply (assoc_filter_kept (fun z => negb (String.eqb z x))).
  now rewrite String.eqb_sym, Hxy.
Qed.

Lemma assoc_None_names (x : string) (es : entries) :
  assoc x es = None <-> ~ In x (names es).
Proof.
  induction es as [|[z m] es IH]; simpl; [tauto|].
  destruct (String.eqb_spec x z) as [->|Hxz].
  - split; [discriminate | intros H; elim H; now left].
  - rewrite IH. split; [intros H [Hz|Hin]; [congruence | contradiction] | tauto].
Qed.

Lemma diverges_nil_r (p : path) : diverges p [] = false.
Proof. now destruct p. Qed.

Lemma alter_dir_diverges (f : entries -> entries) (p q : path) (n n' : node) :
  alter_dir f p n = Ok n' -> diverges p q = true -> lookup q n' = lookup q n.
Proof.
  revert q n n'. induction p as [|x p IH]; intros q n n' Ha Hd; [discriminate|].
  destruct q as [|b q]; [discriminate|].
  destruct n as [|es]; simpl in Ha; [discriminate|].
  destruct (assoc x es) as [c|] eqn:Hx; [|discriminate].
  destruct (alter_dir f p c) as [c'|] eqn:Hc; [|discriminate].
  injection Ha as <-. simpl in Hd |- *.
  destruct (String.eqb_spec x b) as [->|Hxb].
  - rewrite (FsFacts.assoc_replace _ _ _ _ Hx), Hx. now apply (IH q c c').
  - rewrite assoc_replace_other; [reflexivity|]. now apply String.eqb_neq.
Qed.

Lemma mkdirp_diverges (p q : path) (n n' : node) :
  mkdirp p n = Ok n' -> diverges p q = true -> lookup q n' = lookup q n.
Proof.
  revert q n n'. induction p as [|x p IH]; intros q n n' Ha Hd; [discriminate|].
  destruct q as [|b q]; [discriminate|].
  destruct n as [|es]; simpl in Ha; [discriminate|].
  simpl in Hd |- *.
  destruct (assoc x es) as [c|] eqn:Hx.
  - destruct (mkdirp p c) as [c'|] eqn:Hc; [|discriminate].
    injection Ha as <-. simpl.
    destruct (String.eqb_spec x b) as [->|Hxb].
    + rewrite (FsFacts.assoc_replace _ _ _ _ Hx), Hx. now apply (IH q c c').
    + rewrite assoc_replace_other; [reflexivity|]. now apply String.eqb_neq.
  - destruct (mkdirp p (Dir [])) as [c'|] eqn:Hc; [|discriminate].
    injection Ha as <-. simpl.
    destruct (String.eqb_spec x b) as [->|Hxb].
    + rewrite (FsFacts.assoc_app_new _ _ _ Hx), Hx.
      rewrite (IH q (Dir []) c' Hc Hd).
      destruct q; [now rewrite diverges_nil_r in Hd | reflexivity].
    + rewrite assoc_app_other; [reflexivity|]. now apply String.eqb_neq.
Qed.

(** Removing the entry [x] of the directory [d] reaches nothing that
    diverges from [d/x]. *)
Lemma remove_entry_diverges (d q : path) (x : string) (n n' : node) :
  alter_dir (remove_name x) d n = Ok n' ->
  diverges (d ++ [x]) q = true ->
  lookup q n' = lookup q n.
Proof.
  revert q n n'. induction d as [|y d IH]; intros q n n' Ha Hd.
  - destruct q as [|b q]; [discriminate|].
    destruct n as [|es]; simpl in Ha; [discriminate|]. injection Ha as <-.
    simpl in Hd |- *.
    destruct (String.eqb x b) eqn:Hxb; [discriminate|].
    now rewrite assoc_remove_name_other.
  - destruct q as [|b q]; [discriminate|].
    destruct n as [|es]; simpl in Ha; [discriminate|].
    destruct (assoc y es) as [c|] eqn:Hy; [|discriminate].
    destruct (alter_dir (remove_name x) d c) as [c'|] eqn:Hc; [|discriminate].
    injection Ha as <-. simpl in Hd |- *.
    destruct (String.eqb_spec y b) as [->|Hyb].
    + rewrite (FsFacts.assoc_replace _ _ _ _ Hy), Hy. now apply (IH q c c').
    + rewrite assoc_replace_other; [reflexivity|]. now apply String.eqb_neq.
Qed.

Lemma diverges_snoc (root q : path) (x : string) :
  diverges root q = true -> diverges (root ++ [x]) q = true.
Proof.
  revert q. induction root as [|a root IH]; intros q H; [discriminate|].
  destruct q as [|b q]; [discriminate|]. simpl in *.
  destruct (String.eqb a b); [now apply IH | reflexivity].
Qed.

(** [fs.removeSync(p)] reaches nothing that diverges from [p]. *)
Lemma remove_diverges (p q : path) (n n' : node) :
  remove p n = Ok n' -> diverges p q = true -> lookup q n' = lookup q n.
Proof.
  intros Hr Hd. unfold remove in Hr.
  destruct p as [|a p]; [discriminate|].
  assert (Hp : a :: p = removelast (a :: p) ++ [last (a :: p) ""])
    by (apply app_removelast_last; discriminate).
  unfold split_last in Hr.
  destruct (lookup (removelast (a :: p)) n) as [[c|es]|e] eqn:Hl; try discriminate.
  - rewrite Hp in Hd. now apply (remove_entry_diverges _ _ _ _ _ Hr).
  - destruct e; try discriminate. now injection Hr as <-.
Qed.

(** [fs.writeFileSync(root/x, _)] reaches nothing that diverges from [root]. *)
Lemma write_file_diverges (root q : path) (x content : string) (n n' : node) :
  write_file (root ++ [x]) content n = Ok n' ->
  diverges root q = true ->
  lookup q n' = lookup q n.
Proof.
  intros Hw Hd. unfold write_file in Hw. rewrite FsFacts.split_last_snoc in Hw.
  destruct (lookup root n) as [[c|es]|e]; try discriminate.
  destruct (assoc x es) as [[c|es']|]; try discriminate;
    now apply (alter_dir_diverges _ _ _ _ _ Hw).
Qed.

End FsFrame.

(** ** Computations confined to the target directory *)

Section Confined.

Variable root : path.

Lemma keeps_fs_confined {A : Type} (m : M A) : keeps_fs m -> confined root m.
Proof. intros H w q _. now rewrite H. Qed.

Lemma confined_bind {A B : Type} (m : M A) (k : A -> M B) :
  confined root m -> (forall a, confined root (k a)) -> confined root (bind m k).
Proof.
  intros Hm Hk w q Hd. unfold bind. specialize (Hm w q Hd).
  destruct (m w) as [[a|c|e] w1]; simpl in *; [|assumption|assumption].
  now rewrite (Hk a w1 q Hd).
Qed.

Lemma confined_try_catch {A : Type} (m : M A) (h : js_error -> M A) :
  confined root m -> (forall e, confined root (h e)) -> confined root (try_catch m h).
Proof.
  intros Hm Hh w q Hd. unfold try_catch. specialize (Hm w q Hd).
  destruct (m w) as [[a|c|e] w1]; simpl in *; [assumption|assumption|].
  now rewrite (Hh e w1 q Hd).
Qed.

Lemma confined_forEach {A : Type} (l : list A) (f : A -> M unit) :
  (forall a, confined root (f a)) -> confined root (forEach l f).
Proof.
  intros Hf. induction l as [|a l IH]; simpl.
  - now apply keeps_fs_confined.
  - apply confined_bind; auto.
Qed.

Lemma confined_ret {A : Type} (a : A) : confined root (ret a).
Proof. now apply keeps_fs_confined. Qed.

Lemma confined_exit {A : Type} (c : Z) : confined root (@process_exit A c).
Proof. now apply keeps_fs_confined. Qed.

Lemma confined_throw {A : Type} (e : js_error) : confined root (@throw A e).
Proof. now apply keeps_fs_confined. Qed.

Lemma confined_emit (e : event) : confined root (emit e).
Proof. now apply keeps_fs_confined. Qed.

Lemma confined_log (line : string) : confined root (console_log line).
Proof. apply confined_emit. Qed.

Lemma confined_error (line : string) : confined root (console_error line).
Proof. apply confined_emit. Qed.

Lemma confined_cwd : confined root process_cwd.
Proof. now apply keeps_fs_confined. Qed.

Lemma confined_readdir (p : path) : confined root (fs_readdirSync p).
Proof.
  apply keeps_fs_confined. intros w. unfold fs_readdirSync.
  destruct (Fs.lookup p (w_fs w)) as [[c|es]|e]; reflexivity.
Qed.

Lemma confined_lstat (p : path) : confined root (fs_lstatSync p).
Proof.
  apply keeps_fs_confined. intros w. unfold fs_lstatSync.
  destruct (Fs.lookup p (w_fs w)) as [c|e]; reflexivity.
Qed.

Lemma confined_chdir (p : path) : confined root (process_chdir p).
Proof.
  apply keeps_fs_confined. intros w. unfold process_chdir.
  destruct (Fs.lookup p (w_fs w)) as [[c|es]|e]; reflexivity.
Qed.

Lemma confined_remove_child (x : string) : confined root (fs_removeSync (Path.join root x)).
Proof.
  intros w q Hd. unfold fs_removeSync, lift_fs.
  destruct (Fs.remove (Path.join root x) (w_fs w)) as [n'|e] eqn:Hr; [|reflexivity].
  simpl. apply (FsFrame.remove_diverges _ _ _ _ Hr). now apply FsFrame.diverges_snoc.
Qed.

Lemma confined_remove_self : confined root (fs_removeSync root).
Proof.
  intros w q Hd. unfold fs_removeSync, lift_fs.
  destruct (Fs.remove root (w_fs w)) as [n'|e] eqn:Hr; [|reflexivity].
  simpl. now apply (FsFrame.remove_diverges _ _ _ _ Hr).
Qed.

Lemma confined_write_child (x content : string) :
  confined root (fs_writeFileSync (Path.join root x) content).
Proof.
  intros w q Hd. unfold fs_writeFileSync, lift_fs.
  destruct (Fs.write_file (Path.join root x) content (w_fs w)) as [n'|e] eqn:Hw;
    [|reflexivity].
  simpl. now apply (FsFrame.write_file_diverges _ _ _ _ _ _ Hw).
Qed.

Lemma confined_ensureDir : confined root (fs_ensureDirSync root).
Proof.
  intros w q Hd. unfold fs_ensureDirSync, lift_fs.
  destruct (Fs.mkdirp root (w_fs w)) as [n'|e] eqn:Hm; [|reflexivity].
  simpl. now apply (FsFrame.mkdirp_diverges _ _ _ _ Hm).
Qed.

End Confined.

Ltac confine :=
  repeat first
    [ apply confined_bind; [|intro]
    | apply confined_try_catch; [|intro]
    | apply confined_forEach; intro
    | apply confined_log
    | apply confined_error
    | apply confined_emit
    | apply confined_ret
    | apply confined_exit
    | apply confined_throw
    | apply confined_cwd
    | apply confined_readdir
    | apply confined_lstat
    | apply confined_chdir
    | apply confined_remove_child
    | apply confined_remove_self
    | apply confined_write_child
    | apply confined_ensureDir
    | match goal with
      | |- confined _ (if ?c then _ else _) => destruct c
      | |- confined _ (match ?c with _ => _ end) => destruct c
      end ].

Section ConfinedScript.

Variable E : environment.

Lemma scan_confined (root : path) (name : string) :
  confined root (isSafeToCreateProjectIn E root name).
Proof. unfold isSafeToCreateProjectIn, report_conflict. confine. Qed.

Lemma run_catch_confined (root : path) (appName : string) (r : reason) :
  confined root (run_catch E root appName r).
Proof. unfold run_catch. confine. Qed.

Lemma run_confined (root : path) (appName : string) : confined root (run E root appName).
Proof. unfold run, Promise_all. confine. Qed.

Lemma checkAppName_keeps_fs (appName : string) : keeps_fs (checkAppName E appName).
Proof. intros w. now rewrite checkAppName_result. Qed.

Lemma checkThatNpmCanReadCwd_keeps_fs : keeps_fs (checkThatNpmCanReadCwd E).
Proof.
  intros w. destruct (checkThatNpmCanReadCwd_result E w) as (b & errs & -> & _).
  reflexivity.
Qed.

End ConfinedScript.

(** X1. The scan changes nothing but the stale logs of the directory it
    scans: however it ends, every path that diverges from the directory is
    as before, every entry of the directory whose name is not a stale-log
    name is as before, with everything below it, and the working directory
    is the same. *)
Theorem scan_touches_only_stale_logs (E : environment) (root : path) (name : string)
    (w : world) :
  let w' := snd (isSafeToCreateProjectIn E root name w) in
  (forall q, diverges root q = true -> Fs.lookup q (w_fs w') = Fs.lookup q (w_fs w))
  /\ (forall file rest,
        isErrorLog file = false ->
        Fs.lookup (root ++ file :: rest)%list (w_fs w')
        = Fs.lookup (root ++ file :: rest)%list (w_fs w))
  /\ w_cwd w' = w_cwd w.
Proof.
  intros w'. split; [intros q Hd; now apply scan_confined|].
  unfold w'.
  destruct (scan_cases E root name w)
    as [(e & He & _)|[(es & Hl & Hc & He)|(es & Hl & Hc & He)]]; rewrite He; simpl;
    split; try reflexivity.
  intros file rest Hlog.
  destruct (FsFacts.alter_dir_lookup (filter (fun e => negb (isErrorLog (fst e)))) _ _ _ Hl)
    as [_ Hl'].
  rewrite !FsFacts.lookup_app, Hl, Hl'. simpl.
  rewrite (FsFrame.assoc_filter_kept (fun x => negb (isErrorLog x))); [reflexivity|].
  now rewrite Hlog.
Qed.

(** X2. The rollback never deletes a user's file.  On an existing target
    directory, whatever the reason of the rejection, every entry of the
    target that is not named [package.json] or [node_modules] is after the
    rollback what it was before, with everything below it, and so is every
    path that diverges from the target. *)
Theorem rollback_keeps_user_files (E : environment) (d : path) (x appName : string)
    (r : reason) (w : world) (es : Fs.entries) :
  Fs.lookup (d ++ [x])%list (w_fs w) = Ok (Dir es) ->
  let w' := snd (run_catch E (d ++ [x])%list appName r w) in
  (forall file rest,
     ~ In file knownGeneratedFiles ->
     Fs.lookup ((d ++ [x]) ++ file :: rest)%list (w_fs w')
     = Fs.lookup ((d ++ [x]) ++ file :: rest)%list (w_fs w))
  /\ (forall q,
        diverges (d ++ [x])%list q = true -> Fs.lookup q (w_fs w') = Fs.lookup q (w_fs w)).
Proof.
  intros Hl w'. split; [|intros q Hd; now apply run_catch_confined].
  intros file rest Hfile. unfold w'.
  rewrite (run_catch_result E d x appName r w es Hl). simpl.
  assert (Hkeep : negb (Str.includes knownGeneratedFiles file) = true).
  { destruct (Str.includes knownGeneratedFiles file) eqn:Hi; [|reflexivity].
    apply includes_In in Hi. contradiction. }
  assert (Hassoc : Fs.assoc file (kept_entries es) = Fs.assoc file es)
    by apply (FsFrame.assoc_filter_kept
                (fun y => negb (Str.includes knownGeneratedFiles y)) _ _ Hkeep).
  destruct (kept_entries es) as [|k ks] eqn:Hk.
  - destruct (FsFacts.lookup_parent _ _ _ _ Hl) as [es0 Hd].
    rewrite !FsFacts.lookup_app with (p := (d ++ [x])%list).
    rewrite (FsFacts.lookup_removed _ x _ _ Hd), Hl. simpl.
    now rewrite <- Hassoc.
  - destruct (FsFacts.alter_dir_lookup kept_entries _ _ _ Hl) as [_ Hl'].
    rewrite !FsFacts.lookup_app with (p := (d ++ [x])%list).
    rewrite Hl', Hl, Hk. simpl. simpl in Hassoc. now rewrite Hassoc.
Qed.

(** A failed install in [/tmp/app] next to [notes.txt]: the note survives,
    and so does [/home]. *)
Lemma rollback_keeps_user_files_witness :
  let w' := snd (run_catch Sample.env ["tmp"; "app"] "app" (CommandFailed "npm install")
                   Sample.w_generated_and_notes) in
  Fs.lookup ["tmp"; "app"; "notes.txt"] (w_fs w') = Ok (File "todo")
  /\ Fs.lookup ["home"] (w_fs w') = Fs.lookup ["home"] (w_fs Sample.w_generated_and_notes).
Proof.
  destruct (rollback_keeps_user_files Sample.env ["tmp"] "app" "app"
              (CommandFailed "npm install") Sample.w_generated_and_notes _ eq_refl)
    as [Hin Hout].
  split.
  - refine (eq_trans (Hin "notes.txt" [] _) eq_refl).
    simpl. intuition discriminate.
  - exact (Hout ["home"] eq_refl).
Defined.

(** X3. [createApp] is confined to its target: however it ends (exit, or
    exception), every path that diverges from the resolved target directory
    is in the file system exactly what it was before. *)
Theorem createApp_confined_to_target (E : environment) (name : string) (w : world)
    (q : path) :
  diverges (Path.resolve (w_cwd w) name) q = true ->
  Fs.lookup q (w_fs (snd (createApp E name w))) = Fs.lookup q (w_fs w).
Proof.
  intros Hd. unfold createApp.
  rewrite (bind_Ret process_cwd _ w w (w_cwd w) eq_refl).
  set (root := Path.resolve (w_cwd w) name) in *.
  match goal with
  | |- Fs.lookup q (w_fs (snd (?m w))) = _ =>
      assert (Hc : confined root m); [|exact (Hc w q Hd)]
  end.
  clear Hd.
  apply confined_bind; [apply keeps_fs_confined, checkAppName_keeps_fs|intro].
  apply confined_bind; [apply confined_ensureDir|intro].
  apply confined_bind; [apply scan_confined|intro].
  apply confined_bind; [confine|intro].
  do 3 (apply confined_bind; [apply confined_log|intro]).
  apply confined_bind; [apply confined_write_child|intro].
  apply confined_bind; [apply confined_cwd|intro].
  apply confined_bind; [apply confined_chdir|intro].
  apply confined_bind; [apply keeps_fs_confined, checkThatNpmCanReadCwd_keeps_fs|intro].
  apply confined_bind; [confine|intro].
  apply confined_bind; [apply confined_throw|intro].
  apply run_confined.
Qed.

(** Creating [/tmp/app] from [/home/u] leaves [/home/u] alone. *)
Lemma createApp_confined_to_target_witness :
  Fs.lookup ["home"; "u"] (w_fs (snd (createApp Sample.env "/tmp/app" Sample.w_home)))
  = Ok (Dir []).
Proof.
  exact (eq_trans
           (createApp_confined_to_target Sample.env "/tmp/app" Sample.w_home ["home"; "u"]
              eq_refl)
           eq_refl).
Defined.

(** ** What the scan guarantees to the rollback *)

Lemma generated_file_is_conflict (file : string) (files : list string) :
  In file knownGeneratedFiles -> In file files -> In file (conflicts_of files).
Proof.
  intros Hk Hin. apply conflicts_of_In. split; [assumption|].
  destruct Hk as [<-|[<-|[]]]; repeat split; reflexivity.
Qed.

(** X4. The names that the rollback deletes are names that the scan refuses:
    [package.json] and [node_modules] are conflicts wherever they are
    listed.  So a directory that passed the scan held neither of them, before
    the scan and after it, and whatever the rollback later deletes under
    these names was created after the scan. *)
Theorem scan_excludes_generated_files (E : environment) (root : path) (name : string)
    (w w1 : world) (file : string) :
  isSafeToCreateProjectIn E root name w = (Ret true, w1) ->
  In file knownGeneratedFiles ->
  ~ In file (Fs.listing root (w_fs w)) /\ ~ In file (Fs.listing root (w_fs w1)).
Proof.
  intros Hscan Hk.
  destruct (scan_cases E root name w)
    as [(e & He & _)|[(es & Hl & Hc & He)|(es & Hl & Hc & He)]];
    rewrite He in Hscan; try discriminate.
  injection Hscan as <-. simpl.
  destruct (FsFacts.alter_dir_lookup (filter (fun e => negb (isErrorLog (fst e)))) _ _ _ Hl)
    as [_ Hl'].
  unfold Fs.listing. rewrite Hl, Hl'.
  assert (Hnot : ~ In file (Fs.names es)).
  { intros Hin. apply (generated_file_is_conflict _ _ Hk) in Hin. now rewrite Hc in Hin. }
  split; [assumption|].
  rewrite (FsFacts.names_filter (fun x => negb (isErrorLog x))).
  intros Hin. apply filter_In in Hin. tauto.
Qed.

(** [/tmp/app] with a stale log and [.git] passes the scan and holds no
    [package.json]. *)
Lemma scan_excludes_generated_files_witness :
  ~ In "package.json" (Fs.listing ["tmp"; "app"] (w_fs Sample.w_log_and_git)).
Proof.
  exact (proj1 (scan_excludes_generated_files Sample.env ["tmp"; "app"] "app"
                  Sample.w_log_and_git _ "package.json" eq_refl (or_introl eq_refl))).
Defined.

(** ** [createApp] on an occupied target *)

Lemma mkdirp_existing (p : path) (n : node) (es : Fs.entries) :
  Fs.lookup p n = Ok (Dir es) -> Fs.mkdirp p n = Ok n.
Proof.
  revert n. induction p as [|x p IH]; intros n Hl.
  - simpl in Hl. injection Hl as ->. reflexivity.
  - destruct n as [|es0]; simpl in Hl; [discriminate|]. simpl.
    destruct (Fs.assoc x es0) as [c|] eqn:Hx; [|discriminate].
    now rewrite (IH _ Hl), (FsFacts.replace_same _ _ _ Hx).
Qed.

Lemma mkdirp_on_file (p : path) (n : node) (content : string) :
  Fs.lookup p n = Ok (File content) -> Fs.mkdirp p n = Err EEXIST.
Proof.
  revert n. induction p as [|x p IH]; intros n Hl.
  - simpl in Hl. injection Hl as ->. reflexivity.
  - destruct n as [|es0]; simpl in Hl; [discriminate|]. simpl.
    destruct (Fs.assoc x es0) as [c|] eqn:Hx; [|discriminate].
    now rewrite (IH _ Hl).
Qed.

(** X5. [createApp] never modifies a target directory that holds a
    conflicting entry: whatever the name, it exits with status 1 and leaves
    the file system and the working directory exactly as they were.  An
    existing [package.json] is such an entry, so a manifest is never
    overwritten. *)
Theorem createApp_leaves_occupied_directory (E : environment) (name : string) (w : world)
    (es : Fs.entries) :
  let root := Path.resolve (w_cwd w) name in
  Fs.lookup root (w_fs w) = Ok (Dir es) ->
  conflicts_of (Fs.names es) <> [] \/ In "package.json" (Fs.names es) ->
  fst (createApp E name w) = Exit 1
  /\ w_fs (snd (createApp E name w)) = w_fs w
  /\ w_cwd (snd (createApp E name w)) = w_cwd w.
Proof.
  intros root Hl Hocc.
  assert (Hc : conflicts_of (Fs.names es) <> []).
  { destruct Hocc as [Hc|Hin]; [assumption|].
    apply (generated_file_is_conflict "package.json") in Hin; [|now left].
    intros H. now rewrite H in Hin. }
  clear Hocc.
  destruct (name_rejected E (Path.basename root)) eqn:Hrej.
  - rewrite (createApp_rejected_name E name w Hrej). auto.
  - pose proof (mkdirp_existing _ _ _ Hl) as Hmk.
    destruct (createApp_accepted_name E name w Hrej)
      as [(e & Hmk' & _)|(fs1 & es1 & Hmk' & Hl1 & Hcases)];
      fold root in Hmk'; rewrite Hmk in Hmk'; [discriminate|].
    injection Hmk' as <-. fold root in Hl1. rewrite Hl in Hl1. injection Hl1 as <-.
    destruct Hcases as [(_ & Hrun)|(Hc' & _)]; [|contradiction].
    rewrite Hrun. auto.
Qed.

(** A second [createApp] on a target where a manifest was left. *)
Lemma createApp_leaves_occupied_directory_witness :
  let w := World (w_fs Sample.w_generated) ["tmp"] [] in
  fst (createApp Sample.env "app" w) = Exit 1
  /\ w_fs (snd (createApp Sample.env "app" w)) = w_fs w.
Proof.
  destruct (createApp_leaves_occupied_directory Sample.env "app"
              (World (w_fs Sample.w_generated) ["tmp"] []) _ eq_refl
              (or_intror (or_introl eq_refl))) as (Hexit & Hfs & _).
  split; [exact Hexit | exact Hfs].
Defined.

(** X6. When the target path is an existing regular file, [createApp] (for
    a name that [checkAppName] accepts) does not report a conflict and does
    not exit with status 1: it ends in the [EEXIST] exception of
    [fs.ensureDirSync], with nothing printed and nothing changed. *)
Theorem createApp_on_a_file_throws (E : environment) (name : string) (w : world)
    (content : string) :
  let root := Path.resolve (w_cwd w) name in
  name_rejected E (Path.basename root) = false ->
  Fs.lookup root (w_fs w) = Ok (File content) ->
  createApp E name w = (Throw (FsError EEXIST "mkdir" root), w).
Proof.
  intros root Hrej Hl.
  pose proof (mkdirp_on_file _ _ _ Hl) as Hmk.
  destruct (createApp_accepted_name E name w Hrej)
    as [(e & Hmk' & Hrun)|(fs1 & es1 & Hmk' & _)];
    fold root in Hmk'; rewrite Hmk in Hmk'; [|discriminate].
  injection Hmk' as <-. exact Hrun.
Qed.

(** [createApp] for [/tmp/app/notes.txt], which is a file. *)
Lemma createApp_on_a_file_throws_witness :
  createApp Sample.env "notes.txt" Sample.w_notes
  = (Throw (FsError EEXIST "mkdir" ["tmp"; "app"; "notes.txt"]), Sample.w_notes).
Proof.
  exact (createApp_on_a_file_throws Sample.env "notes.txt" Sample.w_notes "todo"
           eq_refl eq_refl).
Defined.

(** ** The npm working-directory check *)

Lemma checkThatNpmCanReadCwd_verdict (E : environment) (w : world) :
  exists errs,
    checkThatNpmCanReadCwd E w =
    (Ret match reported_cwd E (w_cwd w) with
         | None => true
         | Some npmCWD => String.eqb npmCWD (Path.to_string (w_cwd w))
         end,
     World (w_fs w) (w_cwd w)
       (w_trace w ++ Spawn "npm" ["config"; "list"] StdioPipe :: errs)%list)
    /\ forallb is_console_error errs = true
    /\ List.length errs
       = match reported_cwd E (w_cwd w) with
         | None => 0
         | Some npmCWD =>
             if String.eqb npmCWD (Path.to_string (w_cwd w)) then 0
             else if String.eqb (platform E) "win32" then 2 else 1
         end.
Proof.
  unfold checkThatNpmCanReadCwd, reported_cwd.
  rewrite (bind_Ret process_cwd _ w w (w_cwd w) eq_refl).
  erewrite bind_Ret by (unfold emit; reflexivity).
  destruct (npm_config_list E (w_cwd w)) as [out|].
  2:{ exists []. repeat split; reflexivity. }
  destruct (find _ _) as [line|].
  2:{ exists []. repeat split; reflexivity. }
  destruct (String.eqb _ _).
  { exists []. repeat split; reflexivity. }
  step_emit.
  destruct (String.eqb (platform E) "win32").
  - step_emit. eexists. unfold ret. simpl.
    repeat rewrite <- app_assoc. simpl. repeat split; reflexivity.
  - rewrite (bind_Ret _ _ _ _ tt eq_refl). eexists. unfold ret. simpl.
    repeat rewrite <- app_assoc. simpl. repeat split; reflexivity.
Qed.

(** X7. The npm working-directory check is advisory and passive.  It always
    returns a verdict (it neither exits nor throws), never changes the file
    system or the working directory, and spawns exactly [npm config list].
    It fails open: when npm's output is unavailable or names no working
    directory the verdict is [true].  It is silent exactly when the verdict
    is [true]; on [false] it prints one error, and a second one with the
    registry fix on [win32] only. *)
Theorem cwd_check_is_advisory (E : environment) (w : world) :
  exists b errs,
    checkThatNpmCanReadCwd E w =
    (Ret b,
     World (w_fs w) (w_cwd w)
       (w_trace w ++ Spawn "npm" ["config"; "list"] StdioPipe :: errs)%list)
    /\ forallb is_console_error errs = true
    /\ (reported_cwd E (w_cwd w) = None -> b = true)
    /\ (b = true <-> errs = [])
    /\ (b = false ->
        List.length errs = if String.eqb (platform E) "win32" then 2 else 1).
Proof.
  destruct (checkThatNpmCanReadCwd_verdict E w) as (errs & Hrun & Herrs & Hlen).
  eexists. exists errs. split; [exact Hrun|]. split; [assumption|].
  destruct (reported_cwd E (w_cwd w)) as [d|].
  - destruct (String.eqb d (Path.to_string (w_cwd w))).
    + destruct errs; [|discriminate]. repeat split; auto; discriminate.
    + split; [discriminate|]. split; [|auto].
      split; [discriminate|]. intros ->.
      destruct (String.eqb (platform E) "win32"); discriminate.
  - destruct errs; [|discriminate]. repeat split; auto; discriminate.
Qed.

Lemma split_nonempty (sep : ascii) (s : string) : Str.split sep s <> [].
Proof.
  destruct s as [|c s]; simpl; [discriminate|].
  destruct (Ascii.eqb c sep); [discriminate|].
  destruct (Str.split sep s); discriminate.
Qed.

Lemma split_no_sep (sep : ascii) (s : string) :
  has_char sep s = false -> Str.split sep s = [s].
Proof.
  induction s as [|c s IH]; simpl; [reflexivity|].
  intros H. apply orb_false_iff in H. destruct H as [Hc Hs].
  rewrite Hc, (IH Hs). reflexivity.
Qed.

Lemma split_app_sep (sep : ascii) (a b : string) :
  Str.split sep (a ++ String sep b) = (Str.split sep a ++ Str.split sep b)%list.
Proof.
  induction a as [|c a IH]; simpl.
  - now rewrite Ascii.eqb_refl.
  - destruct (Ascii.eqb c sep); [now rewrite IH|].
    rewrite IH. pose proof (split_nonempty sep a) as Hne.
    destruct (Str.split sep a); [contradiction | reflexivity].
Qed.

(** Splitting at line ends what was joined with line ends gives the lines
    back. *)
Lemma split_join_lines (ls : list string) :
  ls <> [] ->
  (forall l, In l ls -> has_char Str.nl l = false) ->
  Str.split Str.nl (Str.join Str.NL ls) = ls.
Proof.
  induction ls as [|l ls IH]; intros Hne Hall; [contradiction|].
  destruct ls as [|l' ls].
  - simpl. apply split_no_sep, Hall. now left.
  - change (Str.join Str.NL (l :: l' :: ls))
      with (l ++ String Str.nl (Str.join Str.NL (l' :: ls))).
    rewrite split_app_sep, split_no_sep by (apply Hall; now left).
    rewrite IH; [reflexivity | discriminate | intros x Hx; apply Hall; now right].
Qed.

Lemma find_first {A : Type} (P : A -> bool) (before after : list A) (x : A) :
  (forall y, In y before -> P y = false) ->
  P x = true ->
  find P (before ++ x :: after) = Some x.
Proof.
  intros Hb Hx. induction before as [|y before IH]; simpl.
  - now rewrite Hx.
  - rewrite (Hb y) by now left. apply IH. intros z Hz. apply Hb. now right.
Qed.

Lemma drop_prefix (p s : string) : Str.drop (String.length p) (p ++ s) = s.
Proof. induction p as [|c p IH]; simpl; [now destruct s | assumption]. Qed.

(** X8. Only the first line of npm's output that starts with [; cwd = ]
    counts.  When the output consists of lines of which the first one with
    that prefix reports the directory [dir], the check returns [true]
    exactly when [dir] is, character for character, the working directory of
    the process; the lines after it, other [; cwd = ] lines included, have
    no influence. *)
Theorem cwd_check_reads_first_cwd_line (E : environment) (w : world)
    (before after : list string) (dir : string) :
  npm_config_list E (w_cwd w)
  = Some (Str.join Str.NL (before ++ (cwd_prefix ++ dir)%string :: after)%list) ->
  (forall l, In l (before ++ (cwd_prefix ++ dir)%string :: after)%list -> has_char Str.nl l = false) ->
  (forall l, In l before -> Str.startsWith l cwd_prefix = false) ->
  reported_cwd E (w_cwd w) = Some dir
  /\ fst (checkThatNpmCanReadCwd E w) = Ret (String.eqb dir (Path.to_string (w_cwd w))).
Proof.
  intros Hout Hlines Hbefore.
  assert (Hrep : reported_cwd E (w_cwd w) = Some dir).
  { unfold reported_cwd. rewrite Hout, split_join_lines; [|now destruct before|assumption].
    rewrite (find_first _ _ _ _ Hbefore (startsWith_app cwd_prefix dir)).
    now rewrite drop_prefix. }
  split; [assumption|].
  destruct (checkThatNpmCanReadCwd_verdict E w) as (errs & Hrun & _).
  rewrite Hrun, Hrep. reflexivity.
Qed.

(** An npm that reports [/elsewhere] first and [/tmp/app] later, for a
    process in [/tmp/app]: the verdict is [false]. *)
Lemma cwd_check_reads_first_cwd_line_witness :
  fst (checkThatNpmCanReadCwd Sample.env_wrong_cwd (Sample.in_tmp_app [])) = Ret false.
Proof.
  refine (eq_trans
            (proj2 (cwd_check_reads_first_cwd_line Sample.env_wrong_cwd (Sample.in_tmp_app [])
                      ["; cli configs"] ["; cwd = /tmp/app"] "/elsewhere" eq_refl _ _))
            eq_refl).
  - simpl. intros l [<-|[<-|[<-|[]]]]; reflexivity.
  - simpl. intros l [<-|[]]. reflexivity.
Defined.

(** ** [createApp] after a clean scan *)

Lemma createApp_clean_result (E : environment) (name : string) (w : world) (fs1 : node)
    (es : Fs.entries) :
  let root := Path.resolve (w_cwd w) name in
  let appName := Path.basename root in
  name_rejected E appName = false ->
  Fs.mkdirp root (w_fs w) = Ok fs1 ->
  Fs.lookup root fs1 = Ok (Dir es) ->
  conflicts_of (Fs.names es) = [] ->
  let fs2 := Fs.update_dir (filter (fun e => negb (isErrorLog (fst e)))) root fs1 in
  let fs3 := Fs.update_dir (Fs.put_file "package.json" (manifest appName)) root fs2 in
  exists tr,
    createApp E name w =
    (match reported_cwd E root with
     | Some npmCWD =>
         if String.eqb npmCWD (Path.to_string root)
         then Throw (ReferenceError "version")
         else Exit 1
     | None => Throw (ReferenceError "version")
     end,
     World fs3 root tr)
    /\ Fs.lookup (Path.join root "package.json") fs3 = Ok (File (manifest appName)).
Proof.
  intros root appName Hacc Hmk Hl Hc fs2 fs3.
  set (es2 := filter (fun e => negb (isErrorLog (fst e))) es).
  destruct (FsFacts.alter_dir_lookup (filter (fun e => negb (isErrorLog (fst e)))) _ _ _ Hl)
    as [_ Hl2].
  fold fs2 in Hl2. fold es2 in Hl2.
  assert (Hnone : Fs.assoc "package.json" es2 = None).
  { apply FsFrame.assoc_None_names. unfold es2.
    rewrite (FsFacts.names_filter (fun x => negb (isErrorLog x))).
    intros Hin. apply filter_In in Hin. destruct Hin as [Hin _].
    apply (generated_file_is_conflict "package.json") in Hin; [|now left].
    now rewrite Hc in Hin. }
  destruct (FsFacts.alter_dir_lookup (Fs.put_file "package.json" (manifest appName)) _ _ _ Hl2)
    as [Ha3 Hl3].
  fold fs3 in Ha3, Hl3.
  assert (Hw : Fs.write_file (Path.join root "package.json") (manifest appName) fs2 = Ok fs3).
  { unfold Fs.write_file, Path.join. now rewrite FsFacts.split_last_snoc, Hl2, Hnone. }
  assert (Hfile : Fs.lookup (Path.join root "package.json") fs3 = Ok (File (manifest appName))).
  { unfold Path.join. rewrite FsFacts.lookup_app, Hl3. simpl.
    unfold Fs.put_file. rewrite Hnone. now rewrite (FsFacts.assoc_app_new _ _ _ Hnone). }
  unfold createApp.
  rewrite (bind_Ret process_cwd _ w w (w_cwd w) eq_refl).
  fold root. fold appName.
  assert (Hname : checkAppName E appName w = (Ret tt, w)).
  { rewrite checkAppName_result, Hacc, (name_report_accepted _ _ Hacc).
    now rewrite app_nil_r, world_eta. }
  rewrite (bind_Ret _ _ _ _ _ Hname).
  assert (Hens : fs_ensureDirSync root w
                 = (Ret tt, World fs1 (w_cwd w) (w_trace w ++ [FsMkdirp root])%list))
    by (unfold fs_ensureDirSync, lift_fs; now rewrite Hmk).
  rewrite (bind_Ret _ _ _ _ _ Hens). clear Hens.
  rewrite (bind_Ret _ _ _ _ _ (scan_safe E root name (World fs1 _ _) es Hl Hc)).
  cbn [negb]. cbv iota. rewrite (bind_Ret _ _ _ _ tt eq_refl).
  do 3 step_emit. cbn [w_fs w_cwd w_trace]. fold fs2.
  match goal with
  | |- context [bind (fs_writeFileSync ?p ?c) ?k (World fs2 ?cwd ?tr)] =>
      assert (Hwrite : fs_writeFileSync p c (World fs2 cwd tr)
                       = (Ret tt, World fs3 cwd (tr ++ [FsWriteFile p c])%list))
        by (unfold fs_writeFileSync, lift_fs; cbn [w_fs w_cwd w_trace]; now rewrite Hw);
      rewrite (bind_Ret _ _ _ _ _ Hwrite); clear Hwrite
  end.
  rewrite (bind_Ret process_cwd _ _ _ _ eq_refl). cbn [w_fs w_cwd w_trace].
  match goal with
  | |- context [bind (process_chdir root) ?k (World fs3 ?cwd ?tr)] =>
      assert (Hchdir : process_chdir root (World fs3 cwd tr)
                       = (Ret tt, World fs3 root (tr ++ [Chdir root])%list))
        by (unfold process_chdir; cbn [w_fs w_cwd w_trace]; now rewrite Hl3);
      rewrite (bind_Ret _ _ _ _ _ Hchdir); clear Hchdir
  end.
  match goal with
  | |- context [bind (checkThatNpmCanReadCwd E) _ ?w5] =>
      destruct (checkThatNpmCanReadCwd_verdict E w5) as (errs & Hcheck & _)
  end.
  rewrite (bind_Ret _ _ _ _ _ Hcheck). clear Hcheck. cbn [w_fs w_cwd w_trace].
  eexists. split; [|exact Hfile].
  destruct (reported_cwd E root) as [d|]; [destruct (String.eqb d (Path.to_string root))|];
    cbn [negb]; cbv iota; reflexivity.
Qed.

(** X9. After a scan without conflicts the manifest write cannot fail, and
    nothing rolls it back.  For a name that [checkAppName] accepts and a
    target that could be created and passed the scan, [createApp] ends with
    [package.json] holding the manifest in the target and with the process
    inside the target.  It ends by exit status 1 when npm reports another
    working directory, and otherwise by the [ReferenceError] on [version];
    no file-system error is possible on this path. *)
Theorem createApp_leaves_the_manifest (E : environment) (name : string) (w : world)
    (fs1 : node) :
  let root := Path.resolve (w_cwd w) name in
  let appName := Path.basename root in
  name_rejected E appName = false ->
  Fs.mkdirp root (w_fs w) = Ok fs1 ->
  conflicts_of (Fs.listing root fs1) = [] ->
  let o := fst (createApp E name w) in
  let w' := snd (createApp E name w) in
  Fs.lookup (Path.join root "package.json") (w_fs w') = Ok (File (manifest appName))
  /\ w_cwd w' = root
  /\ o = match reported_cwd E root with
         | Some npmCWD =>
             if String.eqb npmCWD (Path.to_string root)
             then Throw (ReferenceError "version")
             else Exit 1
         | None => Throw (ReferenceError "version")
         end.
Proof.
  intros root appName Hacc Hmk Hc o w'.
  destruct (FsFacts.mkdirp_lookup _ _ _ Hmk) as [es Hl].
  unfold Fs.listing in Hc. rewrite Hl in Hc.
  destruct (createApp_clean_result E name w fs1 es Hacc Hmk Hl Hc) as (tr & Hrun & Hfile).
  unfold o, w'. rewrite Hrun. simpl. auto.
Qed.

(** [createApp] for [app] in an empty [/tmp], with an npm that reports
    another working directory: exit status 1, and the manifest stays. *)
Lemma createApp_leaves_the_manifest_witness :
  fst (createApp Sample.env_wrong_cwd "app" Sample.w_tmp) = Exit 1
  /\ Fs.lookup ["tmp"; "app"; "package.json"]
       (w_fs (snd (createApp Sample.env_wrong_cwd "app" Sample.w_tmp)))
     = Ok (File (manifest "app")).
Proof.
  destruct (createApp_leaves_the_manifest Sample.env_wrong_cwd "app" Sample.w_tmp _
              eq_refl eq_refl eq_refl) as (Hfile & _ & Ho).
  split; [exact Ho | exact Hfile].
Defined.

(** ** The name of the project *)

Lemma plain_component_push (acc : path) (leaf : string) :
  plain_component leaf = true -> Path.push_segment acc leaf = (acc ++ [leaf])%list.
Proof.
  unfold plain_component, Path.push_segment. intros H.
  apply andb_true_iff in H. destruct H as [H _].
  apply andb_true_iff in H. destruct H as [H H3].
  apply andb_true_iff in H. destruct H as [H1 H2].
  apply negb_true_iff in H1, H2, H3. now rewrite H1, H2, H3.
Qed.

Lemma plain_component_split (leaf : string) :
  plain_component leaf = true -> Str.split "/" leaf = [leaf].
Proof.
  unfold plain_component. intros H. apply andb_true_iff in H. destruct H as [_ H].
  apply negb_true_iff in H. now apply split_no_sep.
Qed.

Lemma basename_resolve_leaf (cwd : path) (dir leaf : string) :
  plain_component leaf = true ->
  Path.basename (Path.resolve cwd (dir ++ "/" ++ leaf)) = leaf
  /\ Path.basename (Path.resolve cwd leaf) = leaf
  /\ Path.basename (Path.resolve cwd (leaf ++ "/")) = leaf.
Proof.
  intros Hleaf. unfold Path.basename, Path.resolve. repeat split.
  - change (dir ++ "/" ++ leaf) with (dir ++ String "/" leaf).
    rewrite split_app_sep, (plain_component_split _ Hleaf), fold_left_app. simpl.
    rewrite (plain_component_push _ _ Hleaf). apply last_last.
  - rewrite (plain_component_split _ Hleaf). simpl.
    rewrite (plain_component_push _ _ Hleaf). apply last_last.
  - change (leaf ++ "/") with (leaf ++ String "/" "").
    rewrite split_app_sep, (plain_component_split _ Hleaf). simpl.
    rewrite (plain_component_push _ _ Hleaf). unfold Path.push_segment. simpl.
    apply last_last.
Qed.

(** X10. The project is named after the last component of the target path,
    whatever leads to it: for a plain name [leaf], the targets [leaf],
    [dir/leaf] (any [dir], relative or absolute) and [leaf/] all give the
    package name [leaf].  So a reserved name is refused behind any path:
    [createApp] for [dir/express] exits with status 1 and changes nothing. *)
Theorem project_name_is_last_component (E : environment) (dir leaf : string) (w : world) :
  plain_component leaf = true ->
  Path.basename (Path.resolve (w_cwd w) (dir ++ "/" ++ leaf)) = leaf
  /\ Path.basename (Path.resolve (w_cwd w) leaf) = leaf
  /\ Path.basename (Path.resolve (w_cwd w) (leaf ++ "/")) = leaf
  /\ (In leaf dependencies ->
      fst (createApp E (dir ++ "/" ++ leaf) w) = Exit 1
      /\ w_fs (snd (createApp E (dir ++ "/" ++ leaf) w)) = w_fs w
      /\ w_cwd (snd (createApp E (dir ++ "/" ++ leaf) w)) = w_cwd w).
Proof.
  intros Hleaf.
  destruct (basename_resolve_leaf (w_cwd w) dir leaf Hleaf) as (H1 & H2 & H3).
  repeat split; try assumption.
  all: assert (Hrej : name_rejected E
                        (Path.basename (Path.resolve (w_cwd w) (dir ++ "/" ++ leaf))) = true)
    by (rewrite H1; unfold name_rejected;
        rewrite (proj2 (includes_In dependencies leaf) H); apply orb_true_r);
    now rewrite (createApp_rejected_name E _ w Hrej).
Qed.

(** [createApp] for [projects/2024/express]. *)
Lemma project_name_is_last_component_witness :
  fst (createApp Sample.env "projects/2024/express" Sample.w_home) = Exit 1
  /\ w_fs (snd (createApp Sample.env "projects/2024/express" Sample.w_home))
     = w_fs Sample.w_home.
Proof.
  destruct (project_name_is_last_component Sample.env "projects/2024" "express"
              Sample.w_home eq_refl) as (_ & _ & _ & H).
  destruct (H (or_introl eq_refl)) as (Hexit & Hfs & _).
  split; [exact Hexit | exact Hfs].
Defined.

(** X11. [checkAppName] lets a name pass exactly when the naming policy
    accepts it for new packages and it is not the name of a dependency; a
    name that passes prints nothing and changes nothing.  Otherwise the
    process exits with status 1; there is no other way out (no exception),
    and the file system and the working directory are never touched.  The
    naming policy is asked first: a dependency name that the policy rejects
    gets the report of the policy. *)
Theorem checkAppName_verdict (E : environment) (appName : string) (w : world) :
  (checkAppName E appName w = (Ret tt, w) <->
   validForNewPackages (validateProjectName E appName) = true /\ ~ In appName dependencies)
  /\ (fst (checkAppName E appName w) = Ret tt \/ fst (checkAppName E appName w) = Exit 1)
  /\ w_fs (snd (checkAppName E appName w)) = w_fs w
  /\ w_cwd (snd (checkAppName E appName w)) = w_cwd w
  /\ (validForNewPackages (validateProjectName E appName) = false ->
      w_trace (snd (checkAppName E appName w)) = (w_trace w ++ naming_report E appName)%list).
Proof.
  rewrite checkAppName_result. cbn [fst snd w_fs w_cwd w_trace].
  unfold name_rejected, name_report.
  destruct (validForNewPackages (validateProjectName E appName)) eqn:Hv;
    destruct (Str.includes dependencies appName) eqn:Hd; cbn [negb orb].
  - apply includes_In in Hd.
    split; [split; [discriminate | tauto]|].
    repeat split; auto; discriminate.
  - split; [|repeat split; auto; discriminate].
    split; [|intros _; now rewrite app_nil_r, world_eta].
    intros _. split; [reflexivity|]. intros Hin. apply includes_In in Hin. congruence.
  - split; [split; [discriminate | intros [H _]; discriminate]|].
    repeat split; auto.
  - split; [split; [discriminate | intros [H _]; discriminate]|].
    repeat split; auto.
Qed.

(** X12. When the target is not a directory any more (it is missing, or a
    file), the handler of [run] does not reach its [process.exit(1)]: the
    listing of the target throws after the first lines were printed, the
    rejection stays unhandled, and nothing is deleted. *)
Theorem rollback_without_target_throws (E : environment) (root : path) (appName : string)
    (r : reason) (w : world) :
  (forall es, Fs.lookup root (w_fs w) <> Ok (Dir es)) ->
  exists code,
    run_catch E root appName r w =
    (Throw (FsError code "scandir" root),
     World (w_fs w) (w_cwd w)
       (w_trace w ++ [ConsoleLog ""; ConsoleLog "Aborting installation."]
          ++ reason_lines E r ++ [ConsoleLog ""])%list)
    /\ (code = ENOENT \/ code = ENOTDIR).
Proof.
  intros Hnot. unfold run_catch. do 2 step_emit.
  assert (Hreason :
            forall w0,
              match reason_command r with
              | Some c => console_log ("  " ++ chalk E Cyan c ++ " has failed.")
              | None =>
                  console_log (chalk E Red "Unexpected error. Please report it as a bug:") ;;
                  emit (ConsoleLogReason r)
              end w0
              = (Ret tt, World (w_fs w0) (w_cwd w0) (w_trace w0 ++ reason_lines E r)%list)).
  { intros w0. unfold reason_lines. destruct (reason_command r).
    - reflexivity.
    - step_emit. unfold emit. simpl. now rewrite <- app_assoc. }
  rewrite (bind_Ret _ _ _ _ _ (Hreason _)). clear Hreason.
  step_emit. cbn [w_fs w_cwd w_trace].
  assert (Hlookup : forall n, Fs.lookup root (w_fs w) = Ok n -> exists c, n = File c).
  { intros [c|es] Hn; [eauto | now elim (Hnot es)]. }
  assert (Hcode : exists code,
             (match Fs.lookup root (w_fs w) with
              | Ok (Dir _) => None
              | Ok (File _) => Some ENOTDIR
              | Err e => Some e
              end = Some code)
             /\ (code = ENOENT \/ code = ENOTDIR)).
  { clear Hlookup. revert Hnot. generalize (w_fs w). induction root as [|x p IH]; intros n Hn.
    - destruct n as [c|es]; [|now elim (Hn es)].
      exists ENOTDIR. split; [reflexivity | now right].
    - destruct n as [c|es]; simpl.
      { exists ENOTDIR. split; [reflexivity | now right]. }
      destruct (Fs.assoc x es) as [c|] eqn:Hx.
      + apply IH. intros es' He. apply (Hn es'). simpl. now rewrite Hx.
      + exists ENOENT. split; [reflexivity | now left]. }
  destruct Hcode as (code & Hcode & Hkind). exists code. split; [|assumption].
  apply bind_Throw. unfold fs_readdirSync. cbn [w_fs w_cwd w_trace].
  destruct (Fs.lookup root (w_fs w)) as [[c|es]|e]; try discriminate;
    injection Hcode as <-; repeat rewrite <- app_assoc; reflexivity.
Qed.

(** The rollback for [/tmp/app] on a machine without [/tmp/app]. *)
Lemma rollback_without_target_throws_witness :
  fst (run_catch Sample.env ["tmp"; "app"] "app" (CommandFailed "npm install") Sample.w_home)
  = Throw (FsError ENOENT "scandir" ["tmp"; "app"]).
Proof.
  destruct (rollback_without_target_throws Sample.env ["tmp"; "app"] "app"
              (CommandFailed "npm install") Sample.w_home
              ltac:(intros es; discriminate)) as (code & Hrun & _).
  reflexivity.
Defined.

(** X13. The verdict of the scan depends on the names in the directory
    only: two directories that list the same names get the same verdict,
    whatever the entries are (files or directories) and whatever they hold.
    The scan never looks below an entry. *)
Theorem scan_verdict_depends_on_names_only (E : environment) (root root2 : path)
    (name name2 : string) (w w2 : world) (es es2 : Fs.entries) :
  Fs.lookup root (w_fs w) = Ok (Dir es) ->
  Fs.lookup root2 (w_fs w2) = Ok (Dir es2) ->
  Fs.names es = Fs.names es2 ->
  fst (isSafeToCreateProjectIn E root name w)
  = fst (isSafeToCreateProjectIn E root2 name2 w2).
Proof.
  intros Hl Hl2 Hnames.
  assert (Hc : conflicts_of (Fs.names es) = [] \/ conflicts_of (Fs.names es) <> [])
    by (destruct (conflicts_of (Fs.names es)); [now left | now right]).
  destruct Hc as [Hc|Hc].
  - rewrite (scan_safe E root name w es Hl Hc).
    rewrite Hnames in Hc. now rewrite (scan_safe E root2 name2 w2 es2 Hl2 Hc).
  - rewrite (scan_unsafe E root name w es Hl Hc).
    rewrite Hnames in Hc. now rewrite (scan_unsafe E root2 name2 w2 es2 Hl2 Hc).
Qed.

(** [docs] as a directory full of files and [docs] as an empty file. *)
Lemma scan_verdict_depends_on_names_only_witness :
  fst (isSafeToCreateProjectIn Sample.env ["tmp"; "app"] "app"
         (Sample.in_tmp_app [("docs", Dir [("a.txt", File "a"); ("b", Dir [])])]))
  = fst (isSafeToCreateProjectIn Sample.env ["tmp"; "app"] "app"
           (Sample.in_tmp_app [("docs", File "")])).
Proof.
  exact (scan_verdict_depends_on_names_only Sample.env ["tmp"; "app"] ["tmp"; "app"]
           "app" "app"
           (Sample.in_tmp_app [("docs", Dir [("a.txt", File "a"); ("b", Dir [])])])
           (Sample.in_tmp_app [("docs", File "")]) _ _ eq_refl eq_refl eq_refl).
Defined.

(** ** [createApp] followed by the rollback *)

Lemma mkdirp_fresh_leaf (d : path) (x : string) (n : node) (es0 : Fs.entries) :
  Fs.lookup d n = Ok (Dir es0) ->
  Fs.assoc x es0 = None ->
  Fs.mkdirp (d ++ [x])%list n = Fs.alter_dir (fun es => es ++ [(x, Dir [])])%list d n.
Proof.
  revert n. induction d as [|y d IH]; intros n Hl Hx.
  - simpl in Hl. injection Hl as ->. simpl. now rewrite Hx.
  - destruct n as [|es]; simpl in Hl; [discriminate|]. simpl.
    destruct (Fs.assoc y es) as [c|]; [|discriminate].
    now rewrite (IH c Hl Hx).
Qed.

Lemma remove_name_app_fresh (x : string) (c : node) (es : Fs.entries) :
  Fs.assoc x es = None -> Fs.remove_name x (es ++ [(x, c)])%list = es.
Proof.
  unfold Fs.remove_name. induction es as [|[y m] es IH]; simpl.
  - now rewrite String.eqb_refl.
  - destruct (String.eqb_spec x y) as [->|Hxy]; [discriminate|].
    intros H. rewrite String.eqb_sym.
    destruct (String.eqb_spec x y); [contradiction|]. simpl. now rewrite IH.
Qed.

Lemma filter_only_logs (es : Fs.entries) :
  (forall file, In file (Fs.names es) -> isErrorLog file = true) ->
  filter (fun e => negb (isErrorLog (fst e))) es = [].
Proof.
  induction es as [|[y m] es IH]; intros H; [reflexivity|]. simpl.
  rewrite (H y) by now left. simpl. apply IH. intros file Hf. apply H. now right.
Qed.

(** The rollback on a target that holds nothing but the fresh manifest. *)
Lemma rollback_of_fresh_manifest (E : environment) (d : path) (x appName content : string)
    (fs1 : node) (es : Fs.entries) (cwd : path) (tr : list event) :
  let root := (d ++ [x])%list in
  Fs.lookup root fs1 = Ok (Dir es) ->
  filter (fun e => negb (isErrorLog (fst e))) es = [] ->
  let fs3 :=
    Fs.update_dir (Fs.put_file "package.json" content) root
      (Fs.update_dir (filter (fun e => negb (isErrorLog (fst e)))) root fs1) in
  exists tr',
    run E root appName (World fs3 cwd tr)
    = (Exit 1, World (Fs.update_dir (Fs.remove_name x) d fs1) d tr').
Proof.
  intros root Hl Hlogs fs3.
  destruct (FsFacts.alter_dir_lookup (filter (fun e => negb (isErrorLog (fst e)))) _ _ _ Hl)
    as [Ha2 Hl2].
  destruct (FsFacts.alter_dir_lookup (Fs.put_file "package.json" content) _ _ _ Hl2)
    as [Ha3 Hl3].
  fold fs3 in Ha3, Hl3. rewrite Hlogs in Hl3.
  change (Fs.put_file "package.json" content []) with [("package.json", File content)] in Hl3.
  change (run E root appName (World fs3 cwd tr))
    with (run_catch E root appName (Thrown (TypeError "object is not iterable"))
            (World fs3 cwd tr)).
  rewrite (run_catch_result E d x appName _ (World fs3 cwd tr) _ Hl3).
  change (kept_entries [("package.json", File content)]) with (@nil (string * node)).
  cbn [w_fs w_cwd w_trace]. eexists. f_equal. f_equal.
  unfold Fs.update_dir at 1.
  rewrite (FsFacts.alter_child_then_remove _ _ _ _ _ Ha3).
  rewrite (FsFacts.alter_child_then_remove _ _ _ _ _ Ha2).
  destruct (FsFacts.lookup_parent _ _ _ _ Hl) as [es0 Hd0].
  destruct (FsFacts.alter_dir_lookup (Fs.remove_name x) _ _ _ Hd0) as [Ha0 _].
  now rewrite Ha0.
Qed.

(** X14. On a fresh target the rollback undoes [createApp].  When the
    parent of the target exists and has no entry of the target's name, and
    [checkAppName] accepts the name, [createApp] creates the target and
    writes the manifest, and the rollback applied to the world it leaves
    exits with status 1 with the file system exactly as it was before
    [createApp]; the process is left in the parent of the target. *)
Theorem rollback_undoes_createApp (E : environment) (name : string) (w : world) (d : path)
    (x : string) (es0 : Fs.entries) :
  let root := Path.resolve (w_cwd w) name in
  let appName := Path.basename root in
  root = (d ++ [x])%list ->
  Fs.lookup d (w_fs w) = Ok (Dir es0) ->
  ~ In x (Fs.names es0) ->
  name_rejected E appName = false ->
  let w1 := snd (createApp E name w) in
  Fs.lookup (Path.join root "package.json") (w_fs w1) = Ok (File (manifest appName))
  /\ fst (run E root appName w1) = Exit 1
  /\ w_fs (snd (run E root appName w1)) = w_fs w
  /\ w_cwd (snd (run E root appName w1)) = d.
Proof.
  intros root appName Hroot Hd Hx Hacc w1.
  apply FsFrame.assoc_None_names in Hx.
  destruct (FsFacts.alter_dir_lookup (fun es => es ++ [(x, Dir [])])%list _ _ _ Hd)
    as [Ha1 Hl1].
  set (fs1 := Fs.update_dir (fun es => es ++ [(x, Dir [])])%list d (w_fs w)) in *.
  assert (Hmk : Fs.mkdirp root (w_fs w) = Ok fs1)
    by (rewrite Hroot, (mkdirp_fresh_leaf _ _ _ _ Hd Hx); exact Ha1).
  assert (Hl : Fs.lookup root fs1 = Ok (Dir [])).
  { rewrite Hroot, FsFacts.lookup_app, Hl1. simpl.
    now rewrite (FsFacts.assoc_app_new _ _ _ Hx). }
  destruct (createApp_clean_result E name w fs1 [] Hacc Hmk Hl eq_refl)
    as (tr & Hrun & Hfile).
  fold root in Hrun, Hfile. fold appName in Hrun, Hfile.
  unfold w1. rewrite Hrun. cbn [snd w_fs].
  split; [exact Hfile|].
  rewrite Hroot in Hl |- *.
  destruct (rollback_of_fresh_manifest E d x appName (manifest appName) fs1 []
              (d ++ [x])%list tr Hl eq_refl) as (tr' & Hroll).
  rewrite Hroll. cbn [fst snd w_fs w_cwd].
  split; [reflexivity|]. split; [|reflexivity].
  unfold Fs.update_dir at 1.
  rewrite (FsFacts.alter_dir_compose _ (Fs.remove_name x) _ _ _ Ha1).
  rewrite (FsFacts.alter_dir_at _ (fun es => es) _ _ _ Hd
             (remove_name_app_fresh x (Dir []) es0 Hx)).
  now rewrite (FsFacts.alter_dir_id _ _ _ Hd).
Qed.

(** [createApp] for [app] in an empty [/tmp], then the rollback. *)
Lemma rollback_undoes_createApp_witness :
  let w1 := snd (createApp Sample.env "app" Sample.w_tmp) in
  Fs.lookup ["tmp"; "app"; "package.json"] (w_fs w1) = Ok (File (manifest "app"))
  /\ w_fs (snd (run Sample.env ["tmp"; "app"] "app" w1)) = w_fs Sample.w_tmp.
Proof.
  destruct (rollback_undoes_createApp Sample.env "app" Sample.w_tmp ["tmp"] "app" []
              eq_refl eq_refl ltac:(simpl; tauto) eq_refl) as (Hfile & _ & Hfs & _).
  split; [exact Hfile | exact Hfs].
Defined.

(** X15. The rollback removes a target directory that existed before the
    run when it held nothing that stays: for a target that was empty, or
    held stale logs only, [createApp] removes the logs and writes the
    manifest, and the rollback applied to the world it leaves removes the
    manifest and then the directory itself. *)
Theorem rollback_removes_a_preexisting_empty_target (E : environment) (name : string)
    (w : world) (d : path) (x : string) (es : Fs.entries) :
  let root := Path.resolve (w_cwd w) name in
  let appName := Path.basename root in
  root = (d ++ [x])%list ->
  Fs.lookup root (w_fs w) = Ok (Dir es) ->
  (forall file, In file (Fs.names es) -> isErrorLog file = true) ->
  name_rejected E appName = false ->
  let w1 := snd (createApp E name w) in
  fst (run E root appName w1) = Exit 1
  /\ Fs.lookup root (w_fs (snd (run E root appName w1))) = Err ENOENT
  /\ w_fs (snd (run E root appName w1)) = Fs.update_dir (Fs.remove_name x) d (w_fs w).
Proof.
  intros root appName Hroot Hl Hlogs Hacc w1.
  pose proof (mkdirp_existing _ _ _ Hl) as Hmk.
  assert (Hc : conflicts_of (Fs.names es) = []).
  { destruct (conflicts_of (Fs.names es)) as [|c cs] eqn:Hc; [reflexivity|].
    assert (Hin : In c (conflicts_of (Fs.names es))) by (rewrite Hc; now left).
    apply conflicts_of_In in Hin. destruct Hin as (Hin & _ & _ & Hlog).
    rewrite (Hlogs c Hin) in Hlog. discriminate. }
  destruct (createApp_clean_result E name w (w_fs w) es Hacc Hmk Hl Hc)
    as (tr & Hrun & _).
  fold root in Hrun. fold appName in Hrun.
  unfold w1. rewrite Hrun. cbn [snd].
  rewrite Hroot in Hl |- *.
  destruct (rollback_of_fresh_manifest E d x appName (manifest appName) (w_fs w) es
              (d ++ [x])%list tr Hl (filter_only_logs es Hlogs)) as (tr' & Hroll).
  rewrite Hroll. cbn [fst snd w_fs].
  split; [reflexivity|]. split; [|reflexivity].
  destruct (FsFacts.lookup_parent _ _ _ _ Hl) as [es0 Hd].
  apply (FsFacts.lookup_removed _ x _ _ Hd).
Qed.

(** [/tmp/app] existed and held one stale log: after [createApp] and the
    rollback it is gone. *)
Lemma rollback_removes_a_preexisting_empty_target_witness :
  let w := World (Dir [("tmp", Dir [("app", Dir [("npm-debug.log", File "old")])])])
             ["tmp"] [] in
  let w1 := snd (createApp Sample.env "app" w) in
  Fs.lookup ["tmp"; "app"] (w_fs w) = Ok (Dir [("npm-debug.log", File "old")])
  /\ Fs.lookup ["tmp"; "app"] (w_fs (snd (run Sample.env ["tmp"; "app"] "app" w1)))
     = Err ENOENT.
Proof.
  split; [reflexivity|].
  refine (proj1 (proj2 (rollback_removes_a_preexisting_empty_target Sample.env "app"
                          (World (Dir [("tmp", Dir [("app", Dir [("npm-debug.log",
                                                                  File "old")])])])
                             ["tmp"] [])
                          ["tmp"] "app" _ eq_refl eq_refl _ eq_refl))).
  simpl. intros file [<-|[]]. reflexivity.
Defined.

(** ** The clone-and-install script *)

Lemma runCommand_result (S : shell) (command : string) (w : world) :
  runCommand S command w =
  (Ret match fst (execSync S command (w_cwd w) (w_fs w)) with
       | None => true
       | Some _ => false
       end,
   World (snd (execSync S command (w_cwd w) (w_fs w))) (w_cwd w)
     (w_trace w
        ++ Spawn command [] StdioInherit
        :: match fst (execSync S command (w_cwd w) (w_fs w)) with
           | None => []
           | Some e => [ConsoleError (console_format S ("failed to execute " ++ command) e)]
           end)%list).
Proof.
  unfold runCommand. erewrite bind_Ret by (unfold emit; reflexivity).
  cbn [w_fs w_cwd w_trace].
  destruct (execSync S command (w_cwd w) (w_fs w)) as [[e|] fs'] eqn:Hexec.
  - erewrite bind_Ret by (cbn [w_fs w_cwd w_trace]; rewrite Hexec; reflexivity).
    cbv beta iota. step_emit. unfold ret. cbn [fst snd w_fs w_cwd w_trace].
    now rewrite <- app_assoc.
  - erewrite bind_Ret by (cbn [w_fs w_cwd w_trace]; rewrite Hexec; reflexivity).
    reflexivity.
Qed.

(** The three ways in which the script ends. *)
Lemma cli_result (S : shell) (repoName : option string) (w : world) :
  let clone := execSync S (gitCheckoutCommand repoName) (w_cwd w) (w_fs w) in
  let inst := execSync S (installDepsCommand repoName) (w_cwd w) (snd clone) in
  let cloning :=
    [ConsoleLog ("Clonning the repository with name " ++ interpolate repoName);
     Spawn (gitCheckoutCommand repoName) [] StdioInherit] in
  let installing :=
    [ConsoleLog ("Installing dependencies for " ++ interpolate repoName);
     Spawn (installDepsCommand repoName) [] StdioInherit] in
  cli S repoName w =
  match fst clone with
  | Some e =>
      (Exit 1,
       World (snd clone) (w_cwd w)
         (w_trace w ++ cloning
            ++ [ConsoleError
                  (console_format S ("failed to execute " ++ gitCheckoutCommand repoName) e)])%list)
  | None =>
      match fst inst with
      | Some e =>
          (Exit 1,
           World (snd inst) (w_cwd w)
             (w_trace w ++ cloning ++ installing
                ++ [ConsoleError
                      (console_format S ("failed to execute " ++ installDepsCommand repoName)
                         e)])%list)
      | None =>
          (Ret tt,
           World (snd inst) (w_cwd w)
             (w_trace w ++ cloning ++ installing
                ++ [ConsoleLog ("cd " ++ interpolate repoName ++ " && npm start")])%list)
      end
  end.
Proof.
  intros clone inst cloning installing. unfold cli.
  step_emit. rewrite (bind_Ret _ _ _ _ _ (runCommand_result S _ _)).
  cbn [w_fs w_cwd w_trace]. fold clone.
  destruct (fst clone) as [e|]; cbn [negb]; cbv iota.
  - unfold bind, process_exit. cbn [w_fs w_cwd w_trace]. unfold cloning.
    repeat rewrite <- app_assoc. reflexivity.
  - rewrite (bind_Ret _ _ _ _ tt eq_refl). step_emit.
    rewrite (bind_Ret _ _ _ _ _ (runCommand_result S _ _)).
    cbn [w_fs w_cwd w_trace]. fold inst.
    destruct (fst inst) as [e|]; cbn [negb]; cbv iota.
    + unfold bind, process_exit. cbn [w_fs w_cwd w_trace]. unfold cloning, installing.
      repeat rewrite <- app_assoc. reflexivity.
    + rewrite (bind_Ret _ _ _ _ tt eq_refl). unfold console_log, emit.
      cbn [w_fs w_cwd w_trace]. unfold cloning, installing.
      repeat rewrite <- app_assoc. reflexivity.
Qed.

(** X16. The clone-and-install script installs only what it cloned.  For
    the directory name [name] given as argument, it always runs
    [git clone --depth 1 https://github.com/kinitroConsultoria/create-node-express-es6-app name]
    first; it runs [cd name && npm install] exactly when the clone
    succeeded; it ends normally exactly when both commands succeeded and
    then its last line is the hint [cd name && npm start]; it ends with exit
    status 1 otherwise, after the error of the failed command was printed,
    and never by an exception.  The script itself changes nothing: the file
    system it leaves is the one the commands left, and the working directory
    is the same.  The argument is not checked: a missing argument behaves as
    the directory name [undefined]. *)
Theorem cli_installs_only_after_clone (S : shell) (repoName : option string) (w : world) :
  let name := match repoName with Some s => s | None => "undefined" end in
  let git :=
    "git clone --depth 1 https://github.com/kinitroConsultoria/create-node-express-es6-app "
      ++ name in
  let npm := "cd " ++ name ++ " && npm install" in
  let clone := execSync S git (w_cwd w) (w_fs w) in
  let inst := execSync S npm (w_cwd w) (snd clone) in
  let o := fst (cli S repoName w) in
  let w' := snd (cli S repoName w) in
  (o = Ret tt \/ o = Exit 1)
  /\ (o = Ret tt <-> fst clone = None /\ fst inst = None)
  /\ spawns (w_trace w')
     = (spawns (w_trace w)
          ++ Spawn git [] StdioInherit
          :: match fst clone with
             | None => [Spawn npm [] StdioInherit]
             | Some _ => []
             end)%list
  /\ w_fs w' = match fst clone with
               | None => snd inst
               | Some _ => snd clone
               end
  /\ w_cwd w' = w_cwd w
  /\ (o = Ret tt ->
      exists tr,
        w_trace w' = (tr ++ [ConsoleLog ("cd " ++ name ++ " && npm start")])%list)
  /\ (forall e,
        fst clone = Some e ->
        exists tr,
          w_trace w'
          = (tr ++ [ConsoleError (console_format S ("failed to execute " ++ git) e)])%list)
  /\ (forall e,
        fst clone = None -> fst inst = Some e ->
        exists tr,
          w_trace w'
          = (tr ++ [ConsoleError (console_format S ("failed to execute " ++ npm) e)])%list)
  /\ cli S None w = cli S (Some "undefined") w.
Proof.
  intros name git npm clone inst o w'. unfold o, w'. clear o w'.
  assert (Hname : name = interpolate repoName) by reflexivity.
  assert (Hgit : git = gitCheckoutCommand repoName) by reflexivity.
  assert (Hnpm : npm = installDepsCommand repoName) by reflexivity.
  clearbody npm git name. subst npm git name.
  split; [|split; [|split; [|split; [|split; [|split; [|split; [|split]]]]]]];
    [ | | | | | | | |reflexivity].
  all: rewrite (cli_result S repoName w); fold clone; fold inst.
  all: destruct (fst clone) as [e|]; [|destruct (fst inst) as [e|]];
    cbn [fst snd w_fs w_cwd w_trace].
  all: try (now right); try (now left); try reflexivity; try discriminate.
  all: try (split; [discriminate | intros [H1 H2]; discriminate]).
  all: try (repeat rewrite spawns_app; simpl; repeat rewrite app_nil_r; reflexivity).
  - split; auto.
  - intros _. eexists. repeat rewrite app_assoc. reflexivity.
  - intros e' He. injection He as <-. eexists. repeat rewrite app_assoc. reflexivity.
  - intros e' _ He. injection He as <-. eexists. repeat rewrite app_assoc. reflexivity.
Qed.
